(** * Bank-statement cleaning: amounts, balances, dates and chronology

    A shallow embedding of the two engines of the statement cleaner:

    - [csv_cleaning.py]: the amount parsers ([extract_amount],
      [parse_balance], [extract_amount_new]), the debit and credit markers
      ([normalize_drcr_value]), the running-balance verifier
      ([calculate_difference_and_verify]) and the step runner ([run_step]);
    - [date_cleaning.py]: the date-token parser ([parse_custom_date]), the
      chronology repair ([date_correction]), the rotation
      ([rotate_if_descending]), the year repair
      ([fix_chronological_year_issues]), their driver
      ([process_all_dates]) and the helpers [extract_date_components],
      [find_nearest_valid_date] and [get_valid_date_context].

    Conventions of the embedding.

    - Text is a list of characters.  The character classes of the regular
      expressions ([\d], [\s], [\w], [A-Z]) and [str.upper], [str.lower],
      [str.strip] are the ASCII ones.
    - A Python float is represented by the rational number it denotes; the
      result of [round(x, 2)] is the nearest count of hundredths, ties to
      even, as CPython computes it from the exact value of [x].  Sums of
      amounts that were rounded to hundredths are taken exactly.
    - A function that returns [""], [None] or [nan] for "no value" returns
      [None] here.
    - What the code takes from a library ([float], [str] of a float,
      [difflib.get_close_matches], [pd.to_datetime]) is a variable of the
      section that uses it. *)

From Stdlib Require Import String Ascii List ZArith QArith Qabs Lia Bool Arith.
Import ListNotations.

Local Open Scope Z_scope.

(* ================================================================== *)
(** * Text *)
(* ================================================================== *)

Module Text.

Definition text := list ascii.

(** A string literal as text. *)
Definition T (s : string) : text := list_ascii_of_string s.

Definition code (c : ascii) : N := N_of_ascii c.

Definition in_range (lo hi : N) (c : ascii) : bool :=
  (N.leb lo (code c)) && (N.leb (code c) hi).

Definition is_digit (c : ascii) : bool := in_range 48 57 c.
Definition is_upper (c : ascii) : bool := in_range 65 90 c.
Definition is_lower (c : ascii) : bool := in_range 97 122 c.
Definition is_alpha (c : ascii) : bool := is_upper c || is_lower c.

(** [\w]: letters, digits and the underscore. *)
Definition is_word (c : ascii) : bool :=
  is_alpha c || is_digit c || Ascii.eqb c "_".

(** [\s] and the characters removed by [str.strip()]. *)
Definition is_space (c : ascii) : bool :=
  in_range 9 13 c || in_range 28 32 c.

Definition to_upper (c : ascii) : ascii :=
  if is_lower c then ascii_of_N (code c - 32) else c.

Definition to_lower (c : ascii) : ascii :=
  if is_upper c then ascii_of_N (code c + 32) else c.

Definition upper (s : text) : text := map to_upper s.
Definition lower (s : text) : text := map to_lower s.

Fixpoint lstrip (s : text) : text :=
  match s with
  | c :: r => if is_space c then lstrip r else s
  | [] => []
  end.

Definition rstrip (s : text) : text := rev (lstrip (rev s)).

Definition strip (s : text) : text := rstrip (lstrip s).

Fixpoint text_eqb (a b : text) : bool :=
  match a, b with
  | [], [] => true
  | x :: a', y :: b' => Ascii.eqb x y && text_eqb a' b'
  | _, _ => false
  end.

Fixpoint starts_with (p s : text) : bool :=
  match p, s with
  | [], _ => true
  | x :: p', y :: s' => Ascii.eqb x y && starts_with p' s'
  | _ :: _, [] => false
  end.

(** [p in s] *)
Fixpoint contains (p s : text) : bool :=
  starts_with p s ||
  match s with
  | [] => false
  | _ :: r => contains p r
  end.

Definition mem_char (c : ascii) (s : text) : bool := existsb (Ascii.eqb c) s.

Definition mem_text (s : text) (l : list text) : bool := existsb (text_eqb s) l.

(** [s.replace(c, '')] for a one-character [c]. *)
Definition remove_char (c : ascii) (s : text) : text :=
  filter (fun x => negb (Ascii.eqb x c)) s.

(** [s.replace(p, by)], non-overlapping occurrences from the left; [p] is
    not empty where the code calls it. *)
Fixpoint replace_from (fuel : nat) (p by_ s : text) : text :=
  match fuel with
  | O => s
  | S fuel' =>
      match s with
      | [] => []
      | c :: r =>
          if starts_with p s
          then by_ ++ replace_from fuel' p by_ (skipn (length p) s)
          else c :: replace_from fuel' p by_ r
      end
  end.

Definition replace (p by_ s : text) : text :=
  replace_from (S (length s)) p by_ s.

(** [s.split(sep)] for a one-character separator. *)
Fixpoint split_on (sep : ascii) (s : text) : list text :=
  match s with
  | [] => [[]]
  | c :: r =>
      if Ascii.eqb c sep then [] :: split_on sep r
      else match split_on sep r with
           | [] => [[c]]
           | p :: ps => (c :: p) :: ps
           end
  end.

(** [''.join(parts)] *)
Definition join (parts : list text) : text := concat parts.

(** [sep.join(parts)] for a one-character separator. *)
Fixpoint join_with (sep : ascii) (parts : list text) : text :=
  match parts with
  | [] => []
  | [p] => p
  | p :: r => p ++ sep :: join_with sep r
  end.

(** The longest prefix of characters satisfying [p], and the rest. *)
Fixpoint span (p : ascii -> bool) (s : text) : text * text :=
  match s with
  | c :: r => if p c then let (a, b) := span p r in (c :: a, b) else ([], s)
  | [] => ([], [])
  end.

Definition all_digits (s : text) : bool := forallb is_digit s.

Definition digit_value (c : ascii) : Z := Z.of_N (code c - 48).

(** The number written by a run of decimal digits. *)
Definition digits_value (s : text) : Z :=
  fold_left (fun acc c => 10 * acc + digit_value c) s 0.

End Text.

Import Text.

(* ================================================================== *)
(** * Numbers *)
(* ================================================================== *)

Module Num.

(** The integer nearest to [q], ties to the even one. *)
Definition round_half_even (q : Q) : Z :=
  let n := Qnum q in
  let d := Zpos (Qden q) in
  let f := n / d in
  let r := n mod d in
  match 2 * r ?= d with
  | Lt => f
  | Gt => f + 1
  | Eq => if Z.even f then f else f + 1
  end.

(** [round(x, 2)], as a count of hundredths. *)
Definition cents_of (q : Q) : Z := round_half_even (q * 100)%Q.

(** The amount of [c] hundredths. *)
Definition of_cents (c : Z) : Q := c # 100.

(** [round(x, 2)] *)
Definition round2 (q : Q) : Q := of_cents (cents_of q).

(** [float(s)] on the texts the amount parsers build: an optional leading
    minus, digits, at most one dot, at least one digit.  [float] raises
    [ValueError] on every other text made of these characters. *)
Definition float_of_text (s : text) : option Q :=
  let neg := starts_with (T "-") s in
  let body := if neg then skipn 1 s else s in
  let sign (q : Q) := if neg then Qopp q else q in
  match split_on "." body with
  | [i] =>
      if all_digits i && negb (Nat.eqb (length i) 0)
      then Some (sign (digits_value i # 1))
      else None
  | [i; f] =>
      if all_digits i && all_digits f && negb (Nat.eqb (length (i ++ f)) 0)
      then Some (sign (digits_value (i ++ f) # Z.to_pos (10 ^ Z.of_nat (length f))))
      else None
  | _ => None
  end.

End Num.

Import Num.

(* ================================================================== *)
(** * Amount parsers ([csv_cleaning.py]) *)
(* ================================================================== *)

Module Amounts.

(** [[\d.]] *)
Definition is_num_char (c : ascii) : bool := is_digit c || Ascii.eqb c ".".

Definition is_crdr (a b : ascii) : bool :=
  (Ascii.eqb (to_lower a) "c" || Ascii.eqb (to_lower a) "d")
  && Ascii.eqb (to_lower b) "r".

(** [re.sub(r'(cr|dr)', '', text, flags=re.I)] *)
Fixpoint remove_crdr (s : text) : text :=
  match s with
  | a :: ((b :: r) as t) =>
      if is_crdr a b then remove_crdr r else a :: remove_crdr t
  | _ => s
  end.

Definition next_is_word (s : text) : bool :=
  match s with
  | c :: _ => is_word c
  | [] => false
  end.

(** [re.sub(r'\b(cr|dr)\b', '', text, flags=re.IGNORECASE)]; [prev_word]
    tells whether the character before [s] is a word character. *)
Fixpoint remove_crdr_words (prev_word : bool) (s : text) : text :=
  match s with
  | a :: ((b :: r) as t) =>
      if negb prev_word && is_crdr a b && negb (next_is_word r)
      then remove_crdr_words true r
      else a :: remove_crdr_words (is_word a) t
  | _ => s
  end.

(** [re.findall(r'[\d.]+', text)[0]] *)
Fixpoint first_run (s : text) : option text :=
  match s with
  | [] => None
  | c :: r => if is_num_char c then Some (fst (span is_num_char s)) else first_run r
  end.

(** [re.findall(r'-?[\d.]+', text)[0]] *)
Fixpoint first_signed_run (s : text) : option text :=
  match s with
  | [] => None
  | c :: r =>
      if is_num_char c then Some (fst (span is_num_char s))
      else if Ascii.eqb c "-" && match r with d :: _ => is_num_char d | [] => false end
           then Some (c :: fst (span is_num_char r))
           else first_signed_run r
  end.

(** The dot handling shared by [extract_amount] and [parse_balance]:
    [parts = raw.split('.')], then the three cases on [len(parts)]. *)
Definition regroup_dots (raw : text) : text :=
  let parts := split_on "." raw in
  if Nat.ltb 2 (length parts) then
    if Nat.eqb (length (last parts [])) 3
    then join parts
    else join (removelast parts) ++ "."%char :: last parts []
  else
    match parts with
    | [p0; p1] =>
        if Nat.ltb 2 (length p1) then
          let digits := p0 ++ p1 in
          firstn (length digits - 2) digits
            ++ "."%char :: skipn (length digits - 2) digits
        else raw
    | _ => raw
    end.

(** [extract_amount(value)] for a text [value]. *)
Definition extract_amount (value : text) : option Q :=
  let text := strip (lower value) in
  let is_negative := mem_char "-" text in
  let text := remove_crdr text in
  let text := remove_char " " (remove_char "," text) in
  match first_run text with
  | None => None
  | Some raw =>
      match float_of_text (regroup_dots raw) with
      | Some amount => Some (if is_negative then Qopp amount else amount)
      | None => None
      end
  end.

(** The text [parse_balance] hands to [float]. *)
Definition balance_raw (value : text) : option text :=
  let text := upper (strip value) in
  if mem_text text [T ""; T "NAN"; T "NONE"] then None
  else
    let text := remove_crdr text in
    let text := remove_char " " (remove_char "," text) in
    option_map regroup_dots (first_signed_run text).

(** [amount = float(raw)] in [parse_balance]. *)
Definition balance_amount (value : text) : option Q :=
  match balance_raw value with
  | Some raw => float_of_text raw
  | None => None
  end.

(** [is_dr = "DR" in text] *)
Definition is_dr (value : text) : bool := contains (T "DR") (upper (strip value)).

Definition Qnegb (q : Q) : bool := Qnum q <? 0.

(** [parse_balance(value)] for a text [value]. *)
Definition parse_balance (value : text) : option Q :=
  match balance_amount value with
  | Some amount =>
      if Qnegb amount then Some amount
      else if is_dr value then Some (Qopp amount)
      else Some amount
  | None => None
  end.

(** [is_negative] of [extract_amount_new]. *)
Definition negative_marker (value : text) : bool :=
  let text := strip value in
  starts_with (T "-") text || mem_char "(" text.



Definition is_sign_char (c : ascii) : bool :=
  Ascii.eqb c "-" || Ascii.eqb c "(" || Ascii.eqb c ")".

(** [numeric_part.rfind('.')] and the slice after it. *)
Definition after_last_dot (numeric_part : text) : text :=
  last (split_on "." numeric_part) [].

(** [extract_amount_new(value)] for a text [value]. *)
Definition extract_amount_new (value : text) : option Q :=
  let text := strip value in
  if Nat.eqb (length text) 0 then None
  else
    let is_negative := negative_marker value in
    let text := if is_negative then filter (fun c => negb (is_sign_char c)) text else text in
    let numeric_part := filter is_num_char text in
    let clean_text := remove_crdr_words false text in
    let clean_text :=
      map (fun c => if Ascii.eqb c ":" || Ascii.eqb c ";" then "."%char else c) clean_text in
    let clean_text := remove_char " " (remove_char "," clean_text) in
    let clean_text := filter is_num_char clean_text in
    let signed (result : Q) := if is_negative then Qopp result else result in
    if Nat.eqb (length clean_text) 0 then None
    else if mem_char "." numeric_part then
      let digits_after_last_dot := length (filter is_digit (after_last_dot numeric_part)) in
      let digits_only := remove_char "." clean_text in
      if Nat.eqb (length digits_only) 0 then None
      else
        match float_of_text digits_only with
        | Some f =>
            let result :=
              if Nat.eqb digits_after_last_dot 1 then (f / 10)%Q
              else if Nat.leb 2 digits_after_last_dot then (f / 100)%Q
              else f in
            Some (signed (round2 result))
        | None => None
        end
    else
      match float_of_text clean_text with
      | Some f => Some (signed (round2 f))
      | None => None
      end.

End Amounts.

Import Amounts.

(* ================================================================== *)
(** * The running-balance verifier ([csv_cleaning.py]) *)
(* ================================================================== *)

Module Ledger.

(** A cell of a data frame: a float, a missing value ([NaN], [None],
    [pd.NA]) or a text. *)
Inductive cell : Type :=
| CNum (q : Q)
| CMissing
| CText (s : text).

(** A data frame, column by column; every column has [len(df)] cells. *)
Definition frame := list (text * list cell).

Definition column_names (df : frame) : list text := map fst df.

Definition has_col (df : frame) (name : text) : bool :=
  mem_text name (column_names df).

Fixpoint get_col (df : frame) (name : text) : list cell :=
  match df with
  | [] => []
  | (n, v) :: r => if text_eqb name n then v else get_col r name
  end.

(** [df[name] = v]: the column is replaced, or added as the last one. *)
Fixpoint set_col (df : frame) (name : text) (v : list cell) : frame :=
  match df with
  | [] => [(name, v)]
  | (n, w) :: r =>
      if text_eqb name n then (n, v) :: r else (n, w) :: set_col r name v
  end.

(** [len(df)] *)
Definition nrows (df : frame) : nat :=
  match df with
  | [] => O
  | (_, v) :: _ => length v
  end.

(** Every column has [len(df)] cells. *)
Definition well_formed (df : frame) : Prop :=
  Forall (fun col => length (snd col) = nrows df) df.

(** [df.iloc[idx]]: the cells of row [idx], column by column. *)
Definition row_at (df : frame) (idx : nat) : list cell :=
  map (fun col => nth idx (snd col) CMissing) df.

(** The first column whose lower-cased name contains [key]. *)
Definition find_col_containing (key : text) (df : frame) : option text :=
  find (fun n => contains key (lower n)) (column_names df).

Definition num_cell (c : Z) : cell := CNum (of_cents c).

Section Verify.

(** [float(s)] of Python for a text cell; [None] when it raises. *)
Variable py_float : text -> option Q.

(** [round_to_2(val)], as a count of hundredths. *)
Definition round_to_2 (val : cell) : Z :=
  match val with
  | CMissing => 0
  | CNum q => cents_of q
  | CText s =>
      if mem_text (lower (strip s)) [T ""; T "nan"; T "none"] then 0
      else match py_float s with
           | Some q => cents_of q
           | None => 0
           end
  end.

(** [round_to_2(df.iloc[i][col])] *)
Definition cents_at (col : list cell) (i : nat) : Z :=
  round_to_2 (nth i col CMissing).

(** The first loop: [Difference[i]] for [i] in [range(1, len(df))]; row 0
    keeps the initial [0.0]. *)
Definition difference_at (debit credit balance : list cell) (i : nat) : Z :=
  cents_at balance (i - 1) + cents_at credit i + cents_at debit i
  - cents_at balance i.

Definition differences (n : nat) (debit credit balance : list cell) : list Z :=
  match n with
  | O => []
  | S m => 0 :: map (difference_at debit credit balance) (seq 1 m)
  end.

(** [((differences > -1.0) & (differences < 1.0)).all()] *)
Definition all_differences_in_range (ds : list Z) : bool :=
  forallb (fun d => (-100 <? d) && (d <? 100)) ds.

(** The list [adjusted_balances] after the loop over [range(1, len(df))]. *)
Definition adjusted_balances (n : nat) (debit credit balance : list cell) : list Z :=
  fold_left
    (fun adj i => adj ++ [last adj 0 + cents_at credit i + cents_at debit i])
    (seq 1 (n - 1))
    [cents_at balance 0].

(** [df_diff[abs(Difference) > 0.001]] is empty. *)
Definition no_difference (ds : list Z) : bool :=
  forallb (fun d => Z.eqb d 0) ds.

Definition debit_name (df : frame) : option text :=
  let c := if has_col df (T "Debits_Corrected") then T "Debits_Corrected" else T "Debits" in
  if has_col df c then Some c else find_col_containing (T "debit") df.

Definition credit_name (df : frame) : option text :=
  let c := if has_col df (T "Credits_Corrected") then T "Credits_Corrected" else T "Credits" in
  if has_col df c then Some c else find_col_containing (T "credit") df.

Definition round_col (df : frame) (name : text) : frame :=
  set_col df name (map (fun c => num_cell (round_to_2 c)) (get_col df name)).

(** What [calculate_difference_and_verify] returns. *)
Record verdict : Type := {
  df_diff : frame;
  all_correct : bool;
  adjusted : bool
}.

(** The part of [calculate_difference_and_verify] after the columns are
    found and rounded: the first differences, the decision, the adjusted
    balances and the differences computed again. *)
Definition verify_columns (df : frame) (n : nat) (debit credit : list cell) : verdict :=
  let balance := get_col df (T "Balance_Adjusted") in
  let ds := differences n debit credit balance in
  let df := set_col df (T "Difference") (map num_cell ds) in
  if all_differences_in_range ds && Nat.ltb 1 n then
    let adj := adjusted_balances n debit credit balance in
    let df := set_col df (T "Balance_Adjusted") (map num_cell adj) in
    let balance := get_col df (T "Balance_Adjusted") in
    let ds := differences n debit credit balance in
    let df := set_col df (T "Difference") (map num_cell ds) in
    {| df_diff := df; all_correct := no_difference ds; adjusted := true |}
  else
    {| df_diff := df; all_correct := no_difference ds; adjusted := false |}.

(** [calculate_difference_and_verify(df)]; [None] is the [KeyError] of a
    frame with neither a [Balance_Corrected] nor a [Balance] column. *)
Definition calculate_difference_and_verify (df : frame) : option verdict :=
  let n := nrows df in
  let df := set_col df (T "Difference") (repeat (CNum 0) n) in
  let source :=
    if has_col df (T "Balance_Corrected") then Some (T "Balance_Corrected")
    else if has_col df (T "Balance") then Some (T "Balance")
    else None in
  match source with
  | None => None
  | Some b =>
      let df := set_col df (T "Balance_Adjusted") (get_col df b) in
      match debit_name df, credit_name df with
      | Some debit_col, Some credit_col =>
          let df := round_col df debit_col in
          let df := round_col df credit_col in
          let df := round_col df (T "Balance_Adjusted") in
          Some (verify_columns df n (get_col df debit_col) (get_col df credit_col))
      | _, _ =>
          Some {| df_diff := df; all_correct := false; adjusted := false |}
      end
  end.

End Verify.

(** The cells of a column of floats. *)
Definition floats (l : list Q) : list cell := map CNum l.

(** The frame [clean_main] hands to the verifier: the six required
    columns, as [step_ensure_required_columns] selects them. *)
Definition cleaned_frame (dates cheques narration debits credits balance : list cell) : frame :=
  [ (T "XN Date", dates); (T "Cheque No", cheques); (T "Narration", narration);
    (T "Debits", debits); (T "Credits", credits); (T "Balance", balance) ].




End Ledger.

Import Ledger.

(* ================================================================== *)
(** * The step runner ([csv_cleaning.py]) *)
(* ================================================================== *)

Module Steps.

(** How a call ends: with a returned frame, or with an exception. *)
Inductive outcome : Type :=
| Returned (result : frame)
| Raised.

(** A step receives the frame object [df].  It may assign to it in place;
    it then returns a frame or raises.  The first component is the state
    in which the call leaves the object it was given. *)
Definition step := frame -> frame * outcome.



Section EnsureRequired.

Variable py_float : text -> option Q.





(** The rest of [step_ensure_required_columns], after the assignments to
    [Debits] and [Credits]: the balance column, the metadata rows and the
    selection of the required columns. *)
Variable ensure_rest : step.


End EnsureRequired.

End Steps.

Import Steps.

(* ================================================================== *)
(** * Regular expressions of the date parser *)
(* ================================================================== *)

Module Regex.

(** One item of a pattern: a character class repeated between [lo] and
    [hi] times ([None]: no upper bound), greedy, in a group or not. *)
Record atom : Type := {
  cls : ascii -> bool;
  lo : nat;
  hi : option nat;
  cap : bool
}.

(** The number of leading characters of [s] in the class, at most [hi]. *)
Fixpoint prefix_count (p : ascii -> bool) (hi : option nat) (s : text) : nat :=
  match s with
  | [] => O
  | c :: r =>
      match hi with
      | Some O => O
      | Some (S h) => if p c then S (prefix_count p (Some h) r) else O
      | None => if p c then S (prefix_count p None r) else O
      end
  end.

(** The repetitions a backtracking matcher tries for one item, from
    [lo + d] characters down to [lo]: the first for which the rest of the
    pattern, [rest], matches what follows. *)
Fixpoint try_counts (rest : text -> option (list text)) (keep : bool) (s : text)
    (lo d : nat) : option (list text) :=
  let j := (lo + d)%nat in
  match rest (skipn j s) with
  | Some caps => Some (if keep then firstn j s :: caps else caps)
  | None =>
      match d with
      | O => None
      | S d' => try_counts rest keep s lo d'
      end
  end.

(** [re.match] of a sequence of atoms at the start of [s], with [$] at the
    end of the pattern when [anchored]: the groups of the first match in
    the order a backtracking matcher finds them, longest repetition
    first. *)
Fixpoint match_atoms (atoms : list atom) (anchored : bool) (s : text) : option (list text) :=
  match atoms with
  | [] =>
      if anchored && negb (Nat.eqb (length s) 0) then None else Some []
  | a :: rest =>
      let k := prefix_count (cls a) (hi a) s in
      if Nat.ltb k (lo a) then None
      else try_counts (match_atoms rest anchored) (cap a) s (lo a) (k - lo a)
  end.

Definition group (p : ascii -> bool) (lo hi : nat) : atom :=
  {| cls := p; lo := lo; hi := Some hi; cap := true |}.

Definition group_plus (p : ascii -> bool) : atom :=
  {| cls := p; lo := 1; hi := None; cap := true |}.

Definition plus (p : ascii -> bool) : atom :=
  {| cls := p; lo := 1; hi := None; cap := false |}.

Definition star (p : ascii -> bool) : atom :=
  {| cls := p; lo := 0; hi := None; cap := false |}.

Definition one (p : ascii -> bool) : atom :=
  {| cls := p; lo := 1; hi := Some 1%nat; cap := false |}.

(** [[-/\.]] *)
Definition is_sep (c : ascii) : bool :=
  Ascii.eqb c "-" || Ascii.eqb c "/" || Ascii.eqb c ".".

(** [[-/\s\.]] *)
Definition is_sep_space (c : ascii) : bool := is_sep c || is_space c.

(** [^\s*(\d+)\s+(\d{1,2})[-/\.](\d{1,2})[-/\.](\d{2,4})\s*$] *)
Definition mixed_pattern1 : list atom :=
  [star is_space; group_plus is_digit; plus is_space; group is_digit 1 2;
   one is_sep; group is_digit 1 2; one is_sep; group is_digit 2 4; star is_space].

(** [^\s*(\d+)\s+(\d{1,2})[-/\.\s]+([A-Za-z]{3,9})[-/\.\s]+(\d{2,4})\s*$] *)
Definition mixed_pattern2 : list atom :=
  [star is_space; group_plus is_digit; plus is_space; group is_digit 1 2;
   plus is_sep_space; group is_alpha 3 9; plus is_sep_space; group is_digit 2 4;
   star is_space].

(** [(\d{1,2})[-/\s\.]+([A-Z]{3,9})[-/\s\.]+(\d{2,4})], ignoring case *)
Definition day_month_name_year : list atom :=
  [group is_digit 1 2; plus is_sep_space; group is_alpha 3 9; plus is_sep_space;
   group is_digit 2 4].

(** [([A-Z]{3,9})[-/\s\.]+(\d{1,2})[-/\s\.]+(\d{2,4})], ignoring case *)
Definition month_name_day_year : list atom :=
  [group is_alpha 3 9; plus is_sep_space; group is_digit 1 2; plus is_sep_space;
   group is_digit 2 4].

(** [(\d{4})[-/\s\.]+(\d{1,2})[-/\s\.]+(\d{1,2})] *)
Definition year_month_day : list atom :=
  [group is_digit 4 4; plus is_sep_space; group is_digit 1 2; plus is_sep_space;
   group is_digit 1 2].

(** [(\d{1,2})[-/\s\.]+(\d{1,2})[-/\s\.]+(\d{4})] *)
Definition day_month_year : list atom :=
  [group is_digit 1 2; plus is_sep_space; group is_digit 1 2; plus is_sep_space;
   group is_digit 4 4].

(** [(\d{4})(\d{2})(\d{2})] *)
Definition compact_ymd : list atom :=
  [group is_digit 4 4; group is_digit 2 2; group is_digit 2 2].

(** [(\d{1,2})([A-Z]{3,9})(\d{2,4})], ignoring case *)
Definition compact_day_name_year : list atom :=
  [group is_digit 1 2; group is_alpha 3 9; group is_digit 2 4].

(** [([A-Z]{3,9})(\d{1,2})(\d{2,4})], ignoring case *)
Definition compact_name_day_year : list atom :=
  [group is_alpha 3 9; group is_digit 1 2; group is_digit 2 4].

(** [^\d{4}$] *)
Definition year_only : list atom :=
  [{| cls := is_digit; lo := 4; hi := Some 4%nat; cap := false |}].

(** [00($|\D)] at the start of [s]. *)
Definition zero_pair_here (s : text) : bool :=
  match s with
  | a :: b :: r =>
      Ascii.eqb a "0" && Ascii.eqb b "0"
      && match r with
         | [] => true
         | c :: _ => negb (is_digit c)
         end
  | _ => false
  end.

(** [re.search(r'(^|\D)00($|\D)', s)]; [boundary] tells whether [s] starts
    the text or follows a character that is not a digit. *)
Fixpoint has_zero_pair_from (boundary : bool) (s : text) : bool :=
  (boundary && zero_pair_here s) ||
  match s with
  | [] => false
  | c :: r => has_zero_pair_from (negb (is_digit c)) r
  end.

Definition has_zero_pair (s : text) : bool := has_zero_pair_from true s.

End Regex.

Import Regex.

(* ================================================================== *)
(** * The date-token parser ([date_cleaning.py]) *)
(* ================================================================== *)

Module Dates.

(** ** Month names *)

Definition custom_month_map : list (string * string) :=
  [("JAN", "01"); ("AN", "01"); ("JA", "01"); ("JANUARY", "01");
   ("FEB", "02"); ("FE", "02"); ("FB", "02"); ("FEBRUARY", "02");
   ("MAR", "03"); ("MR", "03"); ("RCH", "03"); ("MARCH", "03");
   ("APR", "04"); ("AP", "04"); ("APRIL", "04");
   ("MAY", "05"); ("MY", "05");
   ("JUN", "06"); ("JN", "06"); ("UN", "06"); ("JUNE", "06");
   ("JUL", "07"); ("JL", "07"); ("UL", "07"); ("JULY", "07"); ("JU", "07");
   ("AUG", "08"); ("AU", "08"); ("A0G", "08"); ("AUGUST", "08");
   ("SEP", "09"); ("SE", "09"); ("SEPT", "09"); ("SEPTEMBER", "09");
   ("OCT", "10"); ("OC", "10"); ("0CT", "10"); ("0ct", "10"); ("OCTOBER", "10");
   ("NOV", "11"); ("NO", "11"); ("NOVEMBER", "11");
   ("DEC", "12"); ("DE", "12"); ("DECEMBER", "12")]%string.

Definition full_month_names : list (string * string) :=
  [("january", "01"); ("jan", "01");
   ("february", "02"); ("feb", "02");
   ("march", "03"); ("mar", "03");
   ("april", "04"); ("apr", "04");
   ("may", "05");
   ("june", "06"); ("jun", "06");
   ("july", "07"); ("jul", "07");
   ("august", "08"); ("aug", "08");
   ("september", "09"); ("sep", "09"); ("sept", "09");
   ("october", "10"); ("oct", "10");
   ("november", "11"); ("nov", "11");
   ("december", "12"); ("dec", "12")]%string.

(** A dictionary in insertion order. *)
Definition dict := list (text * text).

Fixpoint dict_get (d : dict) (k : text) : option text :=
  match d with
  | [] => None
  | (k', v) :: r => if text_eqb k k' then Some v else dict_get r k
  end.

(** [d[k] = v]: an existing key keeps its place. *)
Fixpoint dict_set (d : dict) (k v : text) : dict :=
  match d with
  | [] => [(k, v)]
  | (k', v') :: r => if text_eqb k k' then (k', v) :: r else (k', v') :: dict_set r k v
  end.

(** [str.capitalize] *)
Definition capitalize (s : text) : text :=
  match s with
  | [] => []
  | c :: r => to_upper c :: lower r
  end.

(** The loop that fills [extended_month_map] from
    [{**custom_month_map, **full_month_names}]. *)
Definition extended_month_map : dict :=
  let merged :=
    fold_left (fun d kv => dict_set d (T (fst kv)) (T (snd kv)))
      (custom_month_map ++ full_month_names) [] in
  fold_left
    (fun d kv =>
       let d := dict_set d (upper (fst kv)) (snd kv) in
       let d := dict_set d (lower (fst kv)) (snd kv) in
       dict_set d (capitalize (fst kv)) (snd kv))
    merged [].

(** [a or_else b]: the result of [a], or of [b] when [a] has none; [b] is
    not evaluated otherwise. *)
Notation "a 'or_else' b" :=
  (match a with Some r => Some r | None => b end)
  (at level 70, right associativity, only parsing).

Section Parser.

(** [difflib.get_close_matches(token, keys, n=1, cutoff=0.6)]: the best
    match, if any. *)
Variable get_close_matches : text -> list text -> option text.

(** [pd.to_datetime(text, dayfirst=..., errors='coerce')]: the day, month
    and year of the time stamp, [None] for [NaT]. *)
Variable to_datetime : bool -> text -> option (Z * Z * Z).

(** [normalize_month(token)] *)
Definition normalize_month (token : text) : option text :=
  if Nat.eqb (length token) 0 then None
  else
    let token := strip (upper token) in
    match dict_get extended_month_map token with
    | Some v => Some v
    | None =>
        let clean_token := filter is_upper token in
        match (if Nat.eqb (length clean_token) 0 then None
               else dict_get extended_month_map clean_token) with
        | Some v => Some v
        | None =>
            let by_prefix (n : nat) :=
              if Nat.leb n (length token)
              then dict_get extended_month_map (firstn n token) else None in
            match by_prefix 4%nat with
            | Some v => Some v
            | None =>
                match by_prefix 3%nat with
                | Some v => Some v
                | None =>
                    match get_close_matches token (map fst extended_month_map) with
                    | Some m => dict_get extended_month_map m
                    | None =>
                        option_map snd
                          (find (fun kv => contains (fst kv) token || contains token (fst kv))
                             extended_month_map)
                    end
                end
            end
        end
    end.

(** ** Formatting *)

Definition digit_char (n : Z) : ascii := ascii_of_N (48 + Z.to_N (n mod 10)).

(** The decimal digits of [n], at least [width] of them. *)
Fixpoint digits_of (width : nat) (n : Z) (fuel : nat) : text :=
  match fuel with
  | O => []
  | S fuel' =>
      if (n <? 10) && Nat.leb width 1 then [digit_char n]
      else digits_of (width - 1) (n / 10) fuel' ++ [digit_char n]
  end.

(** [f"{n:02d}"] and [f"{n:04d}"] for [n >= 0]. *)
Definition pad (width : nat) (n : Z) : text :=
  digits_of width n (S (width + Z.to_nat (Z.log2 n))).

(** [year = '20' + year if int(year) <= 30 else '19' + year] for a year of
    two digits. *)
Definition expand_year (year : text) : text :=
  if Nat.eqb (length year) 2 then
    if digits_value year <=? 30 then T "20" ++ year else T "19" ++ year
  else year.

Definition slash : text := T "/".

(** [f"{int(day):02d}/{int(month):02d}/{year}"] *)
Definition format_numeric (day month year : text) : text :=
  pad 2 (digits_value day) ++ slash ++ pad 2 (digits_value month) ++ slash ++ year.

(** [f"{int(day):02d}/{month_num}/{year}"] *)
Definition format_named (day month_num year : text) : text :=
  pad 2 (digits_value day) ++ slash ++ month_num ++ slash ++ year.

(** [parsed.strftime('%d/%m/%Y')] *)
Definition strftime (d : Z * Z * Z) : text :=
  let '(day, month, year) := d in
  pad 2 day ++ slash ++ pad 2 month ++ slash ++ pad 4 year.

(** ** Cleaning *)

(** Is there a [)] before the end of the line? *)
Fixpoint closes (s : text) : bool :=
  match s with
  | [] => false
  | c :: r =>
      if Ascii.eqb c ")" then true
      else if Ascii.eqb c (ascii_of_N 10) then false
      else closes r
  end.

(** [re.sub(r'\(.*?\)', '', s)]; [inside] while a match is being skipped. *)
Fixpoint remove_parenthesised (inside : bool) (s : text) : text :=
  match s with
  | [] => []
  | c :: r =>
      if inside then remove_parenthesised (negb (Ascii.eqb c ")")) r
      else if Ascii.eqb c "(" && closes r then remove_parenthesised true r
      else c :: remove_parenthesised false r
  end.

(** [re.sub(r'\s+', ' ', s)] *)
Fixpoint collapse_spaces (after_space : bool) (s : text) : text :=
  match s with
  | [] => []
  | c :: r =>
      if is_space c
      then (if after_space then collapse_spaces true r else " "%char :: collapse_spaces true r)
      else c :: collapse_spaces false r
  end.

Definition month_corrections : list (string * string) :=
  [("JULY", "JUL"); ("JANUARY", "JAN"); ("FEBRUARY", "FEB");
   ("MARCH", "MAR"); ("APRIL", "APR"); ("JUNE", "JUN");
   ("AUGUST", "AUG"); ("SEPTEMBER", "SEP"); ("SEPT", "SEP");
   ("OCTOBER", "OCT"); ("NOVEMBER", "NOV"); ("DECEMBER", "DEC")]%string.

Definition is_bracket (c : ascii) : bool :=
  Ascii.eqb c "[" || Ascii.eqb c "]" || Ascii.eqb c "{" || Ascii.eqb c "}".

Definition is_quote (c : ascii) : bool :=
  Ascii.eqb c "`" || Ascii.eqb c "'".

(** [x_upper] of [parse_custom_date]. *)
Definition clean_date_text (original_x : text) : text :=
  let x := upper original_x in
  let x := remove_parenthesised false x in
  let x := collapse_spaces false x in
  let x := replace (T "A0G") (T "AUG") (replace (T "0CT") (T "OCT") x) in
  let x := filter (fun c => negb (is_quote c)) x in
  let x := filter (fun c => negb (is_bracket c)) x in
  let x := fold_left (fun x wc => replace (T (fst wc)) (T (snd wc)) x) month_corrections x in
  strip x.

(** ** Shapes of the results *)

(** Two-digit day, two-digit month and a year of digits whose number
    satisfies [year_len], with slashes between. *)
Definition dmy_shape (year_len : nat -> bool) (s : text) : bool :=
  match s with
  | d1 :: d2 :: s1 :: m1 :: m2 :: s2 :: year =>
      is_digit d1 && is_digit d2 && Ascii.eqb s1 "/"
      && is_digit m1 && is_digit m2 && Ascii.eqb s2 "/"
      && all_digits year && year_len (length year)
  | _ => false
  end.


(** ["DD/MM/YYYY"], or ["DD/MM/YYY"]. *)
Definition date_shape (s : text) : bool :=
  dmy_shape (fun n => Nat.eqb n 4 || Nat.eqb n 3) s.

(** A bare year: four digits. *)
Definition year_shape (s : text) : bool := all_digits s && Nat.eqb (length s) 4.

(** ** The parser *)

(** The last resort of [parse_custom_date]: [pd.to_datetime], day first
    and then month first. *)
Definition parse_fallback (original_x : text) : option text :=
  let checked (d : Z * Z * Z) :=
    let date_str := strftime d in
    if starts_with (T "00/") date_str then None else Some date_str in
  match to_datetime true original_x with
  | Some d => checked d
  | None =>
      match to_datetime false original_x with
      | Some d => checked d
      | None => None
      end
  end.

(** The three groups of a match handed to [f]; no result without a
    match. *)
Definition groups3 (m : option (list text)) (f : text -> text -> text -> option text)
    : option text :=
  match m with
  | Some [a; b; c] => f a b c
  | _ => None
  end.

(** The same for the mixed patterns, whose first group is the prefix. *)
Definition groups4 (m : option (list text)) (f : text -> text -> text -> option text)
    : option text :=
  match m with
  | Some [_; a; b; c] => f a b c
  | _ => None
  end.

(** [if month_num: ... return f"{int(day):02d}/{month_num}/{year}"] *)
Definition named (day month_str year : text) : option text :=
  match normalize_month month_str with
  | Some month_num => Some (format_named day month_num (expand_year year))
  | None => None
  end.

(** The strategies after the two mixed patterns, each tried when the ones
    before it returned nothing. *)
Definition parse_cleaned (original_x : text) : option text :=
  let x_upper := clean_date_text original_x in
  let x_no_space := filter (fun c => negb (is_space c)) x_upper in
  groups3 (match_atoms day_month_name_year false x_upper)
    (fun day month_str year => named day month_str year)
  or_else groups3 (match_atoms month_name_day_year false x_upper)
    (fun month_str day year => named day month_str year)
  or_else groups3 (match_atoms year_month_day false x_upper)
    (fun year month day => Some (format_numeric day month year))
  or_else groups3 (match_atoms day_month_year false x_upper)
    (fun day month year => Some (format_numeric day month year))
  or_else groups3 (match_atoms compact_ymd false x_upper)
    (fun year month day => Some (format_numeric day month year))
  or_else groups3 (match_atoms compact_day_name_year false x_no_space)
    (fun day month_str year => named day month_str year)
  or_else groups3 (match_atoms compact_name_day_year false x_no_space)
    (fun month_str day year => named day month_str year)
  or_else (match match_atoms year_only true x_upper with
           | Some _ => Some x_upper
           | None => None
           end)
  or_else parse_fallback original_x.

(** [parse_custom_date(x)] for a text [x]. *)
Definition parse_custom_date (x : text) : option text :=
  let original_x := strip x in
  if Nat.eqb (length original_x) 0 then None
  else if has_zero_pair original_x then None
  else
    groups4 (match_atoms mixed_pattern1 true original_x)
      (fun day month year => Some (format_numeric day month (expand_year year)))
    or_else groups4 (match_atoms mixed_pattern2 true original_x)
      (fun day month_str year => named day (upper month_str) year)
    or_else parse_cleaned original_x.

End Parser.

End Dates.

Import Dates.

(* ================================================================== *)
(** * Calendar *)
(* ================================================================== *)

Module Calendar.

Definition is_int_char (c : ascii) : bool := is_digit c || Ascii.eqb c "_".

(** The digits of a Python integer literal: digits, single underscores
    between them. *)
Definition valid_int_body (s : text) : bool :=
  forallb is_int_char s
  && match s with c :: _ => is_digit c | [] => false end
  && match rev s with c :: _ => is_digit c | [] => false end
  && negb (contains (T "__") s).

(** [int(s)]; [None] when it raises. *)
Definition py_int (s : text) : option Z :=
  let s := strip s in
  let '(neg, body) :=
    match s with
    | c :: r =>
        if Ascii.eqb c "-" then (true, r)
        else if Ascii.eqb c "+" then (false, r)
        else (false, s)
    | [] => (false, s)
    end in
  if valid_int_body body
  then Some (let v := digits_value (remove_char "_" body) in if neg then - v else v)
  else None.

(** [day, month, year = map(int, s.split('/'))] *)
Definition split_ints (s : text) : option (Z * Z * Z) :=
  match split_on "/" s with
  | [a; b; c] =>
      match py_int a, py_int b, py_int c with
      | Some day, Some month, Some year => Some (day, month, year)
      | _, _, _ => None
      end
  | _ => None
  end.

Definition is_leap (year : Z) : bool :=
  ((year mod 4 =? 0) && negb (year mod 100 =? 0)) || (year mod 400 =? 0).

(** [is_valid_date(date_str)] *)
Definition is_valid_date (date_str : text) : bool :=
  if Nat.eqb (length (strip date_str)) 0 then false
  else if text_eqb (lower date_str) (T "nan") || text_eqb date_str (T "None") then false
  else
    match split_ints (strip date_str) with
    | Some (day, month, year) =>
        if (1 <=? day) && (day <=? 31) && (1 <=? month) && (month <=? 12)
           && (1900 <=? year) && (year <=? 2100)
        then
          if ((month =? 4) || (month =? 6) || (month =? 9) || (month =? 11)) && (30 <? day)
          then false
          else if month =? 2 then
            if is_leap year then negb (29 <? day) else negb (28 <? day)
          else true
        else false
    | None => false
    end.

(** The day number of a calendar date: what [datetime] values are compared
    and subtracted by. *)
Definition ordinal (day month year : Z) : Z :=
  let y := if month <=? 2 then year - 1 else year in
  let era := y / 400 in
  let yoe := y - era * 400 in
  let mp := (month + 9) mod 12 in
  let doy := (153 * mp + 2) / 5 + day - 1 in
  let doe := yoe * 365 + yoe / 4 - yoe / 100 + doy in
  era * 146097 + doe.

(** The calendar date of a day number: day, month, year. *)
Definition civil (z : Z) : Z * Z * Z :=
  let era := z / 146097 in
  let doe := z - era * 146097 in
  let yoe := (doe - doe / 1460 + doe / 36524 - doe / 146096) / 365 in
  let doy := doe - (365 * yoe + yoe / 4 - yoe / 100) in
  let mp := (5 * doy + 2) / 153 in
  let day := doy - (153 * mp + 2) / 5 + 1 in
  let month := if mp <? 10 then mp + 3 else mp - 9 in
  let year := yoe + era * 400 + (if month <=? 2 then 1 else 0) in
  (day, month, year).

(** [datetime(year, month, day)] after [map(int, s.split('/'))]. *)
Definition datetime_of (s : text) : option Z :=
  match split_ints s with
  | Some (day, month, year) => Some (ordinal day month year)
  | None => None
  end.

(** [dt.strftime('%d/%m/%Y')] *)
Definition format_dt (z : Z) : text :=
  strftime (civil z).

(** [f"{day:02d}/{month:02d}/{year}"] *)
Definition format_dmy (day month year : Z) : text :=
  pad 2 day ++ slash ++ pad 2 month ++ slash ++ pad 1 year.

(** The day numbers of 01/01/1900 and 31/12/2100, the first and the last
    date [is_valid_date] accepts. *)
Definition first_day : Z := ordinal 1 1 1900.
Definition last_day : Z := ordinal 31 12 2100.

(** The year of a day number. *)
Definition year_of (z : Z) : Z := snd (civil z).

End Calendar.

Import Calendar.

(* ================================================================== *)
(** * Chronology repair ([date_cleaning.py]) *)
(* ================================================================== *)

Module Chronology.

Inductive direction : Type := Ascending | Descending.

Definition is_ascending (o : direction) : bool :=
  match o with Ascending => true | Descending => false end.

Definition xn : text := T "XN Date".

(** [pd.notna(val) and str(val).strip() != ''] fails: a float always
    prints as a text that is not blank. *)
Definition cell_empty (c : cell) : bool :=
  match c with
  | CMissing => true
  | CText s => Nat.eqb (length (strip s)) 0
  | CNum _ => false
  end.

(** [is_empty_row(df.iloc[idx])] *)
Definition is_empty_row (df : frame) (idx : nat) : bool :=
  forallb (fun col => cell_empty (nth idx (snd col) CMissing)) df.

(** The column [value_date_col], if there is one. *)
Definition find_value_date_col (df : frame) : option text :=
  find (fun col => contains (T "value") (lower col) && contains (T "date") (lower col)
                   && negb (text_eqb col xn))
       (column_names df).

(** [df['XN Date'] = dates] *)
Definition with_dates (df : frame) (dates : list text) : frame :=
  set_col df xn (map CText dates).

(** [l[idx] = v] *)
Fixpoint assign {A : Type} (l : list A) (idx : nat) (v : A) : list A :=
  match l, idx with
  | [], _ => []
  | _ :: r, O => v :: r
  | x :: r, S i => x :: assign r i v
  end.

Definition date_at (dates : list text) (idx : nat) : text := nth idx dates [].

(** The nearest valid date above [idx]: the loop over
    [range(idx-1, -1, -1)]. *)
Fixpoint prev_valid (dates : list text) (idx : nat) : option text :=
  match idx with
  | O => None
  | S i => if is_valid_date (date_at dates i) then Some (date_at dates i)
           else prev_valid dates i
  end.

(** The first valid date of a list. *)
Definition first_valid (dates : list text) : option text := find is_valid_date dates.

(** The nearest valid date below [idx]: the loop over
    [range(idx+1, len(dates))]. *)
Definition next_valid (dates : list text) (idx : nat) : option text :=
  first_valid (skipn (S idx) dates).

(** [is_date_in_order(date_str, prev_date, next_date, date_order)] *)
Definition is_date_in_order (date_str : text) (prev_date next_date : option text)
    (date_order : direction) : bool :=
  if is_valid_date date_str then
    match datetime_of date_str with
    | None => false
    | Some curr_dt =>
        let against (bound : option text) (wrong : Z -> Z -> bool) :=
          match bound with
          | Some b =>
              if is_valid_date b then
                match datetime_of b with
                | Some dt => Some (negb (wrong curr_dt dt))
                | None => None
                end
              else Some true
          | None => Some true
          end in
        let before_prev := if is_ascending date_order then Z.ltb else Z.gtb in
        let after_next := if is_ascending date_order then Z.gtb else Z.ltb in
        match against prev_date before_prev with
        | Some true =>
            match against next_date after_next with
            | Some ok => ok
            | None => false
            end
        | _ => false
        end
    end
  else false.

(** [get_date_order(df, date_col)] on the values of the column: the valid
    dates, each text once. *)
Fixpoint unique_valid (seen : list text) (vals : list text) : list text :=
  match vals with
  | [] => []
  | v :: r =>
      if is_valid_date v && negb (mem_text v seen)
      then v :: unique_valid (v :: seen) r
      else unique_valid seen r
  end.

(** The votes of consecutive pairs: ascending, descending. *)
Fixpoint pair_votes (l : list Z) : nat * nat :=
  match l with
  | a :: ((b :: _) as r) =>
      let '(asc, desc) := pair_votes r in
      if a <=? b then (S asc, desc) else (asc, S desc)
  | _ => (O, O)
  end.

Definition order_of_datetimes (dts : list Z) : direction :=
  match dts with
  | first :: _ :: _ =>
      let '(asc, desc) := pair_votes dts in
      let '(asc, desc) :=
        if first <=? last dts first then (S asc, desc) else (asc, S desc) in
      if Nat.leb desc asc then Ascending else Descending
  | _ => Ascending
  end.

Definition get_date_order (vals : list text) : direction :=
  order_of_datetimes
    (flat_map (fun v => match datetime_of v with Some d => [d] | None => [] end)
       (unique_valid [] vals)).

Section Repair.

Variable get_close_matches : text -> list text -> option text.
Variable to_datetime : bool -> text -> option (Z * Z * Z).

(** [str(x)] for a float [x]. *)
Variable str_float : Q -> text.

Definition parse := parse_custom_date get_close_matches to_datetime.

(** [str(v).strip() if pd.notna(v) else ""] *)
Definition cell_text (c : cell) : text :=
  match c with
  | CMissing => []
  | CText s => strip s
  | CNum q => strip (str_float q)
  end.

(** The text of the value-date cell of row [idx]; empty without such a
    column. *)
Definition value_date_text (df : frame) (value_date_col : option text) (idx : nat) : text :=
  match value_date_col with
  | Some col => cell_text (nth idx (get_col df col) CMissing)
  | None => []
  end.

(** Step 1 of [date_correction]: the list [parsed_dates]. *)
Definition parsed_dates (df : frame) : list text :=
  map (fun idx =>
         if is_empty_row df idx then []
         else match parse (cell_text (nth idx (get_col df xn) CMissing)) with
              | Some parsed => parsed
              | None => []
              end)
      (seq 0 (nrows df)).

(** "If above and below dates are the same, use that date." *)
Definition same_neighbours (prev_date next_date : option text) : option text :=
  match prev_date, next_date with
  | Some p, Some q =>
      if is_valid_date p && is_valid_date q && text_eqb p q then Some p else None
  | _, _ => None
  end.

(** Strategy 2 of the repair loop: the candidate predicted from the
    neighbours of a valid date that is out of order. *)
Definition predict (date_order : direction) (current_date : text)
    (prev_date next_date : option text) : option text :=
  let dt (s : text) := match datetime_of s with Some z => z | None => 0 end in
  let current_dt := dt current_date in
  match date_order with
  | Ascending =>
      match prev_date, next_date with
      | Some p, Some q =>
          let prev_dt := dt p in
          let next_dt := dt q in
          let step := if negb (text_eqb p q) then format_dt (prev_dt + 1) else p in
          if prev_dt <? next_dt then
            if current_dt <? prev_dt then Some (format_dt (prev_dt + 1))
            else if current_dt >? next_dt then Some (format_dt (next_dt - 1))
            else if current_dt =? prev_dt then Some step
            else
              let total_days := next_dt - prev_dt in
              if (0 <? total_days) && (total_days <=? 100)
              then Some (format_dt (prev_dt + total_days / 2))
              else Some step
          else Some step
      | Some p, None => Some (format_dt (dt p + 1))
      | None, Some q => Some (format_dt (dt q - 1))
      | None, None => None
      end
  | Descending =>
      match next_date, prev_date with
      | Some q, Some p =>
          let prev_dt := dt p in
          let next_dt := dt q in
          if next_dt <? prev_dt then
            if current_dt >? prev_dt then Some (format_dt (prev_dt - 1))
            else if current_dt <? next_dt then Some (format_dt (next_dt + 1))
            else if current_dt =? prev_dt then
              Some (if negb (text_eqb p q) then format_dt (prev_dt - 1) else p)
            else
              let total_days := prev_dt - next_dt in
              if (0 <? total_days) && (total_days <=? 100)
              then Some (format_dt (next_dt + total_days / 2))
              else Some (if negb (text_eqb p q) then format_dt (next_dt + 1) else q)
          else Some (if negb (text_eqb p q) then format_dt (next_dt + 1) else q)
      | Some q, None => Some (format_dt (dt q + 1))
      | None, Some p => Some (format_dt (dt p - 1))
      | None, None => None
      end
  end.

(** Strategy 1: the value date of the row, when it parses to a valid date
    that is in order. *)
Definition value_date_candidate (df : frame) (value_date_col : option text)
    (date_order : direction) (idx : nat) (prev_date next_date : option text) : option text :=
  let value_date_str := value_date_text df value_date_col idx in
  if Nat.eqb (length value_date_str) 0 then None
  else
    match parse value_date_str with
    | Some parsed_value =>
        if is_valid_date parsed_value
           && is_date_in_order parsed_value prev_date next_date date_order
        then Some parsed_value else None
    | None => None
    end.

(** The body of the loop over the rows in one iteration of step 3; the
    state is [corrected_dates] and [made_correction]. *)
Definition repair_row (df : frame) (value_date_col : option text) (date_order : direction)
    (state : list text * bool) (idx : nat) : list text * bool :=
  let '(corrected_dates, made_correction) := state in
  if is_empty_row df idx then state
  else
    let current_date := date_at corrected_dates idx in
    if Nat.eqb (length current_date) 0 then state
    else
      let prev_date := prev_valid corrected_dates idx in
      let next_date := next_valid corrected_dates idx in
      if is_valid_date current_date
         && negb (is_date_in_order current_date prev_date next_date date_order)
      then
        let candidate :=
          match same_neighbours prev_date next_date with
          | Some c => Some c
          | None =>
              match value_date_candidate df value_date_col date_order idx prev_date next_date with
              | Some c => Some c
              | None => predict date_order current_date prev_date next_date
              end
          end in
        match candidate with
        | Some c =>
            if negb (Nat.eqb (length c) 0) && is_valid_date c
               && is_date_in_order c prev_date next_date date_order
            then (assign corrected_dates idx c, true)
            else (corrected_dates, true)
        | None => (corrected_dates, true)
        end
      else state.

(** Step 3: at most [iterations] passes, until a pass makes no
    correction.  The frame carries the dates of the last pass. *)
Fixpoint repair_loop (iterations : nat) (value_date_col : option text)
    (date_order : direction) (df : frame) (dates : list text) : frame * list text :=
  match iterations with
  | O => (df, dates)
  | S k =>
      let '(corrected_dates, made_correction) :=
        fold_left (repair_row df value_date_col date_order) (seq 0 (nrows df)) (dates, false) in
      let df := with_dates df corrected_dates in
      if made_correction then repair_loop k value_date_col date_order df corrected_dates
      else (df, corrected_dates)
  end.

(** ** Step 4: runs of rows without a valid date *)

(** The grouping of [remaining_invalid] into runs of consecutive
    indices; the state is [backtrack_groups] and [current_group]. *)
Definition group_step (state : list (list nat) * list nat) (idx : nat)
    : list (list nat) * list nat :=
  let '(backtrack_groups, current_group) := state in
  match current_group with
  | [] => (backtrack_groups, [idx])
  | _ :: _ =>
      if Nat.eqb idx (S (last current_group O))
      then (backtrack_groups, current_group ++ [idx])
      else (backtrack_groups ++ [current_group], [idx])
  end.

Definition backtrack_groups (remaining_invalid : list nat) : list (list nat) :=
  let '(groups, current_group) := fold_left group_step remaining_invalid ([], []) in
  match current_group with
  | [] => groups
  | _ :: _ => groups ++ [current_group]
  end.

(** The dates of the frame as [create_date_list_through_backtracking]
    reads them. *)
Definition frame_dates (df : frame) : list text := map cell_text (get_col df xn).

(** Dates stepped from [start]: each row moves the running date by its
    delta; a date that is not valid is skipped, the running date kept. *)
Fixpoint stepped (current_dt : Z) (rows : list (nat * Z)) : list (nat * text) :=
  match rows with
  | [] => []
  | (idx, delta) :: r =>
      let current_dt := current_dt + delta in
      let new_date := format_dt current_dt in
      if is_valid_date new_date then (idx, new_date) :: stepped current_dt r
      else stepped current_dt r
  end.

(** Dates spaced evenly after (or before, when [sign] is [-1]) [before_dt]:
    row [i] gets [int((i + 1) * step_size)] days, the quotient taken
    exactly. *)
Definition spaced (before_dt total_days sign : Z) (remaining : list nat) : list (nat * text) :=
  let k := Z.of_nat (length remaining) in
  flat_map
    (fun p : nat * nat =>
       let '(i, idx) := p in
       let days := ((Z.of_nat i + 1) * total_days) / (k + 1) in
       let new_date := format_dt (before_dt + sign * days) in
       if is_valid_date new_date then [(idx, new_date)] else [])
    (combine (seq 0 (length remaining)) remaining).

Definition index_of_first_valid (dates : list text) : option (nat * text) :=
  find (fun p : nat * text => is_valid_date (snd p)) (combine (seq 0 (length dates)) dates).

(** [create_date_list_through_backtracking(df, missing_indices, date_order,
    value_date_col)] *)
Definition create_date_list_through_backtracking (df : frame) (missing_indices : list nat)
    (date_order : direction) (value_date_col : option text) : list (nat * text) :=
  match missing_indices with
  | [] => []
  | first :: _ =>
      let dates := frame_dates df in
      let before_date := prev_valid dates first in
      let after_date := next_valid dates (last missing_indices first) in
      let results :=
        flat_map
          (fun idx =>
             let value_date_str := value_date_text df value_date_col idx in
             if negb (Nat.eqb (length value_date_str) 0)
                && is_valid_date value_date_str
                && is_date_in_order value_date_str before_date after_date date_order
             then [(idx, value_date_str)] else [])
          missing_indices in
      if Nat.eqb (length results) (length missing_indices) then results
      else
        let found := map fst results in
        let remaining := filter (fun idx => negb (existsb (Nat.eqb idx) found)) missing_indices in
        let dt (s : text) := match datetime_of s with Some z => z | None => 0 end in
        let unit := if is_ascending date_order then 1 else -1 in
        match remaining with
        | [] => results
        | first_remaining :: _ =>
            results ++
            match before_date, after_date with
            | Some b, Some a =>
                let total_days :=
                  if is_ascending date_order then dt a - dt b else dt b - dt a in
                if 0 <? total_days then spaced (dt b) total_days unit remaining
                else stepped (dt b) (map (fun idx => (idx, unit)) remaining)
            | Some b, None => stepped (dt b) (map (fun idx => (idx, unit)) remaining)
            | None, Some a => stepped (dt a) (map (fun idx => (idx, - unit)) (rev remaining))
            | None, None =>
                match index_of_first_valid dates with
                | Some (any_valid_idx, any_valid_date) =>
                    if Nat.ltb any_valid_idx first_remaining then
                      stepped (dt any_valid_date)
                        (map (fun idx => (idx, unit * (Z.of_nat idx - Z.of_nat any_valid_idx)))
                           remaining)
                    else
                      stepped (dt any_valid_date)
                        (map (fun idx => (idx, - unit * (Z.of_nat any_valid_idx - Z.of_nat idx)))
                           (rev remaining))
                | None => []
                end
            end
        end
  end.

(** [corrected_dates[row_idx] = new_date] for each pair of a list. *)
Definition assign_all (dates : list text) (l : list (nat * text)) : list text :=
  fold_left (fun d p => assign d (fst p) (snd p)) l dates.

(** The value dates tried first for a run. *)
Definition run_value_dates (df : frame) (value_date_col : option text)
    (date_order : direction) (corrected_dates : list text) (group : list nat)
    : list (nat * text) :=
  flat_map
    (fun idx =>
       let value_date_str := value_date_text df value_date_col idx in
       if Nat.eqb (length value_date_str) 0 then []
       else
         match parse value_date_str with
         | Some parsed_value =>
             if is_valid_date parsed_value then
               let prev_date := prev_valid corrected_dates idx in
               let next_date := next_valid corrected_dates idx in
               match same_neighbours prev_date next_date with
               | Some p => [(idx, p)]
               | None =>
                   if is_date_in_order parsed_value prev_date next_date date_order
                   then [(idx, parsed_value)] else []
               end
             else []
         | None => []
         end)
    group.

(** The rows of a run that take the date their two neighbours share; the
    state is [corrected_dates] and [remaining_in_group]. *)
Definition shared_step (state : list text * list nat) (idx : nat) : list text * list nat :=
  let '(corrected_dates, remaining_in_group) := state in
  match same_neighbours (prev_valid corrected_dates idx) (next_valid corrected_dates idx) with
  | Some p =>
      (assign corrected_dates idx p,
       filter (fun j => negb (Nat.eqb j idx)) remaining_in_group)
  | None => state
  end.

(** The dates of the backtracking, each again replaced by the date its two
    neighbours share. *)
Definition apply_backtracked (corrected_dates : list text) (p : nat * text) : list text :=
  let '(row_idx, new_date) := p in
  if is_valid_date new_date then
    match same_neighbours (prev_valid corrected_dates row_idx)
            (next_valid corrected_dates row_idx) with
    | Some q => assign corrected_dates row_idx q
    | None => assign corrected_dates row_idx new_date
    end
  else corrected_dates.

(** The body of the loop over [backtrack_groups]. *)
Definition repair_run (df : frame) (value_date_col : option text) (date_order : direction)
    (corrected_dates : list text) (group : list nat) : list text :=
  let date_list := run_value_dates df value_date_col date_order corrected_dates group in
  let corrected_dates := assign_all corrected_dates date_list in
  let remaining_in_group :=
    filter (fun idx => negb (is_valid_date (date_at corrected_dates idx))) group in
  let '(corrected_dates, remaining_in_group) :=
    fold_left shared_step remaining_in_group (corrected_dates, remaining_in_group) in
  let backtrack_dates :=
    create_date_list_through_backtracking df remaining_in_group date_order value_date_col in
  fold_left apply_backtracked backtrack_dates corrected_dates.

(** The rows of step 4: not blank, without a valid date. *)
Definition remaining_invalid (df : frame) (corrected_dates : list text) : list nat :=
  filter (fun idx => negb (is_empty_row df idx)
                     && negb (is_valid_date (date_at corrected_dates idx)))
         (seq 0 (nrows df)).

(** ** The final verification pass *)

Definition verify_row (df : frame) (date_order : direction) (corrected_dates : list text)
    (idx : nat) : list text :=
  if is_empty_row df idx then corrected_dates
  else
    let current_date := date_at corrected_dates idx in
    if is_valid_date current_date then
      let prev_date := prev_valid corrected_dates idx in
      let next_date := next_valid corrected_dates idx in
      if is_date_in_order current_date prev_date next_date date_order then corrected_dates
      else
        match same_neighbours prev_date next_date with
        | Some p => assign corrected_dates idx p
        | None =>
            let bound := if is_ascending date_order then prev_date else next_date in
            match bound with
            | Some b =>
                match datetime_of b with
                | Some dt => assign corrected_dates idx (format_dt (dt + 1))
                | None => corrected_dates
                end
            | None => corrected_dates
            end
        end
    else corrected_dates.

(** [date_correction(df)] *)
Definition date_correction (df : frame) : frame * direction :=
  if negb (has_col df xn) then (df, Ascending)
  else
    let value_date_col := find_value_date_col df in
    let dates := parsed_dates df in
    let df := with_dates df dates in
    let date_order := get_date_order dates in
    let '(df, corrected_dates) := repair_loop 5 value_date_col date_order df dates in
    let corrected_dates :=
      fold_left (repair_run df value_date_col date_order)
        (backtrack_groups (remaining_invalid df corrected_dates)) corrected_dates in
    let df := with_dates df corrected_dates in
    let corrected_dates :=
      fold_left (verify_row df date_order) (seq 0 (nrows df)) corrected_dates in
    let df := with_dates df corrected_dates in
    (df, get_date_order corrected_dates).

(** ** Rotation *)

(** [df.iloc[::-1].reset_index(drop=True)] *)
Definition reverse_rows (df : frame) : frame :=
  map (fun col => (fst col, rev (snd col))) df.

(** [rotate_if_descending(df, date_order)] *)
Definition rotate_if_descending (df : frame) (date_order : direction) : frame * direction :=
  match date_order with
  | Descending => (reverse_rows df, Ascending)
  | Ascending => (df, date_order)
  end.

(** ** Year repair *)

(** The text of a date cell as [is_valid_date] sees it; only a text can be
    a valid date. *)
Definition date_cell_text (c : cell) : text :=
  match c with
  | CText s => s
  | _ => []
  end.

Definition cell_assign (l : list cell) (idx : nat) (v : text) : list cell :=
  assign l idx (CText v).

Definition fix_year_row (df : frame) (value_date_col : option text) (date_order : direction)
    (corrected_dates : list cell) (i : nat) : list cell :=
  let dates := map date_cell_text corrected_dates in
  let current := date_at dates i in
  if is_valid_date current then
    match split_ints current with
    | None => corrected_dates
    | Some (day, month, year) =>
        let prev_date := prev_valid dates i in
        let next_date := next_valid dates i in
        let value_date_str := value_date_text df value_date_col i in
        let from_value_date :=
          if negb (Nat.eqb (length value_date_str) 0) && is_valid_date value_date_str then
            match split_ints value_date_str with
            | Some (_, _, v_year) =>
                let test_date := format_dmy day month v_year in
                if negb (v_year =? year)
                   && is_date_in_order test_date prev_date next_date date_order
                then Some test_date else None
            | None => None
            end
          else None in
        match from_value_date with
        | Some test_date => cell_assign corrected_dates i test_date
        | None =>
            match date_order, prev_date with
            | Ascending, Some p =>
                match split_ints p with
                | Some (_, _, p_year) =>
                    let test_date := format_dmy day month p_year in
                    if (year <? p_year) && (Z.abs (year - p_year) <=? 5)
                       && is_date_in_order test_date prev_date next_date date_order
                    then cell_assign corrected_dates i test_date
                    else corrected_dates
                | None => corrected_dates
                end
            | _, _ => corrected_dates
            end
        end
    end
  else corrected_dates.

(** [fix_chronological_year_issues(df)], the frame it returns. *)
Definition fix_chronological_year_issues (df : frame) : frame :=
  if negb (has_col df xn) then df
  else
    let corrected_dates := get_col df xn in
    let value_date_col := find_value_date_col df in
    let valid_dts :=
      flat_map (fun c => let s := date_cell_text c in
                         if is_valid_date s
                         then match datetime_of s with Some d => [d] | None => [] end
                         else [])
               corrected_dates in
    if Nat.ltb (length valid_dts) 2 then df
    else
      let date_order := order_of_datetimes valid_dts in
      set_col df xn
        (fold_left (fix_year_row df value_date_col date_order)
           (seq 0 (length corrected_dates)) corrected_dates).

(** ** The driver *)

(** [df[col].apply(parse_custom_date)]; for a [NaN] the parser ends in
    [pd.to_datetime("nan")], which is [NaT]. *)
Definition parse_cell (c : cell) : cell :=
  let parsed (s : text) :=
    match parse s with
    | Some d => CText d
    | None => CMissing
    end in
  match c with
  | CMissing => CMissing
  | CText s => parsed s
  | CNum q => parsed (str_float q)
  end.

Definition is_date_col (name : text) : bool := contains (T "date") (lower name).

Definition drop_col (df : frame) (name : text) : frame :=
  filter (fun col => negb (text_eqb (fst col) name)) df.

(** Step 1 of [process_all_dates]: every column with "date" in its name
    is parsed. *)
Definition parse_date_columns (df : frame) : frame :=
  map (fun col => if is_date_col (fst col)
                  then (fst col, map parse_cell (snd col)) else col) df.

(** Where row [idx] of [n] rows is after [rotate_if_descending]. *)
Definition position_after (date_order : direction) (n idx : nat) : nat :=
  match date_order with
  | Descending => (n - 1 - idx)%nat
  | Ascending => idx
  end.

(** [process_all_dates(df)], with the direction after the rotation. *)
Definition process_all_dates_order (df : frame) : frame * direction :=
  if negb (existsb is_date_col (column_names df)) then (df, Ascending)
  else
    let df := parse_date_columns df in
    let '(df, date_order) := date_correction df in
    let '(df, date_order) := rotate_if_descending df date_order in
    let df := fix_chronological_year_issues df in
    let df :=
      match find_value_date_col df with
      | Some col => drop_col df col
      | None => df
      end in
    (df, date_order).

(** [process_all_dates(df)] *)
Definition process_all_dates (df : frame) : frame := fst (process_all_dates_order df).

End Repair.

End Chronology.

Import Chronology.

(* ================================================================== *)
(** * Debit and credit markers ([csv_cleaning.py]) *)
(* ================================================================== *)

Module Markers.

(** The dictionary literal of [normalize_drcr_value], entry by entry; a
    key written twice keeps its place and takes the last value. *)
Definition drcr_entries : list (string * string) :=
  [("credit", "CR"); ("cr", "CR"); ("cr.", "CR"); ("c", "CR");
   ("(Cr)", "CR"); ("(Cr", "CR"); ("Cr)", "CR");
   ("debit", "DR"); ("dr", "DR"); ("dr.", "DR"); ("d", "DR");
   ("(Dr)", "Dr"); ("(Dr", "DR"); ("Cr)", "DR")]%string.

Definition mapping : dict :=
  fold_left (fun d kv => dict_set d (T (fst kv)) (T (snd kv))) drcr_entries [].

(** The key looked up in [mapping]: the text after the two clean-ups. *)
Definition drcr_key (val : text) : text :=
  let val := upper (strip val) in
  let val := replace (T "0R") (T "CR") val in
  let val := replace (T "Cr") (T "CR") (replace (T "Dr") (T "DR") val) in
  let val := filter (fun c => negb (is_space c)) val in
  lower (strip val).

(** [normalize_drcr_value(val)] for a text [val]; [mapping.get(val, '')]. *)
Definition normalize_drcr_value (val : text) : text :=
  match dict_get mapping (drcr_key val) with
  | Some v => v
  | None => T ""
  end.

End Markers.

Import Markers.

(* ================================================================== *)
(** * The components of a date ([date_cleaning.py]) *)
(* ================================================================== *)

Module Components.

(** [re.findall(r'\d+', s)] *)
Fixpoint digit_runs (s : text) : list text :=
  match s with
  | [] => []
  | c :: r =>
      if is_digit c then
        match r with
        | d :: _ =>
            if is_digit d then
              match digit_runs r with
              | run :: rest => (c :: run) :: rest
              | [] => [[c]]
              end
            else [c] :: digit_runs r
        | [] => [[c]]
        end
      else digit_runs r
  end.

(** [if year < 100: year = 2000 + year if year >= 23 else 1900 + year] *)
Definition pivot (year : Z) : Z :=
  if year <? 100 then (if 23 <=? year then 2000 + year else 1900 + year) else year.

Section Extract.

Variable get_close_matches : text -> list text -> option text.

Local Abbreviation normalize_month := (normalize_month get_close_matches).

(** The branch for a text with exactly one slash; [None] when it returns
    nothing and the function goes on. *)
Definition one_slash (date_str : text) : option (option Z * option Z * option Z) :=
  match split_on "/" date_str with
  | [p0; p1] =>
      let month_first :=
        match normalize_month p0 with
        | Some month_num =>
            match py_int p1, py_int month_num with
            | Some year, Some month => Some (None, Some month, Some (pivot year))
            | _, _ => None
            end
        | None => None
        end in
      match month_first with
      | Some r => Some r
      | None =>
          match py_int p0 with
          | Some day =>
              match normalize_month p1 with
              | Some month_num =>
                  if (1 <=? day) && (day <=? 31) then
                    match py_int month_num with
                    | Some month => Some (Some day, Some month, None)
                    | None => None
                    end
                  else None
              | None => None
              end
          | None => None
          end
      end
  | _ => None
  end.

(** The branch for a text with three runs of digits or more. *)
Definition three_numbers (date_str : text) : option (option Z * option Z * option Z) :=
  match digit_runs date_str with
  | n0 :: n1 :: n2 :: _ =>
      match py_int n0, py_int n1, py_int n2 with
      | Some day, Some month, Some year => Some (Some day, Some month, Some (pivot year))
      | _, _, _ => None
      end
  | _ => None
  end.

(** [extract_date_components(date_str)] for a text [date_str]. *)
Definition extract_date_components (date_str : text) : option Z * option Z * option Z :=
  if Nat.eqb (length date_str) 0 then (None, None, None)
  else
    let date_str := strip date_str in
    match (if is_valid_date date_str then split_ints date_str else None) with
    | Some (day, month, year) => (Some day, Some month, Some year)
    | None =>
        if all_digits date_str && Nat.eqb (length date_str) 4
        then (None, None, py_int date_str)
        else
          match one_slash date_str with
          | Some r => r
          | None =>
              match three_numbers date_str with
              | Some r => r
              | None =>
                  match normalize_month date_str with
                  | Some month_num =>
                      match py_int month_num with
                      | Some month => (None, Some month, None)
                      | None => (None, None, None)
                      end
                  | None => (None, None, None)
                  end
              end
          end
    end.

End Extract.

End Components.

Import Components.

(* ================================================================== *)
(** * The nearest valid dates of a row ([date_cleaning.py]) *)
(* ================================================================== *)

Module Neighbours.

Section Nearest.

Variable str_float : Q -> text.

(** [str(df.at[idx, date_col]).strip() if pd.notna(df.at[idx, date_col])
    else ""], for a row [idx] of the frame. *)
Definition date_text_at (df : frame) (date_col : text) (idx : nat) : text :=
  cell_text str_float (nth idx (get_col df date_col) CMissing).

(** The loop over [range(current_idx - 1, -1, -1)]. *)
Fixpoint nearest_above (df : frame) (date_col : text) (idx : nat) : option (text * nat) :=
  match idx with
  | O => None
  | S i =>
      let date_str := date_text_at df date_col i in
      if is_valid_date date_str then Some (date_str, i)
      else nearest_above df date_col i
  end.

(** The loop over [range(start, start + count)]. *)
Fixpoint nearest_below (df : frame) (date_col : text) (start count : nat)
    : option (text * nat) :=
  match count with
  | O => None
  | S k =>
      let date_str := date_text_at df date_col start in
      if is_valid_date date_str then Some (date_str, start)
      else nearest_below df date_col (S start) k
  end.

(** [find_nearest_valid_date(df, current_idx, direction, date_col)] for a
    frame with the default index and a row number that is not negative;
    [above] is [direction == 'above'].  Above the last row [df.at] raises
    at the first row it reads, and the function returns [(None, None)].
    It raises as well for a column the frame does not have; no date is
    read of such a column here, and the result is the same. *)
Definition find_nearest_valid_date (df : frame) (current_idx : nat) (above : bool)
    (date_col : text) : option (text * nat) :=
  if above then
    if Nat.ltb (nrows df) current_idx then None
    else nearest_above df date_col current_idx
  else nearest_below df date_col (S current_idx) (nrows df - S current_idx).

(** The dictionary [get_valid_date_context] returns. *)
Record date_context : Type := {
  prev_date : option text;
  prev_idx : option nat;
  next_date : option text;
  next_idx : option nat
}.

(** [get_valid_date_context(df, current_idx, date_col)]: the two loops;
    when the first raises, the context is returned as it was created. *)
Definition get_valid_date_context (df : frame) (current_idx : nat) (date_col : text)
    : date_context :=
  if Nat.ltb (nrows df) current_idx then
    {| prev_date := None; prev_idx := None; next_date := None; next_idx := None |}
  else
    let above := nearest_above df date_col current_idx in
    let below := nearest_below df date_col (S current_idx) (nrows df - S current_idx) in
    {| prev_date := option_map fst above; prev_idx := option_map snd above;
       next_date := option_map fst below; next_idx := option_map snd below |}.

End Nearest.

End Neighbours.

Import Neighbours.

(* ================================================================== *)
(** * Notions used to state the properties *)
(* ================================================================== *)

Module Notions.

(** ** Texts *)

Definition all_chars : list ascii := map ascii_of_nat (seq 0 256).

(** A text of the characters of a number. *)
Definition numeric (s : text) : Prop := Forall (fun c => is_num_char c = true) s.

Definition two_digits (s : text) : bool := all_digits s && Nat.eqb (length s) 2.

(** The characters of a date: digits and the slash. *)
Definition date_char (c : ascii) : bool := is_digit c || Ascii.eqb c "/".

Definition date_text (s : text) : Prop := Forall (fun c => date_char c = true) s.

(** The text of the date whose digits are [c1] to [c8]. *)
Definition dmy_text (c1 c2 c3 c4 c5 c6 c7 c8 : ascii) : text :=
  [c1; c2; "/"%char; c3; c4; "/"%char; c5; c6; c7; c8].

(** The text of the year whose digits are [c1] to [c4]. *)
Definition year_text (c1 c2 c3 c4 : ascii) : text := [c1; c2; c3; c4].




(** ** Ledgers *)

(** The rounding [calculate_difference_and_verify] applies to a column. *)
Definition rounded (py_float : text -> option Q) (col : list cell) : list cell :=
  map (fun c => num_cell (round_to_2 py_float c)) col.

(** The frame of the pipeline after the verifier has found and rounded
    its columns. *)
Definition prepared (py_float : text -> option Q)
    (dates cheques narration debits credits balance : list cell) : frame :=
  [ (T "XN Date", dates); (T "Cheque No", cheques); (T "Narration", narration);
    (T "Debits", rounded py_float debits); (T "Credits", rounded py_float credits);
    (T "Balance", balance);
    (T "Difference", repeat (CNum 0) (length dates));
    (T "Balance_Adjusted", rounded py_float balance) ].

(** A frame with [n] rows in every column and a column of dates. *)
Definition dated (n : nat) (df : frame) : Prop :=
  well_formed df /\ nrows df = n /\ has_col df xn = true.

(** ** Matches *)

(** A captured group: characters of the class, between [lo] and [hi] of
    them. *)
Definition group_ok (a : atom) (c : text) : Prop :=
  Forall (fun x => cls a x = true) c
  /\ (lo a <= length c)%nat
  /\ (forall h, hi a = Some h -> (length c <= h)%nat).

Definition groups_ok (atoms : list atom) (caps : list text) : Prop :=
  Forall2 group_ok (filter cap atoms) caps.

(** The classes of the atoms do not tell a character from its image
    by [f]. *)
Definition respects (f : ascii -> ascii) (atoms : list atom) : Prop :=
  Forall (fun a => forall c, cls a (f c) = cls a c) atoms.

(** The character [c] renamed by the pairs of [l]. *)
Fixpoint rename (l : list (ascii * ascii)) (c : ascii) : ascii :=
  match l with
  | [] => c
  | (a, b) :: r => if Ascii.eqb c a then b else rename r c
  end.

(** A class that does not tell one digit from another. *)
Definition blind (p : ascii -> bool) : Prop :=
  forall c c', is_digit c = true -> is_digit c' = true -> p c = p c'.

Definition digit_pairs (l : list (ascii * ascii)) : Prop :=
  Forall (fun ab => is_digit (fst ab) = true /\ is_digit (snd ab) = true) l.

Definition blind_atoms (atoms : list atom) : Prop := Forall (fun a => blind (cls a)) atoms.

(** A date and a year with eight and four different digits, and the
    renamings of these digits. *)
Definition template : text := T "12/34/5678".

Definition renaming (c1 c2 c3 c4 c5 c6 c7 c8 : ascii) : list (ascii * ascii) :=
  combine (T "12345678") [c1; c2; c3; c4; c5; c6; c7; c8].

Definition year_renaming (c1 c2 c3 c4 : ascii) : list (ascii * ascii) :=
  combine (T "1234") [c1; c2; c3; c4].

(** ** Results of the parser *)

(** A result of the parser: a bare year, or day, month and year. *)
Definition good (r : option text) : Prop :=
  match r with
  | Some y => year_shape y = true \/ date_shape y = true
  | None => True
  end.

(** The numbers of the twelve months. *)
Definition month_numbers : list text :=
  [T "01"; T "02"; T "03"; T "04"; T "05"; T "06";
   T "07"; T "08"; T "09"; T "10"; T "11"; T "12"].

(** ** Dates *)

(** A day, a month and a year as [is_valid_date] accepts them. *)
Definition valid_dmy (day month year : Z) : bool :=
  if (1 <=? day) && (day <=? 31) && (1 <=? month) && (month <=? 12)
     && (1900 <=? year) && (year <=? 2100)
  then
    if ((month =? 4) || (month =? 6) || (month =? 9) || (month =? 11)) && (30 <? day)
    then false
    else if month =? 2 then
      if is_leap year then negb (29 <? day) else negb (28 <? day)
    else true
  else false.

(** A date: its day, its month and its year. *)
Abbreviation date := (Z * Z * Z)%type.

Definition origin : date := (0, 0, 0).

(** A date [is_valid_date] accepts. *)
Definition valid_date (t : date) : bool := let '(d, m, y) := t in valid_dmy d m y.

(** [datetime(year, month, day)], as a number of days. *)
Definition day_number (t : date) : Z := let '(d, m, y) := t in ordinal d m y.

Definition valid_dates (ts : list date) : bool := forallb valid_date ts.

Fixpoint non_decreasing (l : list Z) : bool :=
  match l with
  | a :: ((b :: _) as r) => (a <=? b) && non_decreasing r
  | _ => true
  end.

(** The dates of [ts] never go back. *)
Definition in_order (ts : list date) : bool := non_decreasing (map day_number ts).

Fixpoint decreasing (l : list Z) : bool :=
  match l with
  | a :: ((b :: _) as r) => (b <? a) && decreasing r
  | _ => true
  end.

(** Each date of [ts] is before the one of the row above. *)
Definition falling (ts : list date) : bool := decreasing (map day_number ts).

(** The date column of a ledger whose rows have the dates [ts], written
    DD/MM/YYYY. *)
Definition date_cells (ts : list date) : list cell :=
  map (fun t => CText (strftime t)) ts.

(** A ledger with its dates in the column [XN Date], between the columns
    [pre] and [post]. *)
Definition dated_ledger (pre post : frame) (ts : list date) : frame :=
  pre ++ (xn, date_cells ts) :: post.

(** No column of [cols] has "date" in its name. *)
Definition plain_columns (cols : frame) : bool :=
  forallb (fun col => negb (is_date_col (fst col))) cols.

(** Every column of [cols] has [n] cells. *)
Definition rows_of (n : nat) (cols : frame) : bool :=
  forallb (fun col => Nat.eqb (length (snd col)) n) cols.

End Notions.

Import Notions.

(* ================================================================== *)
(** * Sample inputs *)
(* ================================================================== *)

Module Examples.

(** Library functions that find nothing: no close match, no time stamp. *)
Definition no_close : text -> list text -> option text := fun _ _ => None.
Definition no_pd : bool -> text -> option (Z * Z * Z) := fun _ _ => None.
Definition no_str : Q -> text := fun _ => [].






(** A step that does nothing. *)
Definition keep : step := fun df => (df, Returned df).

(** A ledger of four dated rows, the second a year early. *)
Definition disordered_ledger : frame :=
  [ (xn, [CText (T "05/01/2024"); CText (T "20/06/2023");
          CText (T "09/01/2024"); CText (T "01/01/2024")]);
    (T "Narration", [CText (T "a"); CText (T "b"); CText (T "c"); CText (T "d")]) ].



(** A ledger of three rows in order, two of them of the same day. *)
Definition ordered_days : list date := [(1, 1, 2024); (2, 1, 2024); (2, 1, 2024)].


(** A ledger of three rows, the latest first. *)
Definition descending_ledger : frame :=
  [ (xn, [CText (T "03/01/2024"); CText (T "02/01/2024"); CText (T "01/01/2024")]);
    (T "Narration", [CText (T "c"); CText (T "b"); CText (T "a")]);
    (T "Balance", [CNum 30; CNum 20; CNum 10]) ].

(** The dates and the other columns of a ledger of three rows, the latest
    first. *)
Definition falling_days : list date := [(3, 1, 2024); (2, 1, 2024); (1, 1, 2024)].

Definition falling_rest : frame :=
  [ (T "Narration", [CText (T "c"); CText (T "b"); CText (T "a")]);
    (T "Balance", [CNum 30; CNum 20; CNum 10]) ].

(** A ledger with a column of value dates. *)
Definition valued_ledger : frame :=
  [ (xn, [CText (T "01/01/2024"); CText (T "05/01/2024")]);
    (T "Value Date", [CText (T "01/01/2024"); CText (T "04/01/2024")]);
    (T "Narration", [CText (T "a"); CText (T "b")]) ].

(** A ledger whose second row is blank. *)
Definition blank_ledger : frame :=
  [ (xn, [CText (T "01/01/2024"); CMissing; CText (T "03/01/2024")]);
    (T "Narration", [CText (T "a"); CText (T " "); CText (T "c")]) ].

End Examples.

Import Examples.

(* ================================================================== *)
(** * Facts about characters and text *)
(* ================================================================== *)

Module TextFacts.

(** A property of characters that holds of each of the 256 holds of all. *)
Lemma ascii_forall (P : ascii -> bool) :
  forallb P all_chars = true -> forall c, P c = true.
Proof.
  intros H c.
  rewrite forallb_forall in H. apply H.
  unfold all_chars. apply in_map_iff.
  exists (nat_of_ascii c). split.
  - apply ascii_nat_embedding.
  - apply in_seq. pose proof (nat_ascii_bounded c). lia.
Qed.

Ltac by_chars :=
  match goal with
  | |- forall c : ascii, @?P c = true => apply (ascii_forall P); vm_compute; reflexivity
  end.

Lemma num_char_facts : forall c,
  implb (is_num_char c)
    (Ascii.eqb (to_lower c) c && Ascii.eqb (to_upper c) c && negb (is_space c)
     && negb (Ascii.eqb c ",") && negb (Ascii.eqb c " ") && negb (Ascii.eqb c "-")
     && negb (Ascii.eqb (to_lower c) "c") && negb (Ascii.eqb (to_lower c) "d")
     && negb (Ascii.eqb (to_lower c) "r")) = true.
Proof. by_chars. Qed.


Lemma text_eqb_eq (a b : text) : text_eqb a b = true <-> a = b.
Proof.
  revert b. induction a as [|x a IH]; intros [|y b]; simpl; split; intro H;
    try reflexivity; try discriminate.
  - apply andb_true_iff in H. destruct H as [H1 H2].
    apply Ascii.eqb_eq in H1. apply IH in H2. congruence.
  - injection H as -> ->. rewrite Ascii.eqb_refl. simpl. apply IH. reflexivity.
Qed.

Lemma text_eqb_refl (a : text) : text_eqb a a = true.
Proof. apply text_eqb_eq. reflexivity. Qed.

Lemma text_eqb_neq (a b : text) : text_eqb a b = false <-> a <> b.
Proof.
  split.
  - intros H E. apply text_eqb_eq in E. congruence.
  - intro H. destruct (text_eqb a b) eqn:E; [|reflexivity].
    apply text_eqb_eq in E. contradiction.
Qed.

Lemma num_char_split c :
  is_num_char c = true ->
  to_lower c = c /\ to_upper c = c /\ is_space c = false /\ c <> ","%char /\ c <> " "%char
  /\ c <> "-"%char /\ to_lower c <> "c"%char /\ to_lower c <> "d"%char
  /\ to_lower c <> "r"%char.
Proof.
  intro H. pose proof (num_char_facts c) as F. rewrite H in F. simpl in F.
  repeat (apply andb_true_iff in F; destruct F as [F ?]).
  repeat match goal with
         | H : negb _ = true |- _ => apply negb_true_iff in H
         | H : Ascii.eqb _ _ = true |- _ => apply Ascii.eqb_eq in H
         | H : Ascii.eqb _ _ = false |- _ => apply Ascii.eqb_neq in H
         end.
  repeat split; assumption.
Qed.



Lemma lstrip_no_space s :
  match s with c :: _ => is_space c = false | [] => True end -> lstrip s = s.
Proof. destruct s as [|c s]; simpl; [reflexivity|]. intros ->. reflexivity. Qed.











End TextFacts.

Import TextFacts.

(* ================================================================== *)
(** * Facts about [extract_amount] *)
(* ================================================================== *)

Module AmountFacts.

(** ** Splitting and joining *)



Lemma split_on_none sep s : ~ In sep s -> split_on sep s = [s].
Proof.
  induction s as [|c s IH]; intro H; simpl; [reflexivity|].
  destruct (Ascii.eqb c sep) eqn:E.
  - apply Ascii.eqb_eq in E. subst. exfalso. apply H. left. reflexivity.
  - rewrite IH; [reflexivity|]. intro Hin. apply H. right. exact Hin.
Qed.

Lemma split_on_app sep p r :
  ~ In sep p -> split_on sep (p ++ sep :: r) = p :: split_on sep r.
Proof.
  induction p as [|c p IH]; intro H; simpl.
  - rewrite Ascii.eqb_refl. reflexivity.
  - destruct (Ascii.eqb c sep) eqn:E.
    + apply Ascii.eqb_eq in E. subst. exfalso. apply H. left. reflexivity.
    + rewrite IH; [reflexivity|]. intro Hin. apply H. right. exact Hin.
Qed.






Lemma Forall_last {A} (P : A -> Prop) l d : Forall P l -> P d -> P (last l d).
Proof. induction 1 as [|x [|y r] Hx Hr IH]; simpl; auto. Qed.

Lemma Forall_removelast {A} (P : A -> Prop) l : Forall P l -> Forall P (removelast l).
Proof.
  induction 1 as [|x [|y r] Hx Hr IH]; simpl; [constructor|constructor|].
  constructor; assumption.
Qed.

(** ** [float] *)

Lemma digits_value_nonneg_from s acc :
  0 <= acc -> 0 <= fold_left (fun a c => 10 * a + digit_value c) s acc.
Proof.
  revert acc. induction s as [|c s IH]; intros acc H; cbn [fold_left]; [exact H|].
  apply IH. unfold digit_value. pose proof (N2Z.is_nonneg (code c - 48)). lia.
Qed.

Lemma digits_value_nonneg s : 0 <= digits_value s.
Proof. apply digits_value_nonneg_from. lia. Qed.

Lemma not_minus_first s : numeric s -> starts_with (T "-") s = false.
Proof.
  intros [|c r Hc _]; [reflexivity|].
  change (starts_with (T "-") (c :: r)) with (Ascii.eqb "-" c && true).
  destruct (num_char_split c Hc) as (_ & _ & _ & _ & _ & Hm & _).
  destruct (Ascii.eqb "-" c) eqn:E; [|reflexivity].
  apply Ascii.eqb_eq in E. congruence.
Qed.



(** ** The dot handling *)

Section MultiDot.

Variable segments : list text.
Hypothesis several : (2 < length segments)%nat.
Hypothesis digits : Forall (fun p => all_digits p = true) segments.
Hypothesis some_digit : join segments <> [].

Let token := join_with "." segments.









End MultiDot.

End AmountFacts.

Import AmountFacts.

(* ================================================================== *)
(** * Facts about rounding *)
(* ================================================================== *)

Module NumFacts.

Lemma round_half_even_exact n d k :
  n = k * Zpos d -> round_half_even (n # d) = k.
Proof.
  intros ->. unfold round_half_even. cbn [Qnum Qden].
  rewrite Z.div_mul by discriminate. rewrite Z.mod_mul by discriminate.
  reflexivity.
Qed.

Lemma cents_of_of_cents c : cents_of (of_cents c) = c.
Proof.
  unfold cents_of, of_cents, Qmult. cbn [Qnum Qden].
  apply round_half_even_exact. lia.
Qed.




Lemma round_half_even_nonneg q : 0 <= Qnum q -> 0 <= round_half_even q.
Proof.
  intro H. unfold round_half_even.
  assert (0 <= Qnum q / Zpos (Qden q)) by (apply Z.div_pos; lia).
  destruct (2 * (Qnum q mod Zpos (Qden q)) ?= Zpos (Qden q)); try lia.
  destruct (Z.even _); lia.
Qed.

Lemma cents_of_nonneg q : (0 <= q)%Q -> 0 <= cents_of q.
Proof.
  intro H. unfold cents_of. apply round_half_even_nonneg.
  unfold Qle in H. cbn in H. unfold Qmult. cbn [Qnum]. nia.
Qed.

Lemma round2_nonneg q : (0 <= q)%Q -> (0 <= round2 q)%Q.
Proof.
  intro H. unfold round2, of_cents, Qle. cbn [Qnum Qden].
  pose proof (cents_of_nonneg q H). lia.
Qed.

End NumFacts.

Import NumFacts.

(* ================================================================== *)
(** * Facts about [parse_balance] and [extract_amount_new] *)
(* ================================================================== *)

Module BalanceFacts.














Section MultiDotBalance.

Variable segments : list text.
Hypothesis several : (2 < length segments)%nat.
Hypothesis digits : Forall (fun p => all_digits p = true) segments.
Hypothesis some_digit : join segments <> [].

Let token := join_with "." segments.



End MultiDotBalance.

(** ** Signs *)

Lemma Qnegb_true q : Qnegb q = true -> (q < 0)%Q.
Proof. unfold Qnegb, Qlt. cbn [Qnum Qden]. rewrite Z.ltb_lt. lia. Qed.

Lemma Qnegb_false q : Qnegb q = false -> (0 <= q)%Q.
Proof. unfold Qnegb, Qle. cbn [Qnum Qden]. rewrite Z.ltb_ge. lia. Qed.

Lemma float_of_text_nonneg s q :
  float_of_text s = Some q -> starts_with (T "-") s = false -> (0 <= q)%Q.
Proof.
  unfold float_of_text. intros H Hs. rewrite Hs in H.
  destruct (split_on "." s) as [|i [|f [|? ?]]]; try discriminate.
  - destruct (all_digits i && negb (Nat.eqb (length i) 0)); [|discriminate].
    injection H as <-. unfold Qle. cbn [Qnum Qden].
    pose proof (digits_value_nonneg i). lia.
  - destruct (all_digits i && all_digits f && negb (Nat.eqb (length (i ++ f)) 0));
      [|discriminate].
    injection H as <-. unfold Qle. cbn [Qnum Qden].
    pose proof (digits_value_nonneg (i ++ f)). lia.
Qed.

Lemma filter_num_not_minus s : starts_with (T "-") (filter is_num_char s) = false.
Proof.
  destruct (filter is_num_char s) as [|c r] eqn:E; [reflexivity|].
  assert (Hc : is_num_char c = true).
  { assert (In c (filter is_num_char s)) by (rewrite E; left; reflexivity).
    apply filter_In in H. apply H. }
  change (starts_with (T "-") (c :: r)) with (Ascii.eqb "-" c && true).
  destruct (num_char_split c Hc) as (_ & _ & _ & _ & _ & Hm & _).
  destruct (Ascii.eqb "-" c) eqn:E'; [|reflexivity].
  apply Ascii.eqb_eq in E'. congruence.
Qed.

Lemma remove_dot_not_minus s :
  starts_with (T "-") (remove_char "." (filter is_num_char s)) = false.
Proof.
  destruct (remove_char "." (filter is_num_char s)) as [|c r] eqn:E; [reflexivity|].
  assert (Hc : is_num_char c = true).
  { assert (Hin : In c (remove_char "." (filter is_num_char s)))
      by (rewrite E; left; reflexivity).
    unfold remove_char in Hin. apply filter_In in Hin. destruct Hin as [Hin _].
    apply filter_In in Hin. apply Hin. }
  change (starts_with (T "-") (c :: r)) with (Ascii.eqb "-" c && true).
  destruct (num_char_split c Hc) as (_ & _ & _ & _ & _ & Hm & _).
  destruct (Ascii.eqb "-" c) eqn:E'; [|reflexivity].
  apply Ascii.eqb_eq in E'. congruence.
Qed.

Lemma Qdiv_nonneg q (k : Q) : (0 <= q)%Q -> (0 < k)%Q -> (0 <= q / k)%Q.
Proof.
  intros Hq Hk. unfold Qdiv. apply Qmult_le_0_compat; [exact Hq|].
  apply Qlt_le_weak. apply Qinv_lt_0_compat. exact Hk.
Qed.

(** The sign of [extract_amount_new] comes from the leading minus or the
    parenthesis alone. *)
Lemma extract_amount_new_sign value v :
  extract_amount_new value = Some v ->
  if negative_marker value then (v <= 0)%Q else (0 <= v)%Q.
Proof.
  unfold extract_amount_new.
  destruct (Nat.eqb (length (strip value)) 0); [discriminate|].
  set (text := if negative_marker value then _ else _).
  set (clean := filter is_num_char _).
  destruct (Nat.eqb (length clean) 0); [discriminate|].
  assert (Hsigned : forall r : Q, (0 <= r)%Q ->
            if negative_marker value
            then ((if negative_marker value then - round2 r else round2 r) <= 0)%Q
            else (0 <= (if negative_marker value then - round2 r else round2 r))%Q).
  { intros r Hr. pose proof (round2_nonneg r Hr) as H2.
    destruct (negative_marker value); [|exact H2].
    apply (Qopp_le_compat 0) in H2. exact H2. }
  destruct (mem_char "." (filter is_num_char text)).
  - destruct (Nat.eqb (length (remove_char "." clean)) 0); [discriminate|].
    destruct (float_of_text (remove_char "." clean)) as [f|] eqn:Ef; [|discriminate].
    intro H. injection H as <-.
    pose proof (float_of_text_nonneg _ _ Ef (remove_dot_not_minus _)) as Hf.
    apply Hsigned.
    repeat match goal with
           | |- context [if ?b then _ else _] => destruct b
           end;
      try exact Hf; apply Qdiv_nonneg; try exact Hf; reflexivity.
  - destruct (float_of_text clean) as [f|] eqn:Ef; [|discriminate].
    intro H. injection H as <-.
    apply Hsigned. exact (float_of_text_nonneg _ _ Ef (filter_num_not_minus _)).
Qed.

End BalanceFacts.

Import BalanceFacts.

(* ================================================================== *)
(** * Facts about the running-balance verifier *)
(* ================================================================== *)

Module LedgerFacts.

Section Verifier.

Variable py_float : text -> option Q.

Local Abbreviation round_to_2 := (round_to_2 py_float).
Local Abbreviation cents_at := (cents_at py_float).
Local Abbreviation difference_at := (difference_at py_float).
Local Abbreviation differences := (differences py_float).
Local Abbreviation adjusted_balances := (adjusted_balances py_float).
Local Abbreviation verify := (calculate_difference_and_verify py_float).
Local Abbreviation rounded := (rounded py_float).

Lemma get_set_same (f : frame) name v : get_col (set_col f name v) name = v.
Proof.
  induction f as [|[n' w] r IH]; cbn [set_col get_col].
  - rewrite text_eqb_refl. reflexivity.
  - destruct (text_eqb name n') eqn:E; cbn [get_col]; rewrite E; [reflexivity|exact IH].
Qed.

Lemma get_set_other (f : frame) name other v :
  text_eqb other name = false -> get_col (set_col f name v) other = get_col f other.
Proof.
  intro H. induction f as [|[n' w] r IH]; cbn [set_col get_col].
  - rewrite H. reflexivity.
  - destruct (text_eqb name n') eqn:E; cbn [get_col].
    + apply text_eqb_eq in E. subst n'. rewrite H. reflexivity.
    + rewrite IH. reflexivity.
Qed.

Lemma round_to_2_num c : round_to_2 (num_cell c) = c.
Proof. apply cents_of_of_cents. Qed.

Lemma cents_at_rounded col i : cents_at (rounded col) i = cents_at col i.
Proof.
  unfold Ledger.cents_at, Notions.rounded.
  destruct (Nat.lt_ge_cases i (length col)) as [Hi|Hi].
  - rewrite (nth_indep _ CMissing (num_cell (round_to_2 CMissing)))
      by (rewrite length_map; exact Hi).
    rewrite (map_nth (fun c => num_cell (round_to_2 c))). apply round_to_2_num.
  - rewrite !nth_overflow by (try rewrite length_map; exact Hi). reflexivity.
Qed.


Lemma difference_at_rounded d c b i :
  difference_at (rounded d) (rounded c) (rounded b) i = difference_at d c b i.
Proof. unfold Ledger.difference_at. rewrite !cents_at_rounded. reflexivity. Qed.

Lemma differences_rounded n d c b :
  differences n (rounded d) (rounded c) (rounded b) = differences n d c b.
Proof.
  destruct n as [|m]; [reflexivity|]. unfold Ledger.differences. f_equal.
  apply map_ext. intro i. apply difference_at_rounded.
Qed.


(** ** The adjusted balances *)







(** ** The verifier on the frame of the pipeline *)

Section Cleaned.

Variables dates cheques narration debits credits balance : list cell.

Let n := length dates.
Let df := cleaned_frame dates cheques narration debits credits balance.

Local Abbreviation prepared :=
  (prepared py_float dates cheques narration debits credits balance).

Lemma verify_cleaned :
  verify df = Some (verify_columns py_float prepared n (rounded debits) (rounded credits)).
Proof. reflexivity. Qed.

Lemma balance_of_prepared : get_col prepared (T "Balance_Adjusted") = rounded balance.
Proof. reflexivity. Qed.




(** The verdict when some difference is one unit or more, or with a single
    row: nothing is adjusted. *)
Lemma verify_keeps :
  all_differences_in_range (differences n debits credits balance) && Nat.ltb 1 n = false ->
  exists v,
    verify df = Some v /\ adjusted v = false
    /\ all_correct v = no_difference (differences n debits credits balance)
    /\ get_col (df_diff v) (T "Balance_Adjusted") = rounded balance
    /\ get_col (df_diff v) (T "Difference")
       = map num_cell (differences n debits credits balance)
    /\ get_col (df_diff v) (T "Debits") = rounded debits
    /\ get_col (df_diff v) (T "Credits") = rounded credits.
Proof.
  intros Hr. rewrite verify_cleaned. unfold verify_columns.
  rewrite balance_of_prepared, differences_rounded, Hr.
  eexists. split; [reflexivity|]. cbn [df_diff all_correct adjusted].
  rewrite !get_set_same.
  rewrite !(get_set_other _ (T "Difference")) by reflexivity.
  repeat split; reflexivity.
Qed.

End Cleaned.







End Verifier.

End LedgerFacts.

Import LedgerFacts.

(* ================================================================== *)
(** * Properties of the amount parsers *)
(* ================================================================== *)

Module AmountClaims.

(** C2, as the code has it.  The sign rule of the claim is the one of
    [parse_balance]: with a [DR] marker the result is the computed amount
    made negative, so an amount that a leading minus already made negative
    is returned as it is and never negated a second time; without the
    marker the amount is returned unchanged.  [extract_amount_new] has no
    such rule: the sign of its result comes from a leading minus or a
    parenthesis alone, whatever [DR] or [CR] marker the token carries. *)
Theorem dr_sign_rule (token : text) (amount : Q) :
  balance_amount token = Some amount ->
  (is_dr token = true ->
     exists v, parse_balance token = Some v /\ (v == - Qabs amount)%Q /\ (v <= 0)%Q)
  /\ (is_dr token = false -> parse_balance token = Some amount)
  /\ ((amount < 0)%Q -> parse_balance token = Some amount)
  /\ (forall v, extract_amount_new token = Some v ->
        if negative_marker token then (v <= 0)%Q else (0 <= v)%Q).
Proof.
  intro Ha. unfold parse_balance. rewrite Ha.
  repeat split.
  - intro Hd. rewrite Hd. destruct (Qnegb amount) eqn:E.
    + apply Qnegb_true in E. exists amount. split; [reflexivity|].
      split; [|apply Qlt_le_weak; exact E].
      rewrite Qabs_neg by (apply Qlt_le_weak; exact E). rewrite Qopp_involutive. reflexivity.
    + apply Qnegb_false in E.
      exists (- amount)%Q. split; [reflexivity|]. split.
      * rewrite Qabs_pos by assumption. reflexivity.
      * apply (Qopp_le_compat 0). assumption.
  - intro Hd. rewrite Hd. destruct (Qnegb amount); reflexivity.
  - intro Hlt. destruct (Qnegb amount) eqn:E; [reflexivity|].
    apply Qnegb_false in E. exfalso. apply (Qlt_not_le _ _ Hlt). exact E.
  - intros v Hv. apply extract_amount_new_sign. exact Hv.
Qed.

(** The token ["1,234.56DR"]: [parse_balance] returns -1234.56 and
    [extract_amount_new] returns 1234.56. *)
Lemma dr_sign_rule_witness :
  balance_amount (T "1,234.56DR") = Some (123456 # 100)
  /\ is_dr (T "1,234.56DR") = true
  /\ parse_balance (T "1,234.56DR") = Some (- (123456 # 100))%Q
  /\ extract_amount_new (T "1,234.56DR") = Some (123456 # 100)
  /\ (0 <= 123456 # 100)%Q.
Proof.
  split; [reflexivity|]. split; [reflexivity|]. split; [reflexivity|].
  split; [reflexivity|].
  exact (proj2 (proj2 (proj2 (dr_sign_rule (T "1,234.56DR") (123456 # 100) eq_refl)))
           (123456 # 100) eq_refl).
Defined.

(** C2 as stated fails on [extract_amount_new]: the token ["1,234.56DR"]
    gives 1234.56, not -1234.56. *)
Lemma dr_sign_counterexample :
  extract_amount_new (T "1,234.56DR") = Some (123456 # 100)
  /\ ~ (123456 # 100 == - (123456 # 100))%Q.
Proof. split; [reflexivity|]. intro H. discriminate H. Qed.




End AmountClaims.

(* ================================================================== *)
(** * Properties of the running-balance verifier *)
(* ================================================================== *)

Module LedgerClaims.







End LedgerClaims.

(* ================================================================== *)
(** * Properties of the step runner *)
(* ================================================================== *)

Module StepClaims.




End StepClaims.

(* ================================================================== *)
(** * Facts about the matcher *)
(* ================================================================== *)

Module RegexFacts.

Lemma prefix_count_spec p h s :
  (prefix_count p h s <= length s)%nat
  /\ (forall n, h = Some n -> (prefix_count p h s <= n)%nat)
  /\ Forall (fun x => p x = true) (firstn (prefix_count p h s) s).
Proof.
  revert h. induction s as [|c r IH]; intro h.
  - simpl. repeat split; [lia | intros; lia | constructor].
  - destruct h as [[|n]|]; cbn [prefix_count].
    + repeat split; [lia | intros; lia | constructor].
    + destruct (p c) eqn:E.
      * destruct (IH (Some n)) as (H1 & H2 & H3). cbn [length firstn].
        repeat split; [lia | | constructor; assumption].
        intros m Hm. injection Hm as <-. specialize (H2 n eq_refl). lia.
      * repeat split; [lia | intros; lia | constructor].
    + destruct (p c) eqn:E.
      * destruct (IH None) as (H1 & H2 & H3). cbn [length firstn].
        repeat split; [lia | intros; discriminate | constructor; assumption].
      * repeat split; [lia | intros; discriminate | constructor].
Qed.

Lemma Forall_firstn_le {A} (P : A -> Prop) (l : list A) j k :
  (j <= k)%nat -> Forall P (firstn k l) -> Forall P (firstn j l).
Proof.
  revert j k. induction l as [|x l IH]; intros j k Hjk H.
  - rewrite firstn_nil. constructor.
  - destruct j as [|j]; [constructor|]. destruct k as [|k]; [lia|].
    cbn [firstn] in *. inversion H; subst. constructor; [assumption|].
    apply (IH j k); [lia | assumption].
Qed.

Lemma try_counts_sound rest keep s lo d caps :
  try_counts rest keep s lo d = Some caps ->
  exists j caps',
    (lo <= j <= lo + d)%nat /\ rest (skipn j s) = Some caps'
    /\ caps = if keep then firstn j s :: caps' else caps'.
Proof.
  induction d as [|d IH]; cbn [try_counts].
  - destruct (rest (skipn (lo + 0) s)) as [caps'|] eqn:E; [|discriminate].
    intro H. injection H as <-. exists (lo + 0)%nat, caps'. repeat split; [lia|lia|exact E].
  - destruct (rest (skipn (lo + S d) s)) as [caps'|] eqn:E.
    + intro H. injection H as <-. exists (lo + S d)%nat, caps'.
      repeat split; [lia|lia|exact E].
    + intro H. destruct (IH H) as (j & caps' & Hj & Hr & Hc).
      exists j, caps'. repeat split; [lia|lia|exact Hr|exact Hc].
Qed.

(** The groups of a match are made of the characters their classes allow,
    in the numbers their bounds allow. *)
Lemma match_atoms_sound atoms anchored s caps :
  match_atoms atoms anchored s = Some caps -> groups_ok atoms caps.
Proof.
  revert s caps. induction atoms as [|a rest IH]; intros s caps; cbn [match_atoms].
  - destruct (anchored && negb (Nat.eqb (length s) 0)); [discriminate|].
    intro H. injection H as <-. constructor.
  - destruct (Nat.ltb (prefix_count (cls a) (hi a) s) (lo a)) eqn:Elt; [discriminate|].
    apply Nat.ltb_ge in Elt. intro H.
    destruct (try_counts_sound _ _ _ _ _ _ H) as (j & caps' & Hj & Hr & ->).
    specialize (IH _ _ Hr). unfold groups_ok. cbn [filter].
    destruct (cap a); [|exact IH].
    constructor; [|exact IH].
    destruct (prefix_count_spec (cls a) (hi a) s) as (H1 & H2 & H3).
    assert (Hjk : (j <= prefix_count (cls a) (hi a) s)%nat) by lia.
    repeat split.
    + apply (Forall_firstn_le _ _ j _ Hjk H3).
    + rewrite length_firstn. lia.
    + intros h Hh. specialize (H2 h Hh). rewrite length_firstn. lia.
Qed.

End RegexFacts.

Import RegexFacts.

(* ================================================================== *)
(** * Facts about the date parser *)
(* ================================================================== *)

Module ParserFacts.

(** ** Digits *)

Lemma digit_value_bound : forall c, implb (is_digit c) (digit_value c <=? 9) = true.
Proof. by_chars. Qed.

Lemma digit_value_range c : is_digit c = true -> 0 <= digit_value c <= 9.
Proof.
  intro H. pose proof (digit_value_bound c) as F. rewrite H in F. simpl in F.
  apply Z.leb_le in F. unfold digit_value in *. pose proof (N2Z.is_nonneg (code c - 48)). lia.
Qed.

Lemma digits_value_short s :
  all_digits s = true -> (length s <= 2)%nat -> 0 <= digits_value s < 100.
Proof.
  unfold all_digits, digits_value. destruct s as [|a [|b [|c r]]]; cbn [forallb length fold_left].
  - lia.
  - rewrite andb_true_r. intros H _. pose proof (digit_value_range a H). lia.
  - intros H _. apply andb_true_iff in H. destruct H as [Ha Hb].
    rewrite andb_true_r in Hb.
    pose proof (digit_value_range a Ha). pose proof (digit_value_range b Hb). lia.
  - intros _ H. lia.
Qed.

Lemma digit_char_is_digit n : is_digit (digit_char n) = true.
Proof.
  unfold digit_char. pose proof (Z.mod_pos_bound n 10 ltac:(lia)) as H.
  remember (n mod 10) as r eqn:E. clear E.
  assert (C : r = 0 \/ r = 1 \/ r = 2 \/ r = 3 \/ r = 4 \/ r = 5 \/ r = 6 \/ r = 7
              \/ r = 8 \/ r = 9) by lia.
  repeat (destruct C as [-> | C]; [reflexivity|]). subst. reflexivity.
Qed.

Lemma pad2_spec n : 0 <= n < 100 -> pad 2 n = [digit_char (n / 10); digit_char n].
Proof.
  intro H. unfold pad. cbn [Nat.add digits_of Nat.leb Nat.sub andb].
  rewrite andb_false_r. cbn [Nat.leb Nat.sub].
  assert (E : (n / 10 <? 10) = true).
  { apply Z.ltb_lt. apply Z.div_lt_upper_bound; lia. }
  rewrite E. reflexivity.
Qed.

Lemma pad4_spec n :
  1000 <= n < 10000 ->
  pad 4 n = [digit_char (n / 10 / 10 / 10); digit_char (n / 10 / 10);
             digit_char (n / 10); digit_char n].
Proof.
  intro H. unfold pad. cbn [Nat.add digits_of Nat.leb Nat.sub andb].
  rewrite !andb_false_r. cbn [Nat.leb Nat.sub].
  assert (E : (n / 10 / 10 / 10 <? 10) = true).
  { apply Z.ltb_lt. repeat (apply Z.div_lt_upper_bound; [lia|]). lia. }
  rewrite E. reflexivity.
Qed.

(** ** Shapes *)

Lemma two_digits_inv s :
  two_digits s = true -> exists a b, s = [a; b] /\ is_digit a = true /\ is_digit b = true.
Proof.
  unfold two_digits, all_digits. destruct s as [|a [|b [|c r]]]; cbn; try discriminate;
    try (rewrite andb_false_r; discriminate).
  rewrite !andb_true_r. intro H. apply andb_true_iff in H. destruct H.
  exists a, b. auto.
Qed.

Lemma pad2_two_digits n : 0 <= n < 100 -> two_digits (pad 2 n) = true.
Proof.
  intro H. rewrite (pad2_spec n H). unfold two_digits, all_digits. cbn [forallb length].
  rewrite !digit_char_is_digit. reflexivity.
Qed.

Lemma dmy_shape_intro (year_len : nat -> bool) dd mm year :
  two_digits dd = true -> two_digits mm = true ->
  all_digits year = true -> year_len (length year) = true ->
  dmy_shape year_len (dd ++ slash ++ mm ++ slash ++ year) = true.
Proof.
  intros Hd Hm Hy Hl.
  destruct (two_digits_inv dd Hd) as (a & b & -> & Ha & Hb).
  destruct (two_digits_inv mm Hm) as (c & d & -> & Hc & Hd').
  change ([a; b] ++ slash ++ [c; d] ++ slash ++ year)
    with (a :: b :: "/"%char :: c :: d :: "/"%char :: year).
  cbn [dmy_shape]. rewrite Ha, Hb, Hc, Hd', Hy, Hl. reflexivity.
Qed.

Lemma all_digits_Forall s : all_digits s = true <-> Forall (fun c => is_digit c = true) s.
Proof. unfold all_digits. rewrite forallb_forall, Forall_forall. reflexivity. Qed.

(** What a group [(\d{lo,hi})] gives. *)
Lemma digit_group lo hi c :
  group_ok (group is_digit lo hi) c ->
  all_digits c = true /\ (lo <= length c <= hi)%nat.
Proof.
  intros (H1 & H2 & H3). cbn in *. split; [apply all_digits_Forall; exact H1|].
  specialize (H3 hi eq_refl). lia.
Qed.

Lemma expand_year_shape year :
  all_digits year = true -> (2 <= length year <= 4)%nat ->
  all_digits (expand_year year) = true
  /\ (Nat.eqb (length (expand_year year)) 4 || Nat.eqb (length (expand_year year)) 3) = true.
Proof.
  intros Hd Hl. unfold expand_year.
  destruct (Nat.eqb (length year) 2) eqn:E.
  - apply Nat.eqb_eq in E.
    destruct (digits_value year <=? 30); unfold all_digits in *;
      rewrite forallb_app, Hd, length_app, E; split; reflexivity.
  - apply Nat.eqb_neq in E. split; [exact Hd|].
    assert (C : length year = 3%nat \/ length year = 4%nat) by lia.
    destruct C as [-> | ->]; reflexivity.
Qed.

Lemma format_numeric_shape day month year :
  all_digits day = true -> (length day <= 2)%nat ->
  all_digits month = true -> (length month <= 2)%nat ->
  all_digits year = true ->
  (Nat.eqb (length year) 4 || Nat.eqb (length year) 3) = true ->
  date_shape (format_numeric day month year) = true.
Proof.
  intros. unfold date_shape, format_numeric. apply dmy_shape_intro; try assumption;
    apply pad2_two_digits; apply digits_value_short; assumption.
Qed.

Lemma format_named_shape day month_num year :
  all_digits day = true -> (length day <= 2)%nat ->
  two_digits month_num = true ->
  all_digits year = true ->
  (Nat.eqb (length year) 4 || Nat.eqb (length year) 3) = true ->
  date_shape (format_named day month_num year) = true.
Proof.
  intros. unfold date_shape, format_named. apply dmy_shape_intro; try assumption.
  apply pad2_two_digits. apply digits_value_short; assumption.
Qed.

(** ** Month numbers *)

Lemma dict_get_in (d : dict) k v : dict_get d k = Some v -> In v (map snd d).
Proof.
  induction d as [|[k' v'] r IH]; cbn [dict_get]; [discriminate|].
  destruct (text_eqb k k').
  - intro H. injection H as <-. left. reflexivity.
  - intro H. right. apply IH. exact H.
Qed.

Lemma month_values : forallb two_digits (map snd extended_month_map) = true.
Proof. vm_compute. reflexivity. Qed.

Lemma month_value_shape v : In v (map snd extended_month_map) -> two_digits v = true.
Proof. intro H. pose proof month_values as F. rewrite forallb_forall in F. apply F, H. Qed.

Section Parser.

Variable get_close_matches : text -> list text -> option text.
Variable to_datetime : bool -> text -> option (Z * Z * Z).

(** A time stamp has a day and a month of at most two digits and a year of
    four. *)
Hypothesis timestamp_range : forall dayfirst x day month year,
  to_datetime dayfirst x = Some (day, month, year) ->
  0 <= day < 100 /\ 0 <= month < 100 /\ 1000 <= year < 10000.

Local Abbreviation normalize_month := (normalize_month get_close_matches).
Local Abbreviation parse_custom_date := (parse_custom_date get_close_matches to_datetime).

Lemma normalize_month_shape token v : normalize_month token = Some v -> two_digits v = true.
Proof.
  unfold Dates.normalize_month. cbv zeta. intro H. apply month_value_shape.
  destruct (Nat.eqb (length token) 0); [discriminate|].
  destruct (dict_get extended_month_map (strip (upper token))) eqn:E1.
  { injection H as <-. apply (dict_get_in _ _ _ E1). }
  match type of H with
  | match ?c with _ => _ end = _ => destruct c eqn:E2
  end.
  { injection H as <-. destruct (Nat.eqb _ 0); [discriminate|].
    apply (dict_get_in _ _ _ E2). }
  match type of H with
  | match ?c with _ => _ end = _ => destruct c eqn:E3
  end.
  { injection H as <-. destruct (Nat.leb 4 _); [|discriminate].
    apply (dict_get_in _ _ _ E3). }
  match type of H with
  | match ?c with _ => _ end = _ => destruct c eqn:E4
  end.
  { injection H as <-. destruct (Nat.leb 3 _); [|discriminate].
    apply (dict_get_in _ _ _ E4). }
  destruct (get_close_matches _ _) as [m|]; [apply (dict_get_in _ _ _ H)|].
  destruct (find _ extended_month_map) as [[k w]|] eqn:Ef; [|discriminate].
  injection H as <-. apply find_some in Ef. apply in_map_iff. exists (k, w).
  split; [reflexivity | apply Ef].
Qed.

Lemma strftime_shape day month year :
  0 <= day < 100 -> 0 <= month < 100 -> 1000 <= year < 10000 ->
  date_shape (strftime (day, month, year)) = true.
Proof.
  intros Hd Hm Hy. unfold date_shape, strftime.
  apply dmy_shape_intro; try (apply pad2_two_digits; assumption).
  - rewrite (pad4_spec year Hy). unfold all_digits. cbn [forallb].
    rewrite !digit_char_is_digit. reflexivity.
  - rewrite (pad4_spec year Hy). reflexivity.
Qed.

Lemma good_fallback x : good (parse_fallback to_datetime x).
Proof.
  unfold parse_fallback.
  assert (H : forall d b, to_datetime b x = Some d ->
            good (if starts_with (T "00/") (strftime d) then None else Some (strftime d))).
  { intros [[day month] year] b Hd. destruct (starts_with _ _); [exact I|].
    right. destruct (timestamp_range _ _ _ _ _ Hd) as (? & ? & ?).
    apply strftime_shape; assumption. }
  destruct (to_datetime true x) as [d|] eqn:E1; [exact (H d true E1)|].
  destruct (to_datetime false x) as [d|] eqn:E2; [exact (H d false E2)|exact I].
Qed.

Lemma year_only_shape s caps : match_atoms year_only true s = Some caps -> year_shape s = true.
Proof.
  unfold year_only. cbn [match_atoms cls hi lo cap].
  destruct (Nat.ltb (prefix_count is_digit (Some 4%nat) s) 4) eqn:Elt; [discriminate|].
  apply Nat.ltb_ge in Elt. intro H.
  destruct (try_counts_sound _ _ _ _ _ _ H) as (j & caps' & Hj & Hr & _).
  destruct (prefix_count_spec is_digit (Some 4%nat) s) as (H1 & H2 & H3).
  specialize (H2 4%nat eq_refl).
  destruct (Nat.eqb (length (skipn j s)) 0) eqn:E0; [|discriminate].
  apply Nat.eqb_eq in E0. rewrite length_skipn in E0.
  assert (Hlen : length s = 4%nat) by lia.
  assert (Hk : prefix_count is_digit (Some 4%nat) s = 4%nat) by lia.
  rewrite Hk in H3. rewrite <- Hlen in H3. rewrite firstn_all in H3.
  unfold year_shape. rewrite Hlen. apply andb_true_iff. split; [|reflexivity].
  apply all_digits_Forall. exact H3.
Qed.

(** The three groups of a match of a pattern with three groups. *)
Ltac three_groups H :=
  let G := fresh "G" in
  pose proof (match_atoms_sound _ _ _ _ H) as G;
  unfold groups_ok in G;
  cbv [filter cap group_plus plus star one mixed_pattern1 mixed_pattern2
       day_month_name_year month_name_day_year year_month_day day_month_year
       compact_ymd compact_day_name_year compact_name_day_year] in G;
  cbn [cap group] in G;
  repeat match type of G with
         | Forall2 _ (_ :: _) _ =>
             let G1 := fresh "G" in
             inversion G as [|? ? ? ? G1 G']; subst; clear G; rename G' into G
         | Forall2 _ [] _ => inversion G; subst; clear G
         end.

Lemma good_or_else (a b : option text) :
  good a -> good b -> good (match a with Some r => Some r | None => b end).
Proof. intros Ha Hb. destruct a; assumption. Qed.

Lemma good_groups3 (m : option (list text)) f :
  (forall a b c, m = Some [a; b; c] -> good (f a b c)) -> good (groups3 m f).
Proof. intro H. destruct m as [[|a [|b [|c [|d l]]]]|]; cbn [groups3]; auto; exact I. Qed.

Lemma good_groups4 (m : option (list text)) f :
  (forall p a b c, m = Some [p; a; b; c] -> good (f a b c)) -> good (groups4 m f).
Proof.
  intro H. destruct m as [[|p [|a [|b [|c [|d l]]]]]|]; cbn [groups4]; eauto; exact I.
Qed.

Lemma good_named day month_str year :
  all_digits day = true -> (length day <= 2)%nat ->
  all_digits year = true -> (2 <= length year <= 4)%nat ->
  good (named get_close_matches day month_str year).
Proof.
  intros Hd Hdl Hy Hyl. unfold named.
  destruct (normalize_month month_str) as [m|] eqn:E; [|exact I].
  right. destruct (expand_year_shape year Hy Hyl) as [H1 H2].
  apply format_named_shape; try assumption.
  apply (normalize_month_shape _ _ E).
Qed.

Lemma good_numeric day month year :
  all_digits day = true -> (length day <= 2)%nat ->
  all_digits month = true -> (length month <= 2)%nat ->
  all_digits year = true -> length year = 4%nat ->
  good (Some (format_numeric day month year)).
Proof.
  intros. right. apply format_numeric_shape; try assumption.
  match goal with H : length year = _ |- _ => rewrite H end. reflexivity.
Qed.

Ltac group_facts :=
  repeat match goal with
         | H : group_ok (group is_digit _ _) _ |- _ =>
             apply digit_group in H; destruct H
         end.

Ltac by_groups :=
  let E := fresh "E" in
  intros ? ? ? E; three_groups E; group_facts;
  first [ apply good_named; (assumption || lia)
        | apply good_numeric; (assumption || lia) ].

Lemma good_parse_cleaned x : good (parse_cleaned get_close_matches to_datetime x).
Proof.
  unfold parse_cleaned. cbv zeta.
  repeat (apply good_or_else; [first [apply good_groups3; by_groups | idtac]|]).
  - destruct (match_atoms year_only true (clean_date_text x)) eqn:E; [|exact I].
    left. apply (year_only_shape _ _ E).
  - apply good_fallback.
Qed.

(** Every result of the parser is a bare year of four digits or has the
    shape of a date. *)
Lemma good_parse x : good (parse_custom_date x).
Proof.
  unfold Dates.parse_custom_date. cbv zeta.
  destruct (Nat.eqb (length (strip x)) 0); [exact I|].
  destruct (has_zero_pair (strip x)); [exact I|].
  apply good_or_else; [|apply good_or_else; [|apply good_parse_cleaned]].
  - apply good_groups4. intros p a b c E. three_groups E. group_facts. right.
    match goal with
    | Hy : all_digits c = true, Hl : (2 <= length c <= 4)%nat |- _ =>
        destruct (expand_year_shape c Hy Hl)
    end.
    apply format_numeric_shape; try assumption; lia.
  - apply good_groups4. intros p a b c E. three_groups E. group_facts.
    apply good_named; try assumption; lia.
Qed.

End Parser.

End ParserFacts.

Import ParserFacts.

(* ================================================================== *)
(** * Facts about frames and rows *)
(* ================================================================== *)

Module FrameFacts.

Lemma nrows_reverse df : nrows (reverse_rows df) = nrows df.
Proof. destruct df as [|[n v] r]; [reflexivity|]. simpl. apply length_rev. Qed.

Lemma names_reverse df : column_names (reverse_rows df) = column_names df.
Proof.
  unfold column_names, reverse_rows. rewrite map_map. apply map_ext. reflexivity.
Qed.

Lemma get_col_reverse df name : get_col (reverse_rows df) name = rev (get_col df name).
Proof.
  induction df as [|[n v] r IH]; [reflexivity|]. cbn [reverse_rows map get_col fst snd].
  destruct (text_eqb name n); [reflexivity | exact IH].
Qed.

Lemma row_at_reverse df i :
  well_formed df -> (i < nrows df)%nat ->
  row_at (reverse_rows df) i = row_at df (nrows df - 1 - i).
Proof.
  unfold well_formed, row_at, reverse_rows. intros Hwf Hi. rewrite map_map.
  apply map_ext_in. intros [n v] Hin. cbn [fst snd].
  rewrite Forall_forall in Hwf. specialize (Hwf _ Hin). cbn [snd] in Hwf.
  rewrite rev_nth by lia. f_equal. lia.
Qed.

Lemma well_formed_reverse df : well_formed df -> well_formed (reverse_rows df).
Proof.
  unfold well_formed. rewrite nrows_reverse. intro H. unfold reverse_rows.
  apply Forall_map. eapply Forall_impl; [|exact H]. intros [n v] Hv. cbn [snd] in *.
  rewrite length_rev. exact Hv.
Qed.

(** A blank row, in terms of its cells. *)
Lemma is_empty_row_spec df idx :
  is_empty_row df idx = forallb cell_empty (row_at df idx).
Proof.
  unfold is_empty_row, row_at. induction df as [|col r IH]; [reflexivity|].
  cbn [forallb map]. rewrite IH. reflexivity.
Qed.

Lemma is_empty_row_reverse df i :
  well_formed df -> (i < nrows df)%nat ->
  is_empty_row (reverse_rows df) (nrows df - 1 - i) = is_empty_row df i.
Proof.
  intros Hwf Hi. rewrite !is_empty_row_spec.
  rewrite row_at_reverse by (try assumption; lia). f_equal. f_equal. lia.
Qed.

Lemma is_empty_row_set df name v idx :
  is_empty_row df idx = true -> cell_empty (nth idx v CMissing) = true ->
  is_empty_row (set_col df name v) idx = true.
Proof.
  intros H Hv. unfold is_empty_row in *.
  induction df as [|[n w] r IH]; cbn [set_col forallb snd].
  - rewrite Hv. reflexivity.
  - cbn [forallb snd] in H. apply andb_true_iff in H. destruct H as [H1 H2].
    destruct (text_eqb name n); cbn [forallb snd].
    + rewrite Hv, H2. reflexivity.
    + rewrite H1, (IH H2). reflexivity.
Qed.

Lemma is_empty_row_drop df name idx :
  is_empty_row df idx = true -> is_empty_row (drop_col df name) idx = true.
Proof.
  unfold is_empty_row, drop_col. rewrite !forallb_forall. intros H col Hin.
  apply filter_In in Hin. apply H, Hin.
Qed.

Lemma is_empty_row_cell df name idx :
  is_empty_row df idx = true -> cell_empty (nth idx (get_col df name) CMissing) = true.
Proof.
  unfold is_empty_row. induction df as [|[n w] r IH]; cbn [forallb get_col snd].
  - intros _. destruct idx; reflexivity.
  - intro H. apply andb_true_iff in H. destruct H as [H1 H2].
    destruct (text_eqb name n); [exact H1 | exact (IH H2)].
Qed.

Lemma nrows_set df name v :
  has_col df name = true -> length v = nrows df -> nrows (set_col df name v) = nrows df.
Proof.
  destruct df as [|[n w] r]; [discriminate|]. intros _ Hv. cbn [set_col].
  destruct (text_eqb name n); cbn [nrows]; [exact Hv | reflexivity].
Qed.

Lemma Forall_set (k : nat) (df : frame) name v :
  length v = k -> Forall (fun col => length (snd col) = k) df ->
  Forall (fun col : text * list cell => length (snd col) = k) (set_col df name v).
Proof.
  intros Hv H. induction H as [|[n w] r Hw Hr IH]; cbn [set_col].
  - constructor; [exact Hv | constructor].
  - destruct (text_eqb name n); constructor; assumption.
Qed.

Lemma well_formed_set df name v :
  has_col df name = true -> length v = nrows df -> well_formed df ->
  well_formed (set_col df name v).
Proof.
  intros Hh Hv Hwf. unfold well_formed. rewrite (nrows_set df name v Hh Hv).
  apply Forall_set; assumption.
Qed.

End FrameFacts.

Import FrameFacts.

(* ================================================================== *)
(** * Blank rows in the chronology repair *)
(* ================================================================== *)

Module BlankRows.

Lemma length_assign {A} (l : list A) j v : length (assign l j v) = length l.
Proof.
  revert j. induction l as [|x l IH]; intros [|j]; cbn [assign length]; auto.
Qed.

Lemma nth_assign_other {A} (l : list A) j v i d :
  i <> j -> nth i (assign l j v) d = nth i l d.
Proof.
  revert i j. induction l as [|x l IH]; intros i j Hij; [reflexivity|].
  destruct j as [|j]; destruct i as [|i]; cbn [assign nth]; try reflexivity; try lia.
  apply IH. lia.
Qed.

Lemma date_at_assign_other l j v i : i <> j -> date_at (assign l j v) i = date_at l i.
Proof. apply nth_assign_other. Qed.

Lemma assign_all_keeps l dates i :
  (forall p, In p l -> fst p <> i) -> date_at (assign_all dates l) i = date_at dates i.
Proof.
  unfold assign_all. revert dates. induction l as [|p l IH]; intros dates H; [reflexivity|].
  cbn [fold_left]. rewrite IH by (intros q Hq; apply H; right; exact Hq).
  apply date_at_assign_other. intro E. apply (H p); [left; reflexivity | auto].
Qed.

Lemma length_assign_all l dates : length (assign_all dates l) = length dates.
Proof.
  unfold assign_all. revert dates. induction l as [|p l IH]; intro dates; [reflexivity|].
  cbn [fold_left]. rewrite IH. apply length_assign.
Qed.

Lemma empty_date_cell dates idx :
  date_at dates idx = [] -> cell_empty (nth idx (map CText dates) CMissing) = true.
Proof.
  unfold date_at. intro H. destruct (Nat.lt_ge_cases idx (length dates)) as [Hi|Hi].
  - rewrite (nth_indep _ CMissing (CText [])) by (rewrite length_map; exact Hi).
    rewrite (map_nth CText). rewrite H. reflexivity.
  - rewrite nth_overflow by (rewrite length_map; exact Hi). reflexivity.
Qed.

Lemma blank_with_dates df dates idx :
  is_empty_row df idx = true -> date_at dates idx = [] ->
  is_empty_row (with_dates df dates) idx = true.
Proof.
  intros H Hd. unfold with_dates. apply is_empty_row_set; [exact H|].
  apply empty_date_cell. exact Hd.
Qed.

Section Repair.

Variable get_close_matches : text -> list text -> option text.
Variable to_datetime : bool -> text -> option (Z * Z * Z).
Variable str_float : Q -> text.

Local Abbreviation repair_row := (repair_row get_close_matches to_datetime str_float).
Local Abbreviation repair_loop := (repair_loop get_close_matches to_datetime str_float).
Local Abbreviation repair_run := (repair_run get_close_matches to_datetime str_float).
Local Abbreviation run_value_dates :=
  (run_value_dates get_close_matches to_datetime str_float).
Local Abbreviation create_list := (create_date_list_through_backtracking str_float).
Local Abbreviation date_correction :=
  (date_correction get_close_matches to_datetime str_float).
Local Abbreviation parsed_dates := (parsed_dates get_close_matches to_datetime str_float).

(** A row of the repair loop leaves the dates as they are or assigns the
    date of a row that is not blank. *)
Lemma repair_row_dates df v o st j :
  fst (repair_row df v o st j) = fst st
  \/ (is_empty_row df j = false /\ exists c, fst (repair_row df v o st j) = assign (fst st) j c).
Proof.
  unfold Chronology.repair_row. destruct st as [dates made]. cbv zeta.
  destruct (is_empty_row df j) eqn:Eb; [left; reflexivity|].
  destruct (Nat.eqb (length (date_at dates j)) 0); [left; reflexivity|].
  destruct (is_valid_date (date_at dates j) && _); [|left; reflexivity].
  match goal with
  | |- fst (match ?cand with Some _ => _ | None => _ end) = _ \/ _ =>
      destruct cand as [c|]
  end; [|left; reflexivity].
  destruct (_ && _); [|left; reflexivity].
  right. split; [reflexivity|]. exists c. reflexivity.
Qed.

Lemma repair_row_keeps df v o st j idx :
  is_empty_row df idx = true ->
  date_at (fst (repair_row df v o st j)) idx = date_at (fst st) idx.
Proof.
  intro Hb. destruct (repair_row_dates df v o st j) as [-> | (Hj & c & ->)]; [reflexivity|].
  apply date_at_assign_other. intro E. subst. congruence.
Qed.

Lemma repair_row_length df v o st j :
  length (fst (repair_row df v o st j)) = length (fst st).
Proof.
  destruct (repair_row_dates df v o st j) as [-> | (Hj & c & ->)]; [reflexivity|].
  apply length_assign.
Qed.

Lemma repair_pass_keeps df v o rows st idx :
  is_empty_row df idx = true ->
  date_at (fst (fold_left (repair_row df v o) rows st)) idx = date_at (fst st) idx.
Proof.
  intro Hb. revert st. induction rows as [|j rows IH]; intro st; [reflexivity|].
  cbn [fold_left]. rewrite IH. apply repair_row_keeps. exact Hb.
Qed.

Lemma repair_pass_length df v o rows st :
  length (fst (fold_left (repair_row df v o) rows st)) = length (fst st).
Proof.
  revert st. induction rows as [|j rows IH]; intro st; [reflexivity|].
  cbn [fold_left]. rewrite IH. apply repair_row_length.
Qed.

(** The repair loop keeps a blank row blank and its date empty. *)
Lemma repair_loop_keeps k v o df dates idx :
  is_empty_row df idx = true -> date_at dates idx = [] ->
  is_empty_row (fst (repair_loop k v o df dates)) idx = true
  /\ date_at (snd (repair_loop k v o df dates)) idx = [].
Proof.
  revert df dates. induction k as [|k IH]; intros df dates Hb Hd; cbn [Chronology.repair_loop].
  - split; assumption.
  - pose proof (repair_pass_keeps df v o (seq 0 (nrows df)) (dates, false) idx Hb) as Hk.
    destruct (fold_left (repair_row df v o) (seq 0 (nrows df)) (dates, false))
      as [corrected made] eqn:E.
    cbn [fst] in Hk. rewrite Hd in Hk.
    pose proof (blank_with_dates df corrected idx Hb Hk) as Hb'.
    destruct made; [apply IH; assumption|]. split; assumption.
Qed.

Lemma repair_loop_length k v o df dates :
  length (snd (repair_loop k v o df dates)) = length dates.
Proof.
  revert df dates. induction k as [|k IH]; intros df dates; cbn [Chronology.repair_loop].
  - reflexivity.
  - pose proof (repair_pass_length df v o (seq 0 (nrows df)) (dates, false)) as Hl.
    destruct (fold_left (repair_row df v o) (seq 0 (nrows df)) (dates, false))
      as [corrected made] eqn:E.
    cbn [fst] in Hl. destruct made; [rewrite IH; exact Hl | exact Hl].
Qed.

(** ** Runs *)

Lemma group_step_members st j k :
  In k (concat (fst (group_step st j)) ++ snd (group_step st j)) ->
  In k (concat (fst st) ++ snd st) \/ k = j.
Proof.
  destruct st as [groups current]. cbn [group_step fst snd].
  destruct current as [|c current'].
  - cbn [fst snd]. rewrite !in_app_iff. cbn [In]. intuition congruence.
  - destruct (Nat.eqb j (S (last (c :: current') 0%nat))); cbn [fst snd].
    + rewrite !in_app_iff. cbn [In]. intuition congruence.
    + rewrite concat_app, !in_app_iff. cbn [concat In]. rewrite app_nil_r.
      intuition congruence.
Qed.

Lemma group_fold_members l st k :
  In k (concat (fst (fold_left group_step l st)) ++ snd (fold_left group_step l st)) ->
  In k (concat (fst st) ++ snd st) \/ In k l.
Proof.
  revert st. induction l as [|j l IH]; intro st; cbn [fold_left]; [tauto|].
  intro H. destruct (IH _ H) as [H'|H']; [|right; right; exact H'].
  destruct (group_step_members st j k H') as [?| ->]; [left; assumption|].
  right. left. reflexivity.
Qed.

(** The rows of the runs are rows of [remaining_invalid]. *)
Lemma backtrack_groups_members l g k : In g (backtrack_groups l) -> In k g -> In k l.
Proof.
  unfold backtrack_groups. intros Hg Hk.
  pose proof (group_fold_members l ([], []) k) as H.
  destruct (fold_left group_step l ([], [])) as [groups current]. cbn [fst snd] in H.
  assert (Hin : In k (concat groups ++ current)).
  { destruct current as [|c current'].
    - rewrite app_nil_r. apply in_concat. exists g. split; assumption.
    - apply in_app_iff in Hg. destruct Hg as [Hg | [<- | []]].
      + apply in_app_iff. left. apply in_concat. exists g. split; assumption.
      + apply in_app_iff. right. exact Hk. }
  destruct (H Hin) as [[]|]; assumption.
Qed.

Lemma stepped_members z rows p : In p (stepped z rows) -> In (fst p) (map fst rows).
Proof.
  revert z. induction rows as [|[j delta] rows IH]; intro z; cbn [stepped]; [tauto|].
  destruct (is_valid_date _).
  - intros [<- | H]; [left; reflexivity | right; exact (IH _ H)].
  - intro H. right. exact (IH _ H).
Qed.

Lemma spaced_members b t s remaining p : In p (spaced b t s remaining) -> In (fst p) remaining.
Proof.
  unfold spaced. intro H. apply in_flat_map in H. destruct H as ([i j] & Hin & H).
  apply in_combine_r in Hin. destruct (is_valid_date _); [|destruct H].
  destruct H as [<- | []]. exact Hin.
Qed.

Lemma map_fst_pairs {A} (l : list nat) (f : nat -> A) : map fst (map (fun j => (j, f j)) l) = l.
Proof. rewrite map_map. cbn [fst]. apply map_id. Qed.

(** The backtracking gives dates to missing rows only. *)
Lemma create_list_members df missing o v p :
  In p (create_list df missing o v) -> In (fst p) missing.
Proof.
  unfold create_date_list_through_backtracking.
  destruct missing as [|first rest]; [tauto|]. cbv zeta.
  set (missing := first :: rest).
  set (results := flat_map _ missing).
  assert (Hres : forall q, In q results -> In (fst q) missing).
  { intros q Hq. apply in_flat_map in Hq. destruct Hq as (j & Hj & Hq).
    destruct (_ && _); [|destruct Hq]. destruct Hq as [<- | []]. exact Hj. }
  destruct (Nat.eqb (length results) (length missing)); [apply Hres|].
  set (remaining := filter _ missing).
  assert (Hrem : forall j, In j remaining -> In j missing).
  { intros j Hj. apply filter_In in Hj. apply Hj. }
  destruct remaining as [|fr rem'] eqn:Er; [apply Hres|].
  rewrite <- Er in *. clear Er.
  intro H. apply in_app_iff in H. destruct H as [H|H]; [apply Hres; exact H|].
  apply Hrem.
  destruct (prev_valid _ _) as [b|]; destruct (next_valid _ _) as [a|].
  - destruct (0 <? _).
    + apply (spaced_members _ _ _ _ _ H).
    + apply stepped_members in H. rewrite map_fst_pairs in H. exact H.
  - apply stepped_members in H. rewrite map_fst_pairs in H. exact H.
  - apply stepped_members in H. rewrite map_fst_pairs in H. apply in_rev. exact H.
  - destruct (index_of_first_valid _) as [[ai ad]|]; [|destruct H].
    destruct (Nat.ltb ai fr); apply stepped_members in H; rewrite map_fst_pairs in H;
      [exact H | apply in_rev; exact H].
Qed.

Lemma run_value_dates_members df v o dates group p :
  In p (run_value_dates df v o dates group) -> In (fst p) group.
Proof.
  unfold Chronology.run_value_dates. intro H. apply in_flat_map in H.
  destruct H as (j & Hj & H).
  destruct (Nat.eqb _ 0); [destruct H|].
  destruct (parse _ _ _) as [pv|]; [|destruct H].
  destruct (is_valid_date pv); [|destruct H].
  destruct (same_neighbours _ _).
  - destruct H as [<- | []]. exact Hj.
  - destruct (is_date_in_order _ _ _ _); [|destruct H]. destruct H as [<- | []]. exact Hj.
Qed.

Lemma shared_step_keeps st j idx :
  idx <> j -> date_at (fst (shared_step st j)) idx = date_at (fst st) idx.
Proof.
  intro H. unfold shared_step. destruct st as [dates rem].
  destruct (same_neighbours _ _); cbn [fst]; [|reflexivity].
  apply date_at_assign_other. exact H.
Qed.

Lemma shared_step_remaining st j k : In k (snd (shared_step st j)) -> In k (snd st).
Proof.
  unfold shared_step. destruct st as [dates rem].
  destruct (same_neighbours _ _); cbn [snd]; [|tauto].
  intro H. apply filter_In in H. apply H.
Qed.

Lemma shared_fold_keeps l st idx :
  ~ In idx l ->
  date_at (fst (fold_left shared_step l st)) idx = date_at (fst st) idx
  /\ (forall k, In k (snd (fold_left shared_step l st)) -> In k (snd st)).
Proof.
  revert st. induction l as [|j l IH]; intros st H; cbn [fold_left]; [tauto|].
  destruct (IH (shared_step st j)) as [H1 H2]; [intro Hin; apply H; right; exact Hin|].
  split.
  - rewrite H1. apply shared_step_keeps. intro E. apply H. left. auto.
  - intros k Hk. apply (shared_step_remaining st j). apply H2. exact Hk.
Qed.

Lemma apply_backtracked_keeps dates p idx :
  fst p <> idx -> date_at (apply_backtracked dates p) idx = date_at dates idx.
Proof.
  intro H. unfold apply_backtracked. destruct p as [j d]. cbn [fst] in H.
  destruct (is_valid_date d); [|reflexivity].
  destruct (same_neighbours _ _); apply date_at_assign_other; auto.
Qed.

Lemma backtracked_fold_keeps l dates idx :
  (forall p, In p l -> fst p <> idx) ->
  date_at (fold_left apply_backtracked l dates) idx = date_at dates idx.
Proof.
  revert dates. induction l as [|p l IH]; intros dates H; cbn [fold_left]; [reflexivity|].
  rewrite IH by (intros q Hq; apply H; right; exact Hq).
  apply apply_backtracked_keeps. apply H. left. reflexivity.
Qed.

(** The repair of a run writes the rows of the run only. *)
Lemma repair_run_keeps df v o dates group idx :
  ~ In idx group -> date_at (repair_run df v o dates group) idx = date_at dates idx.
Proof.
  intro H. unfold Chronology.repair_run. cbv zeta.
  set (d1 := assign_all dates _).
  assert (H1 : date_at d1 idx = date_at dates idx).
  { apply assign_all_keeps. intros p Hp E. apply H. rewrite <- E.
    apply (run_value_dates_members _ _ _ _ _ _ Hp). }
  set (rem := filter _ group).
  assert (Hrem : forall k, In k rem -> In k group).
  { intros k Hk. apply filter_In in Hk. apply Hk. }
  destruct (shared_fold_keeps rem (d1, rem) idx) as [H2 H3].
  { intro Hin. apply H, Hrem, Hin. }
  destruct (fold_left shared_step rem (d1, rem)) as [d2 rem2].
  cbn [fst snd] in H2, H3.
  rewrite backtracked_fold_keeps; [congruence|].
  intros p Hp E. apply H, Hrem, H3. rewrite <- E.
  apply (create_list_members _ _ _ _ _ Hp).
Qed.

Lemma runs_keep df v o groups dates idx :
  (forall g, In g groups -> ~ In idx g) ->
  date_at (fold_left (repair_run df v o) groups dates) idx = date_at dates idx.
Proof.
  revert dates. induction groups as [|g groups IH]; intros dates H; cbn [fold_left];
    [reflexivity|].
  rewrite IH by (intros g' Hg'; apply H; right; exact Hg').
  apply repair_run_keeps. apply H. left. reflexivity.
Qed.

Lemma blank_not_remaining df dates idx :
  is_empty_row df idx = true -> ~ In idx (remaining_invalid df dates).
Proof.
  intros Hb Hin. unfold remaining_invalid in Hin. apply filter_In in Hin.
  destruct Hin as [_ Hin]. rewrite Hb in Hin. discriminate Hin.
Qed.

(** ** The verification pass *)

Lemma verify_row_keeps df o dates j idx :
  is_empty_row df idx = true -> date_at (verify_row df o dates j) idx = date_at dates idx.
Proof.
  intro Hb. unfold verify_row. cbv zeta.
  destruct (is_empty_row df j) eqn:Ej; [reflexivity|].
  assert (Hij : idx <> j) by (intro E; subst; congruence).
  destruct (is_valid_date _); [|reflexivity].
  destruct (is_date_in_order _ _ _ _); [reflexivity|].
  destruct (same_neighbours _ _); [apply date_at_assign_other; exact Hij|].
  destruct (if is_ascending o then _ else _) as [b|]; [|reflexivity].
  destruct (datetime_of b); [apply date_at_assign_other; exact Hij | reflexivity].
Qed.

Lemma verify_pass_keeps df o rows dates idx :
  is_empty_row df idx = true ->
  date_at (fold_left (verify_row df o) rows dates) idx = date_at dates idx.
Proof.
  intro Hb. revert dates. induction rows as [|j rows IH]; intro dates; [reflexivity|].
  cbn [fold_left]. rewrite IH. apply verify_row_keeps. exact Hb.
Qed.

(** ** [date_correction] *)

Lemma nth_map_seq {A} (f : nat -> A) n i d :
  (i < n)%nat -> nth i (map f (seq 0 n)) d = f i.
Proof.
  intro H. rewrite (nth_indep _ d (f 0%nat)) by (rewrite length_map, length_seq; exact H).
  rewrite map_nth. rewrite seq_nth by exact H. reflexivity.
Qed.

Lemma parsed_dates_blank df idx :
  is_empty_row df idx = true -> date_at (parsed_dates df) idx = [].
Proof.
  intro Hb. unfold Chronology.parsed_dates, date_at.
  destruct (Nat.lt_ge_cases idx (nrows df)) as [Hi|Hi].
  - rewrite nth_map_seq by exact Hi. rewrite Hb. reflexivity.
  - apply nth_overflow. rewrite length_map, length_seq. exact Hi.
Qed.

(** After [date_correction] a blank row is blank, and its date is the
    empty text. *)
Lemma date_correction_blank df idx :
  is_empty_row df idx = true ->
  is_empty_row (fst (date_correction df)) idx = true
  /\ (has_col df xn = true ->
      date_at (map date_cell_text (get_col (fst (date_correction df)) xn)) idx = []).
Proof.
  intro Hb. unfold Chronology.date_correction.
  destruct (has_col df xn) eqn:Eh; cbn [negb fst]; [|split; [exact Hb|discriminate]].
  cbv zeta.
  pose proof (parsed_dates_blank df idx Hb) as H0.
  pose proof (blank_with_dates df _ idx Hb H0) as Hb0.
  destruct (repair_loop_keeps 5
              (find_value_date_col df) (get_date_order (parsed_dates df))
              (with_dates df (parsed_dates df)) (parsed_dates df) idx Hb0 H0) as [Hb1 H1].
  destruct (repair_loop 5 _ _ _ _) as [df1 dates1]. cbn [fst snd] in *.
  set (dates2 := fold_left _ (backtrack_groups _) dates1).
  assert (H2 : date_at dates2 idx = []).
  { unfold dates2. rewrite runs_keep; [exact H1|].
    intros g Hg Hin. apply (blank_not_remaining df1 dates1 idx Hb1).
    apply (backtrack_groups_members _ g idx Hg Hin). }
  pose proof (blank_with_dates df1 dates2 idx Hb1 H2) as Hb2.
  set (dates3 := fold_left _ (seq 0 _) dates2).
  assert (H3 : date_at dates3 idx = []).
  { unfold dates3. rewrite verify_pass_keeps by exact Hb2. exact H2. }
  split.
  - apply blank_with_dates; assumption.
  - intros _. unfold with_dates. rewrite LedgerFacts.get_set_same.
    rewrite map_map. cbn [date_cell_text]. rewrite map_id. exact H3.
Qed.

End Repair.

End BlankRows.

Import BlankRows.

(* ================================================================== *)
(** * Blank rows through the driver *)
(* ================================================================== *)

Module BlankRowsDriver.

Lemma has_col_set df name v : has_col (set_col df name v) name = true.
Proof.
  unfold has_col, mem_text, column_names.
  induction df as [|[n w] r IH]; cbn [set_col map existsb fst].
  - rewrite text_eqb_refl. reflexivity.
  - destruct (text_eqb name n) eqn:E; cbn [map existsb fst]; rewrite E; [reflexivity|].
    exact IH.
Qed.

Lemma empty_cell_invalid c : cell_empty c = true -> is_valid_date (date_cell_text c) = false.
Proof.
  destruct c as [q| |s]; cbn [cell_empty date_cell_text]; intro H;
    [discriminate | reflexivity |].
  unfold is_valid_date. rewrite H. reflexivity.
Qed.

Section Driver.

Variable get_close_matches : text -> list text -> option text.
Variable to_datetime : bool -> text -> option (Z * Z * Z).
Variable str_float : Q -> text.

Local Abbreviation repair_row := (repair_row get_close_matches to_datetime str_float).
Local Abbreviation repair_loop := (repair_loop get_close_matches to_datetime str_float).
Local Abbreviation repair_run := (repair_run get_close_matches to_datetime str_float).
Local Abbreviation date_correction :=
  (date_correction get_close_matches to_datetime str_float).
Local Abbreviation parsed_dates := (parsed_dates get_close_matches to_datetime str_float).
Local Abbreviation parse_cell := (parse_cell get_close_matches to_datetime str_float).
Local Abbreviation parse_date_columns :=
  (parse_date_columns get_close_matches to_datetime str_float).
Local Abbreviation fix_year_row := (fix_year_row str_float).
Local Abbreviation fix_years := (fix_chronological_year_issues str_float).
Local Abbreviation process_all_dates_order :=
  (process_all_dates_order get_close_matches to_datetime str_float).

(** ** The frame through [date_correction] *)

Lemma dated_with_dates n df dates :
  dated n df -> length dates = n -> dated n (with_dates df dates).
Proof.
  intros (Hwf & Hn & Hh) Hl. unfold with_dates.
  assert (Hv : length (map CText dates) = nrows df) by (rewrite length_map; lia).
  repeat split.
  - apply well_formed_set; assumption.
  - rewrite nrows_set; assumption.
  - apply has_col_set.
Qed.

Lemma repair_loop_dated k v o n df dates :
  dated n df -> length dates = n -> dated n (fst (repair_loop k v o df dates)).
Proof.
  revert df dates. induction k as [|k IH]; intros df dates Hd Hl; cbn [Chronology.repair_loop].
  - exact Hd.
  - pose proof (repair_pass_length get_close_matches to_datetime str_float df v o
                  (seq 0 (nrows df)) (dates, false)) as Hlen.
    destruct (fold_left (repair_row df v o) (seq 0 (nrows df)) (dates, false))
      as [corrected made]. cbn [fst] in Hlen.
    assert (Hd' : dated n (with_dates df corrected)) by (apply dated_with_dates; [assumption|lia]).
    destruct made; [apply IH; [assumption|lia] | exact Hd'].
Qed.

Lemma repair_run_length df v o dates group :
  length (repair_run df v o dates group) = length dates.
Proof.
  unfold Chronology.repair_run. cbv zeta.
  set (d1 := assign_all dates _).
  assert (H1 : length d1 = length dates) by apply length_assign_all.
  set (rem := filter _ group).
  assert (H2 : forall l st, length (fst (fold_left shared_step l st)) = length (fst st)).
  { induction l as [|j l IHl]; intro st; [reflexivity|]. cbn [fold_left]. rewrite IHl.
    unfold shared_step. destruct st as [d r]. destruct (same_neighbours _ _); cbn [fst];
      [apply length_assign | reflexivity]. }
  specialize (H2 rem (d1, rem)).
  destruct (fold_left shared_step rem (d1, rem)) as [d2 rem2]. cbn [fst] in H2.
  assert (H3 : forall l d, length (fold_left apply_backtracked l d) = length d).
  { induction l as [|p l IHl]; intro d; [reflexivity|]. cbn [fold_left]. rewrite IHl.
    unfold apply_backtracked. destruct p as [j x]. destruct (is_valid_date x); [|reflexivity].
    destruct (same_neighbours _ _); apply length_assign. }
  rewrite H3. lia.
Qed.

Lemma runs_length df v o groups dates :
  length (fold_left (repair_run df v o) groups dates) = length dates.
Proof.
  revert dates. induction groups as [|g groups IH]; intro dates; [reflexivity|].
  cbn [fold_left]. rewrite IH. apply repair_run_length.
Qed.

Lemma verify_pass_length df o rows dates :
  length (fold_left (verify_row df o) rows dates) = length dates.
Proof.
  revert dates. induction rows as [|j rows IH]; intro dates; [reflexivity|].
  cbn [fold_left]. rewrite IH. unfold verify_row. cbv zeta.
  repeat match goal with
         | |- length (if ?b then _ else _) = _ => destruct b
         | |- length (match ?x with Some _ => _ | None => _ end) = _ => destruct x
         end; try reflexivity; apply length_assign.
Qed.

Lemma date_correction_dated n df :
  well_formed df -> nrows df = n -> well_formed (fst (date_correction df))
  /\ nrows (fst (date_correction df)) = n.
Proof.
  intros Hwf Hn. unfold Chronology.date_correction.
  destruct (has_col df xn) eqn:Eh; cbn [negb fst]; [|split; assumption].
  cbv zeta.
  assert (Hl0 : length (parsed_dates df) = n).
  { unfold Chronology.parsed_dates. rewrite length_map, length_seq. exact Hn. }
  assert (Hd0 : dated n (with_dates df (parsed_dates df))).
  { apply dated_with_dates; [repeat split; assumption | exact Hl0]. }
  pose proof (repair_loop_dated 5 (find_value_date_col df) (get_date_order (parsed_dates df))
                n _ _ Hd0 Hl0) as Hd1.
  pose proof (repair_loop_length get_close_matches to_datetime str_float 5
                (find_value_date_col df) (get_date_order (parsed_dates df))
                (with_dates df (parsed_dates df)) (parsed_dates df)) as Hl1.
  destruct (repair_loop 5 _ _ _ _) as [df1 dates1]. cbn [fst snd] in *.
  set (dates2 := fold_left _ (backtrack_groups _) dates1).
  assert (Hl2 : length dates2 = n) by (unfold dates2; rewrite runs_length; lia).
  assert (Hd2 : dated n (with_dates df1 dates2)) by (apply dated_with_dates; assumption).
  set (dates3 := fold_left _ (seq 0 _) dates2).
  assert (Hl3 : length dates3 = n) by (unfold dates3; rewrite verify_pass_length; lia).
  destruct (dated_with_dates n _ dates3 Hd2 Hl3) as (H1 & H2 & _).
  cbn [fst]. split; assumption.
Qed.

(** ** Parsing the date columns *)

Lemma parse_cell_empty c : cell_empty c = true -> cell_empty (parse_cell c) = true.
Proof.
  destruct c as [q| |s]; cbn [cell_empty Chronology.parse_cell]; intro H;
    [discriminate | reflexivity |].
  unfold parse, parse_custom_date. cbv zeta. rewrite H. reflexivity.
Qed.

Lemma parse_columns_blank df idx :
  is_empty_row df idx = true -> is_empty_row (parse_date_columns df) idx = true.
Proof.
  unfold is_empty_row, Chronology.parse_date_columns. intro H.
  induction df as [|[n w] r IH]; [reflexivity|].
  cbn [forallb map snd fst] in *. apply andb_true_iff in H. destruct H as [H1 H2].
  rewrite (IH H2), andb_true_r.
  destruct (is_date_col n); cbn [snd]; [|exact H1].
  destruct (Nat.lt_ge_cases idx (length w)) as [Hi|Hi].
  - rewrite (nth_indep _ CMissing (parse_cell CMissing)) by (rewrite length_map; exact Hi).
    rewrite map_nth. apply parse_cell_empty. exact H1.
  - rewrite nth_overflow by (rewrite length_map; exact Hi). reflexivity.
Qed.

Lemma parse_columns_nrows df : nrows (parse_date_columns df) = nrows df.
Proof.
  destruct df as [|[n w] r]; [reflexivity|]. cbn [Chronology.parse_date_columns map fst snd].
  destruct (is_date_col n); cbn [nrows]; [apply length_map | reflexivity].
Qed.

Lemma parse_columns_well_formed df : well_formed df -> well_formed (parse_date_columns df).
Proof.
  unfold well_formed. rewrite parse_columns_nrows. intro H.
  unfold Chronology.parse_date_columns. apply Forall_map.
  eapply Forall_impl; [|exact H]. intros [n w] Hw. cbn [fst snd] in *.
  destruct (is_date_col n); cbn [snd]; [rewrite length_map|]; exact Hw.
Qed.

(** ** The year repair *)

Lemma fix_year_row_keeps df v o cells i idx :
  cell_empty (nth idx cells CMissing) = true ->
  nth idx (fix_year_row df v o cells i) CMissing = nth idx cells CMissing.
Proof.
  intro He. unfold Chronology.fix_year_row. cbv zeta.
  destruct (Nat.eq_dec i idx) as [->|Hne].
  - assert (Hinv : is_valid_date (date_at (map date_cell_text cells) idx) = false).
    { unfold date_at. destruct (Nat.lt_ge_cases idx (length cells)) as [Hi|Hi].
      - rewrite (nth_indep _ [] (date_cell_text CMissing)) by (rewrite length_map; exact Hi).
        rewrite map_nth. apply empty_cell_invalid. exact He.
      - rewrite nth_overflow by (rewrite length_map; exact Hi). reflexivity. }
    rewrite Hinv. reflexivity.
  - repeat match goal with
           | |- nth _ (if ?b then _ else _) _ = _ => destruct b
           | |- nth _ (match ?x with Some _ => _ | None => _ end) _ = _ => destruct x
           | |- nth _ (match ?x with Ascending => _ | Descending => _ end) _ = _ => destruct x
           | |- nth _ (let '(_, _) := ?x in _) _ = _ => destruct x
           | |- nth _ (cell_assign _ _ _) _ = _ =>
               unfold cell_assign; apply nth_assign_other; auto
           end; try reflexivity.
Qed.

Lemma fix_year_fold_keeps df v o rows cells idx :
  cell_empty (nth idx cells CMissing) = true ->
  nth idx (fold_left (fix_year_row df v o) rows cells) CMissing = nth idx cells CMissing.
Proof.
  revert cells. induction rows as [|i rows IH]; intros cells He; [reflexivity|].
  cbn [fold_left]. rewrite IH; [apply fix_year_row_keeps; exact He|].
  rewrite fix_year_row_keeps; exact He.
Qed.

Lemma fix_years_blank df idx :
  is_empty_row df idx = true -> is_empty_row (fix_years df) idx = true.
Proof.
  intro Hb. unfold Chronology.fix_chronological_year_issues.
  destruct (negb (has_col df xn)); [exact Hb|]. cbv zeta.
  destruct (Nat.ltb _ 2); [exact Hb|].
  apply is_empty_row_set; [exact Hb|].
  pose proof (is_empty_row_cell df xn idx Hb) as He.
  rewrite fix_year_fold_keeps; exact He.
Qed.

(** ** The driver *)

(** A blank row is blank after [process_all_dates], at the place the
    rotation gives it. *)
Lemma process_all_dates_blank df idx :
  well_formed df -> (idx < nrows df)%nat -> is_empty_row df idx = true ->
  is_empty_row (fst (process_all_dates_order df))
    (position_after (snd (date_correction (parse_date_columns df))) (nrows df) idx) = true.
Proof.
  intros Hwf Hi Hb. unfold Chronology.process_all_dates_order.
  destruct (existsb is_date_col (column_names df)) eqn:Ed; cbn [negb].
  - pose proof (parse_columns_blank df idx Hb) as Hb0.
    pose proof (parse_columns_well_formed df Hwf) as Hwf0.
    pose proof (parse_columns_nrows df) as Hn0.
    destruct (date_correction_blank get_close_matches to_datetime str_float
                (parse_date_columns df) idx Hb0) as [Hb1 _].
    destruct (date_correction_dated (nrows df) (parse_date_columns df) Hwf0 Hn0)
      as [Hwf1 Hn1].
    destruct (date_correction (parse_date_columns df)) as [df1 o1]. cbn [fst snd] in *.
    assert (Hb2 : is_empty_row (fst (rotate_if_descending df1 o1))
                    (position_after o1 (nrows df) idx) = true).
    { destruct o1; cbn [rotate_if_descending fst position_after]; [exact Hb1|].
      rewrite <- Hn1. rewrite is_empty_row_reverse; [exact Hb1 | exact Hwf1 | lia]. }
    destruct (rotate_if_descending df1 o1) as [df2 o2]. cbn [fst] in *.
    pose proof (fix_years_blank df2 _ Hb2) as Hb3.
    destruct (find_value_date_col (fix_years df2)); cbn [fst];
      [apply is_empty_row_drop|]; exact Hb3.
  - assert (Hx : has_col df xn = false).
    { unfold has_col, mem_text. apply not_true_is_false. intro Hx.
      apply existsb_exists in Hx. destruct Hx as (n & Hn & E).
      apply text_eqb_eq in E. subst n.
      assert (Hc : existsb is_date_col (column_names df) = true).
      { apply existsb_exists. exists xn. split; [exact Hn | reflexivity]. }
      congruence. }
    assert (Hp : parse_date_columns df = df).
    { unfold Chronology.parse_date_columns. rewrite <- (map_id df) at 2.
      apply map_ext_in. intros [n w] Hin. cbn [fst].
      destruct (is_date_col n) eqn:En; [|reflexivity].
      assert (Hc : existsb is_date_col (column_names df) = true).
      { apply existsb_exists. exists n. split; [|exact En].
        unfold column_names. apply in_map_iff. exists (n, w). split; [reflexivity|exact Hin]. }
      congruence. }
    rewrite Hp. unfold Chronology.date_correction. rewrite Hx. cbn [negb fst snd position_after].
    exact Hb.
Qed.

End Driver.

End BlankRowsDriver.

Import BlankRowsDriver.

(* ================================================================== *)
(** * Facts about the texts of dates *)
(* ================================================================== *)

Module DateTexts.

(** ** Texts of digits and slashes *)

Lemma date_char_facts : forall c,
  implb (date_char c)
    (negb (is_space c) && Ascii.eqb (to_upper c) c && negb (Ascii.eqb c "(")
     && negb (is_quote c) && negb (is_bracket c) && negb (is_alpha c)) = true.
Proof. by_chars. Qed.

Lemma date_char_split c :
  date_char c = true ->
  is_space c = false /\ to_upper c = c /\ Ascii.eqb c "(" = false
  /\ is_quote c = false /\ is_bracket c = false /\ is_alpha c = false.
Proof.
  intro H. pose proof (date_char_facts c) as F. rewrite H in F. cbn [implb] in F.
  repeat (apply andb_prop in F; destruct F as [F ?]).
  repeat match goal with
         | Hn : negb _ = true |- _ => apply negb_true_iff in Hn
         end.
  repeat split; try assumption. apply Ascii.eqb_eq. assumption.
Qed.

Lemma filter_all {A} (f : A -> bool) l : Forall (fun x => f x = true) l -> filter f l = l.
Proof.
  induction 1 as [|x r Hx _ IH]; [reflexivity|]. cbn [filter]. rewrite Hx, IH. reflexivity.
Qed.

Lemma date_upper s : date_text s -> upper s = s.
Proof.
  unfold upper. induction 1 as [|c r Hc _ IH]; [reflexivity|]. cbn [map].
  rewrite IH. destruct (date_char_split c Hc) as (_ & -> & _). reflexivity.
Qed.

Lemma date_strip s : date_text s -> strip s = s.
Proof.
  intro H.
  assert (L : forall t, date_text t -> lstrip t = t).
  { intros t Ht. apply lstrip_no_space. destruct Ht as [|c r Hc _]; [exact I|].
    apply (date_char_split c Hc). }
  unfold strip, rstrip. rewrite (L s H). rewrite (L (rev s)) by (apply Forall_rev; exact H).
  apply rev_involutive.
Qed.

Lemma date_unparenthesised s : date_text s -> remove_parenthesised false s = s.
Proof.
  induction 1 as [|c r Hc _ IH]; [reflexivity|]. cbn [remove_parenthesised].
  destruct (date_char_split c Hc) as (_ & _ & -> & _). cbn [andb]. rewrite IH. reflexivity.
Qed.

Lemma date_collapse s : date_text s -> collapse_spaces false s = s.
Proof.
  induction 1 as [|c r Hc _ IH]; [reflexivity|]. cbn [collapse_spaces].
  destruct (date_char_split c Hc) as (-> & _). rewrite IH. reflexivity.
Qed.

Lemma date_no_quote s : date_text s -> filter (fun c => negb (is_quote c)) s = s.
Proof.
  intro H. apply filter_all. eapply Forall_impl; [|exact H]. intros c Hc.
  destruct (date_char_split c Hc) as (_ & _ & _ & -> & _). reflexivity.
Qed.

Lemma date_no_bracket s : date_text s -> filter (fun c => negb (is_bracket c)) s = s.
Proof.
  intro H. apply filter_all. eapply Forall_impl; [|exact H]. intros c Hc.
  destruct (date_char_split c Hc) as (_ & _ & _ & _ & -> & _). reflexivity.
Qed.

(** A text that starts another has its characters. *)
Lemma starts_with_In p : forall t c, starts_with p t = true -> In c p -> In c t.
Proof.
  induction p as [|x p IH]; intros t c H Hin; [destruct Hin|].
  destruct t as [|y t]; [discriminate|]. cbn [starts_with] in H.
  apply andb_prop in H. destruct H as [Hxy Hr]. apply Ascii.eqb_eq in Hxy. subst y.
  destruct Hin as [->|Hin]; [left; reflexivity | right; exact (IH _ _ Hr Hin)].
Qed.

Lemma replace_from_absent fuel p by_ c : forall s,
  In c p -> ~ In c s -> replace_from fuel p by_ s = s.
Proof.
  induction fuel as [|fuel IH]; intros s Hp Hs; [reflexivity|].
  destruct s as [|x r]; [reflexivity|]. cbn [replace_from].
  destruct (starts_with p (x :: r)) eqn:E.
  - exfalso. apply Hs. exact (starts_with_In _ _ _ E Hp).
  - rewrite IH; [reflexivity | exact Hp |]. intro Hin. apply Hs. right. exact Hin.
Qed.

(** Replacing a text that has a letter changes nothing of a date. *)
Lemma date_replace p by_ s :
  existsb is_alpha p = true -> date_text s -> replace p by_ s = s.
Proof.
  intros Hp Hs. apply existsb_exists in Hp. destruct Hp as (c & Hc & Ha).
  unfold replace. apply (replace_from_absent _ _ _ c); [exact Hc|].
  intro Hin. unfold date_text in Hs. rewrite Forall_forall in Hs.
  destruct (date_char_split c (Hs c Hin)) as (_ & _ & _ & _ & _ & Hn). congruence.
Qed.

Lemma date_corrections (l : list (string * string)) s :
  forallb (fun wc => existsb is_alpha (T (fst wc))) l = true ->
  date_text s ->
  fold_left (fun x wc => replace (T (fst wc)) (T (snd wc)) x) l s = s.
Proof.
  intros Hl Hs. induction l as [|wc r IH]; [reflexivity|].
  cbn [forallb] in Hl. apply andb_prop in Hl. destruct Hl as [H1 H2].
  cbn [fold_left]. rewrite (date_replace _ _ _ H1 Hs). exact (IH H2).
Qed.

Lemma date_cleaned s : date_text s -> clean_date_text s = s.
Proof.
  intro H. unfold clean_date_text. cbv zeta.
  rewrite (date_upper s H), (date_unparenthesised s H), (date_collapse s H).
  rewrite (date_replace (T "0CT") _ s eq_refl H), (date_replace (T "A0G") _ s eq_refl H).
  rewrite (date_no_quote s H), (date_no_bracket s H).
  rewrite (date_corrections month_corrections s eq_refl H). exact (date_strip s H).
Qed.

(** ** Matching a text whose characters are renamed *)

Section Renaming.

Variable f : ascii -> ascii.

Local Abbreviation respects := (respects f).

Lemma prefix_count_map p :
  (forall c, p (f c) = p c) ->
  forall s hi, prefix_count p hi (map f s) = prefix_count p hi s.
Proof.
  intro Hp. induction s as [|c r IH]; intro hi; [reflexivity|].
  cbn [map prefix_count]. rewrite Hp.
  destruct hi as [[|h]|]; [reflexivity | rewrite IH; reflexivity | rewrite IH; reflexivity].
Qed.

Lemma try_counts_map rest rest' keep s lo :
  (forall t, rest' (map f t) = option_map (map (map f)) (rest t)) ->
  forall d, try_counts rest' keep (map f s) lo d
            = option_map (map (map f)) (try_counts rest keep s lo d).
Proof.
  intro Hr.
  assert (K : forall j caps,
             Some (if keep then firstn j (map f s) :: map (map f) caps else map (map f) caps)
             = option_map (map (map f)) (Some (if keep then firstn j s :: caps else caps))).
  { intros j caps. destruct keep; cbn [option_map map]; rewrite ?firstn_map; reflexivity. }
  induction d as [|d IH]; cbn [try_counts]; cbv zeta; rewrite skipn_map, Hr;
    destruct (rest (skipn _ s)) as [caps|]; cbn [option_map]; try apply K.
  - reflexivity.
  - exact IH.
Qed.

Lemma match_atoms_map atoms anchored :
  respects atoms ->
  forall s, match_atoms atoms anchored (map f s)
            = option_map (map (map f)) (match_atoms atoms anchored s).
Proof.
  induction 1 as [|a rest Ha _ IH]; intro s; cbn [match_atoms].
  - rewrite length_map. destruct (anchored && negb (Nat.eqb (length s) 0)); reflexivity.
  - rewrite (prefix_count_map _ Ha).
    destruct (Nat.ltb (prefix_count (cls a) (hi a) s) (lo a)); [reflexivity|].
    apply try_counts_map. exact IH.
Qed.

End Renaming.

Lemma rename_blind p l c : blind p -> digit_pairs l -> p (rename l c) = p c.
Proof.
  intros Hp. induction 1 as [|[a b] r [Ha Hb] _ IH]; [reflexivity|].
  cbn [rename]. destruct (Ascii.eqb c a) eqn:E; [|exact IH].
  apply Ascii.eqb_eq in E. subst c. cbn [fst snd] in *. apply Hp; assumption.
Qed.

Lemma digit_classes : forall c,
  implb (is_digit c)
    (negb (is_space c) && negb (is_alpha c) && negb (is_sep c) && negb (is_sep_space c))
  = true.
Proof. by_chars. Qed.

Lemma digit_class_split c :
  is_digit c = true ->
  is_space c = false /\ is_alpha c = false /\ is_sep c = false /\ is_sep_space c = false.
Proof.
  intro H. pose proof (digit_classes c) as F. rewrite H in F. cbn [implb] in F.
  repeat (apply andb_prop in F; destruct F as [F ?]).
  repeat match goal with
         | Hn : negb _ = true |- _ => apply negb_true_iff in Hn
         end.
  repeat split; assumption.
Qed.

Lemma blind_digit : blind is_digit.
Proof. intros c c' H H'. congruence. Qed.

Lemma blind_space : blind is_space.
Proof.
  intros c c' H H'. destruct (digit_class_split c H) as (-> & _).
  destruct (digit_class_split c' H') as (-> & _). reflexivity.
Qed.

Lemma blind_alpha : blind is_alpha.
Proof.
  intros c c' H H'. destruct (digit_class_split c H) as (_ & -> & _).
  destruct (digit_class_split c' H') as (_ & -> & _). reflexivity.
Qed.

Lemma blind_sep : blind is_sep.
Proof.
  intros c c' H H'. destruct (digit_class_split c H) as (_ & _ & -> & _).
  destruct (digit_class_split c' H') as (_ & _ & -> & _). reflexivity.
Qed.

Lemma blind_sep_space : blind is_sep_space.
Proof.
  intros c c' H H'. destruct (digit_class_split c H) as (_ & _ & _ & ->).
  destruct (digit_class_split c' H') as (_ & _ & _ & ->). reflexivity.
Qed.

Ltac blind_pattern :=
  repeat constructor; cbn [cls group group_plus plus star one];
  first [exact blind_digit | exact blind_space | exact blind_alpha
        | exact blind_sep | exact blind_sep_space].

Lemma blind_mixed_pattern1 : blind_atoms mixed_pattern1.
Proof. blind_pattern. Qed.

Lemma blind_mixed_pattern2 : blind_atoms mixed_pattern2.
Proof. blind_pattern. Qed.

Lemma blind_day_month_name_year : blind_atoms day_month_name_year.
Proof. blind_pattern. Qed.

Lemma blind_month_name_day_year : blind_atoms month_name_day_year.
Proof. blind_pattern. Qed.

Lemma blind_year_month_day : blind_atoms year_month_day.
Proof. blind_pattern. Qed.

Lemma blind_day_month_year : blind_atoms day_month_year.
Proof. blind_pattern. Qed.

Lemma blind_compact_ymd : blind_atoms compact_ymd.
Proof. blind_pattern. Qed.

Lemma blind_compact_day_name_year : blind_atoms compact_day_name_year.
Proof. blind_pattern. Qed.

Lemma blind_compact_name_day_year : blind_atoms compact_name_day_year.
Proof. blind_pattern. Qed.

Lemma blind_year_only : blind_atoms year_only.
Proof. blind_pattern. Qed.

(** A pattern blind to the digits matches a text as it matches the text
    its digits are renamed from. *)
Lemma match_renamed atoms anchored l t :
  blind_atoms atoms -> digit_pairs l ->
  match_atoms atoms anchored (map (rename l) t)
  = option_map (map (map (rename l))) (match_atoms atoms anchored t).
Proof.
  intros Ha Hl. apply match_atoms_map. unfold respects.
  eapply Forall_impl; [|exact Ha]. intros a Hb c. cbv beta in Hb.
  apply rename_blind; assumption.
Qed.

(** ** Integers written with digits *)

Lemma digit_signs : forall c,
  implb (is_digit c)
    (negb (Ascii.eqb c "-") && negb (Ascii.eqb c "+") && negb (Ascii.eqb c "_")
     && negb (Ascii.eqb c "/") && date_char c && is_int_char c) = true.
Proof. by_chars. Qed.

Lemma digit_sign_split c :
  is_digit c = true ->
  Ascii.eqb c "-" = false /\ Ascii.eqb c "+" = false /\ Ascii.eqb c "_" = false
  /\ Ascii.eqb c "/" = false /\ date_char c = true /\ is_int_char c = true.
Proof.
  intro H. pose proof (digit_signs c) as F. rewrite H in F. cbn [implb] in F.
  repeat (apply andb_prop in F; destruct F as [F ?]).
  repeat match goal with
         | Hn : negb _ = true |- _ => apply negb_true_iff in Hn
         end.
  repeat split; assumption.
Qed.

Lemma digits_date_text s : all_digits s = true -> date_text s.
Proof.
  intro H. apply all_digits_Forall in H. unfold date_text.
  eapply Forall_impl; [|exact H]. intros c Hc. apply (digit_sign_split c Hc).
Qed.

Lemma contains_In p : forall s c, contains p s = true -> In c p -> In c s.
Proof.
  induction s as [|x r IH]; intros c H Hin; cbn [contains] in H.
  - rewrite orb_false_r in H. exact (starts_with_In _ _ _ H Hin).
  - apply orb_prop in H. destruct H as [H|H].
    + exact (starts_with_In _ _ _ H Hin).
    + right. exact (IH _ H Hin).
Qed.

Lemma digits_no_char s c :
  all_digits s = true -> is_digit c = false -> ~ In c s.
Proof.
  intros H Hc Hin. apply all_digits_Forall in H. rewrite Forall_forall in H.
  specialize (H c Hin). congruence.
Qed.

(** [int] of a text of digits is the number they write. *)
Lemma py_int_digits s :
  all_digits s = true -> s <> [] -> py_int s = Some (digits_value s).
Proof.
  intros H Hne. unfold py_int. cbv zeta. rewrite (date_strip s (digits_date_text s H)).
  pose proof (proj1 (all_digits_Forall s) H) as HF.
  destruct s as [|c r]; [contradiction|].
  assert (Hc : is_digit c = true) by (inversion HF; assumption).
  destruct (digit_sign_split c Hc) as (-> & -> & _).
  assert (Hv : valid_int_body (c :: r) = true).
  { unfold valid_int_body. cbv beta iota. rewrite Hc.
    assert (E1 : forallb is_int_char (c :: r) = true).
    { apply forallb_forall. intros x Hx. rewrite Forall_forall in HF.
      apply (digit_sign_split x (HF x Hx)). }
    assert (E2 : match rev (c :: r) with x :: _ => is_digit x | [] => false end = true).
    { destruct (rev (c :: r)) as [|x t] eqn:E.
      - apply (f_equal (@length ascii)) in E. rewrite length_rev in E. discriminate E.
      - rewrite Forall_forall in HF. apply HF. apply in_rev. rewrite E. left. reflexivity. }
    assert (E3 : contains (T "__") (c :: r) = false).
    { destruct (contains (T "__") (c :: r)) eqn:E; [|reflexivity]. exfalso.
      apply (digits_no_char (c :: r) "_" H eq_refl).
      apply (contains_In _ _ _ E). left. reflexivity. }
    rewrite E1, E2, E3. reflexivity. }
  rewrite Hv. unfold remove_char. rewrite filter_all; [reflexivity|].
  eapply Forall_impl; [|exact HF]. intros x Hx. cbv beta in Hx.
  destruct (digit_sign_split x Hx) as (_ & _ & -> & _). reflexivity.
Qed.

Lemma text_eqb_length a b : length a <> length b -> text_eqb a b = false.
Proof.
  intro H. apply text_eqb_neq. intro E. apply H. rewrite E. reflexivity.
Qed.

(** ** The text of a date: DD/MM/YYYY *)

Lemma digit_char_of_value : forall c,
  implb (is_digit c) (Ascii.eqb (digit_char (digit_value c)) c) = true.
Proof. by_chars. Qed.

Lemma pad2_digits a b :
  is_digit a = true -> is_digit b = true -> pad 2 (digits_value [a; b]) = [a; b].
Proof.
  intros Ha Hb. unfold digits_value. cbn [fold_left].
  pose proof (digit_value_range a Ha) as Ra. pose proof (digit_value_range b Hb) as Rb.
  rewrite pad2_spec by lia.
  assert (Ea : digit_char ((10 * (10 * 0 + digit_value a) + digit_value b) / 10) = a).
  { replace ((10 * (10 * 0 + digit_value a) + digit_value b) / 10) with (digit_value a)
      by (Z.div_mod_to_equations; lia).
    pose proof (digit_char_of_value a) as F. rewrite Ha in F. apply Ascii.eqb_eq. exact F. }
  assert (Eb : digit_char (10 * (10 * 0 + digit_value a) + digit_value b) = b).
  { unfold digit_char.
    replace ((10 * (10 * 0 + digit_value a) + digit_value b) mod 10) with (digit_value b mod 10)
      by (Z.div_mod_to_equations; lia).
    pose proof (digit_char_of_value b) as F. rewrite Hb in F. apply Ascii.eqb_eq. exact F. }
  rewrite Ea, Eb. reflexivity.
Qed.

Section Digits.

Variables c1 c2 c3 c4 c5 c6 c7 c8 : ascii.

Hypothesis digit1 : is_digit c1 = true.
Hypothesis digit2 : is_digit c2 = true.
Hypothesis digit3 : is_digit c3 = true.
Hypothesis digit4 : is_digit c4 = true.
Hypothesis digit5 : is_digit c5 = true.
Hypothesis digit6 : is_digit c6 = true.
Hypothesis digit7 : is_digit c7 = true.
Hypothesis digit8 : is_digit c8 = true.

Local Abbreviation dmy_text := (dmy_text c1 c2 c3 c4 c5 c6 c7 c8).
Local Abbreviation renaming := (renaming c1 c2 c3 c4 c5 c6 c7 c8).

Lemma dmy_renamed : dmy_text = map (rename renaming) template.
Proof. reflexivity. Qed.

Lemma digit_renaming : digit_pairs renaming.
Proof. repeat constructor; assumption. Qed.

Lemma dmy_date_text : date_text dmy_text.
Proof.
  unfold date_text, Notions.dmy_text, date_char.
  repeat constructor; first [reflexivity | apply orb_true_iff; left; assumption].
Qed.

Lemma match_dmy atoms anchored :
  blind_atoms atoms ->
  match_atoms atoms anchored dmy_text
  = option_map (map (map (rename renaming))) (match_atoms atoms anchored template).
Proof. intro H. rewrite dmy_renamed. apply match_renamed; [exact H | exact digit_renaming]. Qed.

Lemma dmy_mixed_pattern1 : match_atoms mixed_pattern1 true dmy_text = None.
Proof. rewrite (match_dmy _ _ blind_mixed_pattern1). reflexivity. Qed.

Lemma dmy_mixed_pattern2 : match_atoms mixed_pattern2 true dmy_text = None.
Proof. rewrite (match_dmy _ _ blind_mixed_pattern2). reflexivity. Qed.

Lemma dmy_day_month_name_year : match_atoms day_month_name_year false dmy_text = None.
Proof. rewrite (match_dmy _ _ blind_day_month_name_year). reflexivity. Qed.

Lemma dmy_month_name_day_year : match_atoms month_name_day_year false dmy_text = None.
Proof. rewrite (match_dmy _ _ blind_month_name_day_year). reflexivity. Qed.

Lemma dmy_year_month_day : match_atoms year_month_day false dmy_text = None.
Proof. rewrite (match_dmy _ _ blind_year_month_day). reflexivity. Qed.

Lemma dmy_day_month_year :
  match_atoms day_month_year false dmy_text = Some [[c1; c2]; [c3; c4]; [c5; c6; c7; c8]].
Proof. rewrite (match_dmy _ _ blind_day_month_year). reflexivity. Qed.

Hypothesis day_not_zero : Ascii.eqb c1 "0" && Ascii.eqb c2 "0" = false.
Hypothesis month_not_zero : Ascii.eqb c3 "0" && Ascii.eqb c4 "0" = false.

Lemma dmy_no_zero_pair : has_zero_pair dmy_text = false.
Proof.
  unfold has_zero_pair, Notions.dmy_text. cbn [has_zero_pair_from zero_pair_here].
  rewrite day_not_zero, month_not_zero.
  rewrite digit1, digit2, digit3, digit4, digit5, digit6, digit7, digit8.
  change (is_digit "/") with false.
  cbn [negb andb orb]. rewrite !andb_false_r. reflexivity.
Qed.

Section Parsed.

Variable get_close_matches : text -> list text -> option text.
Variable to_datetime : bool -> text -> option (Z * Z * Z).

(** The parser returns the text of a date as it is. *)
Lemma parse_dmy : parse_custom_date get_close_matches to_datetime dmy_text = Some dmy_text.
Proof.
  unfold parse_custom_date. cbv zeta. rewrite (date_strip _ dmy_date_text).
  change (Nat.eqb (length dmy_text) 0) with false. cbv iota.
  rewrite dmy_no_zero_pair. rewrite dmy_mixed_pattern1, dmy_mixed_pattern2.
  cbn [groups4]. unfold parse_cleaned. cbv zeta.
  rewrite (date_cleaned _ dmy_date_text).
  rewrite dmy_day_month_name_year, dmy_month_name_day_year, dmy_year_month_day,
    dmy_day_month_year.
  cbn [groups3]. unfold format_numeric.
  rewrite (pad2_digits c1 c2 digit1 digit2), (pad2_digits c3 c4 digit3 digit4).
  reflexivity.
Qed.

End Parsed.

(** The integers of the text of a date. *)
Lemma dmy_ints :
  split_ints dmy_text
  = Some (digits_value [c1; c2], digits_value [c3; c4], digits_value [c5; c6; c7; c8]).
Proof.
  unfold split_ints.
  assert (D12 : all_digits [c1; c2] = true)
    by (unfold all_digits; cbn [forallb]; rewrite digit1, digit2; reflexivity).
  assert (D34 : all_digits [c3; c4] = true)
    by (unfold all_digits; cbn [forallb]; rewrite digit3, digit4; reflexivity).
  assert (D58 : all_digits [c5; c6; c7; c8] = true)
    by (unfold all_digits; cbn [forallb]; rewrite digit5, digit6, digit7, digit8; reflexivity).
  change dmy_text with ([c1; c2] ++ "/"%char :: [c3; c4] ++ "/"%char :: [c5; c6; c7; c8]).
  rewrite split_on_app by (apply digits_no_char; [exact D12 | reflexivity]).
  rewrite split_on_app by (apply digits_no_char; [exact D34 | reflexivity]).
  rewrite split_on_none by (apply digits_no_char; [exact D58 | reflexivity]).
  rewrite (py_int_digits _ D12), (py_int_digits _ D34), (py_int_digits _ D58)
    by discriminate.
  reflexivity.
Qed.

End Digits.

(** ** The text of a year: YYYY *)

Section Year.

Variables c1 c2 c3 c4 : ascii.

Hypothesis digit1 : is_digit c1 = true.
Hypothesis digit2 : is_digit c2 = true.
Hypothesis digit3 : is_digit c3 = true.
Hypothesis digit4 : is_digit c4 = true.

Local Abbreviation year_text := (year_text c1 c2 c3 c4).
Local Abbreviation year_renaming := (year_renaming c1 c2 c3 c4).

Lemma year_date_text : date_text year_text.
Proof.
  unfold date_text, Notions.year_text, date_char.
  repeat constructor; apply orb_true_iff; left; assumption.
Qed.

Lemma match_year atoms anchored :
  blind_atoms atoms ->
  match_atoms atoms anchored year_text
  = option_map (map (map (rename year_renaming))) (match_atoms atoms anchored (T "1234")).
Proof.
  intro H. change year_text with (map (rename year_renaming) (T "1234")).
  apply match_renamed; [exact H | repeat constructor; assumption].
Qed.

Lemma year_no_zero_pair : has_zero_pair year_text = false.
Proof.
  unfold has_zero_pair, Notions.year_text. cbn [has_zero_pair_from zero_pair_here].
  rewrite digit1, digit2, digit3, digit4.
  cbn [negb andb orb]. rewrite !andb_false_r. reflexivity.
Qed.

Variable get_close_matches : text -> list text -> option text.
Variable to_datetime : bool -> text -> option (Z * Z * Z).

(** The parser returns a bare year as it is. *)
Lemma parse_year : parse_custom_date get_close_matches to_datetime year_text = Some year_text.
Proof.
  unfold parse_custom_date. cbv zeta. rewrite (date_strip _ year_date_text).
  change (Nat.eqb (length year_text) 0) with false. cbv iota.
  rewrite year_no_zero_pair.
  rewrite (match_year _ _ blind_mixed_pattern1), (match_year _ _ blind_mixed_pattern2).
  cbn [option_map groups4]. unfold parse_cleaned. cbv zeta.
  rewrite (date_cleaned _ year_date_text).
  assert (E : filter (fun c => negb (is_space c)) year_text = year_text).
  { apply filter_all. eapply Forall_impl; [|exact year_date_text]. intros c Hc.
    cbv beta in Hc. destruct (date_char_split c Hc) as (-> & _). reflexivity. }
  rewrite E.
  rewrite (match_year _ _ blind_day_month_name_year),
    (match_year _ _ blind_month_name_day_year), (match_year _ _ blind_year_month_day),
    (match_year _ _ blind_day_month_year), (match_year _ _ blind_compact_ymd),
    (match_year _ _ blind_compact_day_name_year),
    (match_year _ _ blind_compact_name_day_year), (match_year _ _ blind_year_only).
  reflexivity.
Qed.

End Year.

Lemma bare_year_parsed gcm td y :
  year_shape y = true -> parse_custom_date gcm td y = Some y.
Proof.
  unfold year_shape. intro H. apply andb_prop in H. destruct H as [Hd Hl].
  apply Nat.eqb_eq in Hl.
  destruct y as [|c1 [|c2 [|c3 [|c4 [|c5 r]]]]]; try discriminate Hl.
  unfold all_digits in Hd. cbn [forallb] in Hd.
  apply andb_prop in Hd. destruct Hd as [H1 Hd].
  apply andb_prop in Hd. destruct Hd as [H2 Hd].
  apply andb_prop in Hd. destruct Hd as [H3 Hd].
  apply andb_prop in Hd. destruct Hd as [H4 _].
  apply parse_year; assumption.
Qed.

(** ** Dates *)

Lemma ten_cases n :
  n mod 10 = 0 \/ n mod 10 = 1 \/ n mod 10 = 2 \/ n mod 10 = 3 \/ n mod 10 = 4
  \/ n mod 10 = 5 \/ n mod 10 = 6 \/ n mod 10 = 7 \/ n mod 10 = 8 \/ n mod 10 = 9.
Proof. pose proof (Z.mod_pos_bound n 10 ltac:(lia)). lia. Qed.

Lemma digit_value_char n : digit_value (digit_char n) = n mod 10.
Proof.
  unfold digit_char. pose proof (ten_cases n) as C.
  repeat (destruct C as [-> | C]; [reflexivity|]). rewrite C. reflexivity.
Qed.

Lemma digit_char_zero n : Ascii.eqb (digit_char n) "0" = (n mod 10 =? 0).
Proof.
  unfold digit_char. pose proof (ten_cases n) as C.
  repeat (destruct C as [-> | C]; [reflexivity|]). rewrite C. reflexivity.
Qed.

Lemma strftime_dmy d m y :
  0 <= d < 100 -> 0 <= m < 100 -> 1000 <= y < 10000 ->
  strftime (d, m, y)
  = dmy_text (digit_char (d / 10)) (digit_char d) (digit_char (m / 10)) (digit_char m)
      (digit_char (y / 10 / 10 / 10)) (digit_char (y / 10 / 10)) (digit_char (y / 10))
      (digit_char y).
Proof.
  intros Hd Hm Hy. unfold strftime.
  rewrite (pad2_spec d Hd), (pad2_spec m Hm), (pad4_spec y Hy). reflexivity.
Qed.

Lemma two_digits_value n :
  0 <= n < 100 -> digits_value [digit_char (n / 10); digit_char n] = n.
Proof.
  intro H. unfold digits_value. cbn [fold_left]. rewrite !digit_value_char.
  Z.div_mod_to_equations. lia.
Qed.

Lemma four_digits_value n :
  1000 <= n < 10000 ->
  digits_value [digit_char (n / 10 / 10 / 10); digit_char (n / 10 / 10);
                digit_char (n / 10); digit_char n] = n.
Proof.
  intro H. unfold digits_value. cbn [fold_left]. rewrite !digit_value_char.
  Z.div_mod_to_equations. lia.
Qed.

Lemma not_double_zero n :
  1 <= n < 100 ->
  Ascii.eqb (digit_char (n / 10)) "0" && Ascii.eqb (digit_char n) "0" = false.
Proof.
  intro H. rewrite !digit_char_zero.
  destruct (Z.eqb_spec ((n / 10) mod 10) 0) as [E1|E1]; [|reflexivity].
  destruct (Z.eqb_spec (n mod 10) 0) as [E2|E2]; [|reflexivity].
  exfalso. Z.div_mod_to_equations. lia.
Qed.

Lemma valid_dmy_range d m y :
  valid_dmy d m y = true -> 1 <= d <= 31 /\ 1 <= m <= 12 /\ 1900 <= y <= 2100.
Proof.
  unfold valid_dmy.
  destruct ((1 <=? d) && (d <=? 31) && (1 <=? m) && (m <=? 12) && (1900 <=? y)
            && (y <=? 2100)) eqn:E; [|discriminate].
  intros _. repeat (apply andb_prop in E; destruct E as [E ?]). lia.
Qed.

Section Dates.

Variable get_close_matches : text -> list text -> option text.
Variable to_datetime : bool -> text -> option (Z * Z * Z).

Variables d m y : Z.

Hypothesis day_range : 1 <= d < 100.
Hypothesis month_range : 1 <= m < 100.
Hypothesis year_range : 1000 <= y < 10000.

Lemma date_is_dmy :
  strftime (d, m, y)
  = dmy_text (digit_char (d / 10)) (digit_char d) (digit_char (m / 10)) (digit_char m)
      (digit_char (y / 10 / 10 / 10)) (digit_char (y / 10 / 10)) (digit_char (y / 10))
      (digit_char y).
Proof. apply strftime_dmy; lia. Qed.

(** The parser returns a date written DD/MM/YYYY as it is. *)
Lemma date_parsed :
  parse_custom_date get_close_matches to_datetime (strftime (d, m, y))
  = Some (strftime (d, m, y)).
Proof.
  rewrite date_is_dmy.
  apply parse_dmy; try apply digit_char_is_digit; apply not_double_zero; assumption.
Qed.

Lemma date_stripped : strip (strftime (d, m, y)) = strftime (d, m, y).
Proof.
  rewrite date_is_dmy. apply date_strip. apply dmy_date_text; apply digit_char_is_digit.
Qed.

Lemma date_ints : split_ints (strftime (d, m, y)) = Some (d, m, y).
Proof.
  rewrite date_is_dmy. rewrite dmy_ints by apply digit_char_is_digit.
  rewrite !two_digits_value, four_digits_value by lia. reflexivity.
Qed.

Lemma date_valid : is_valid_date (strftime (d, m, y)) = valid_dmy d m y.
Proof.
  unfold is_valid_date. rewrite date_stripped, date_ints.
  rewrite date_is_dmy.
  rewrite (text_eqb_length (lower _) (T "nan"))
    by (unfold lower; rewrite length_map; discriminate).
  rewrite (text_eqb_length _ (T "None")) by discriminate.
  reflexivity.
Qed.

Lemma date_number : datetime_of (strftime (d, m, y)) = Some (ordinal d m y).
Proof. unfold datetime_of. rewrite date_ints. reflexivity. Qed.

Lemma date_not_blank : Nat.eqb (length (strip (strftime (d, m, y)))) 0 = false.
Proof. rewrite date_stripped, date_is_dmy. reflexivity. Qed.

End Dates.

(** ** The order of dates *)

Ltac decide_tests :=
  repeat match goal with
         | |- context [?a <=? ?b] =>
             let v := eval vm_compute in (a <=? b) in
             match v with true => idtac | false => idtac end;
             change (a <=? b) with v
         | |- context [?a mod ?b] =>
             let v := eval vm_compute in (a mod b) in
             match v with Z0 => idtac | Zpos _ => idtac end;
             change (a mod b) with v
         end; cbv iota.

(** The day number of a date lies between those of the first days of its
    year and of the next. *)
Lemma year_bounds d m y :
  1 <= d <= 31 -> 1 <= m <= 12 ->
  ordinal 1 1 y <= ordinal d m y < ordinal 1 1 (y + 1).
Proof.
  intros Hd Hm. unfold ordinal.
  assert (C : m = 1 \/ m = 2 \/ m = 3 \/ m = 4 \/ m = 5 \/ m = 6 \/ m = 7 \/ m = 8
              \/ m = 9 \/ m = 10 \/ m = 11 \/ m = 12) by lia.
  repeat (destruct C as [-> | C]; [decide_tests; cbv zeta; Z.div_mod_to_equations; lia|]).
  subst m. decide_tests. cbv zeta. Z.div_mod_to_equations. lia.
Qed.

Lemma year_start_from n : forall y, ordinal 1 1 y <= ordinal 1 1 (y + Z.of_nat n).
Proof.
  induction n as [|n IH]; intro y.
  - replace (y + Z.of_nat 0) with y by lia. lia.
  - specialize (IH y).
    pose proof (year_bounds 1 1 (y + Z.of_nat n) ltac:(lia) ltac:(lia)) as B.
    replace (y + Z.of_nat (S n)) with (y + Z.of_nat n + 1) by lia. lia.
Qed.

Lemma year_start_mono y y' : y <= y' -> ordinal 1 1 y <= ordinal 1 1 y'.
Proof.
  intro H. replace y' with (y + Z.of_nat (Z.to_nat (y' - y))) by lia.
  apply year_start_from.
Qed.

(** Of two dates, the later is not of an earlier year. *)
Lemma ordinal_year d m y d' m' y' :
  1 <= d <= 31 -> 1 <= m <= 12 -> 1 <= d' <= 31 -> 1 <= m' <= 12 ->
  ordinal d m y <= ordinal d' m' y' -> y <= y'.
Proof.
  intros Hd Hm Hd' Hm' H.
  destruct (Z_le_gt_dec y y') as [Hle|Hgt]; [exact Hle|]. exfalso.
  pose proof (year_bounds d m y Hd Hm) as B.
  pose proof (year_bounds d' m' y' Hd' Hm') as B'.
  pose proof (year_start_mono (y' + 1) y ltac:(lia)) as M. lia.
Qed.

End DateTexts.

Import DateTexts.

(* ================================================================== *)
(** * Ledgers whose dates are already in order *)
(* ================================================================== *)

Module AscendingLedgers.

(** ** Sorted lists of days *)

Lemma non_decreasing_inv a l :
  non_decreasing (a :: l) = true -> Forall (Z.le a) l /\ non_decreasing l = true.
Proof.
  revert a. induction l as [|b r IH]; intros a H; [split; [constructor|reflexivity]|].
  cbn [non_decreasing] in H. apply andb_prop in H. destruct H as [Hab Hr].
  apply Z.leb_le in Hab. split; [|exact Hr].
  constructor; [exact Hab|].
  destruct (IH b Hr) as [Hall _].
  eapply Forall_impl; [|exact Hall]. intros x Hx. cbv beta in Hx. lia.
Qed.

Lemma non_decreasing_cons a l :
  Forall (Z.le a) l -> non_decreasing l = true -> non_decreasing (a :: l) = true.
Proof.
  intros Ha Hl. destruct l as [|b r]; [reflexivity|].
  cbn [non_decreasing]. inversion Ha; subst.
  apply andb_true_intro. split; [apply Z.leb_le; assumption | exact Hl].
Qed.

Lemma sorted_nth l :
  non_decreasing l = true ->
  forall i j, (i <= j)%nat -> (j < length l)%nat -> nth i l 0 <= nth j l 0.
Proof.
  induction l as [|a r IH]; intros H i j Hij Hj; [cbn in Hj; lia|].
  destruct (non_decreasing_inv _ _ H) as [Hall Hr].
  cbn [length] in Hj.
  destruct i as [|i], j as [|j]; cbn [nth]; try lia.
  - rewrite Forall_forall in Hall. apply Hall. apply nth_In. lia.
  - apply IH; [exact Hr | lia | lia].
Qed.

Lemma pair_votes_sorted l : non_decreasing l = true -> snd (pair_votes l) = O.
Proof.
  induction l as [|a r IH]; intro H; [reflexivity|].
  destruct r as [|b r']; [reflexivity|].
  cbn [non_decreasing] in H. apply andb_prop in H. destruct H as [Hab Hr].
  change (pair_votes (a :: b :: r'))
    with (let '(asc, desc) := pair_votes (b :: r') in
          if a <=? b then (S asc, desc) else (asc, S desc)).
  specialize (IH Hr). destruct (pair_votes (b :: r')) as [asc desc].
  rewrite Hab. exact IH.
Qed.

Lemma order_sorted l : non_decreasing l = true -> order_of_datetimes l = Ascending.
Proof.
  intro H. unfold order_of_datetimes.
  destruct l as [|a [|b r]]; [reflexivity | reflexivity |].
  pose proof (pair_votes_sorted _ H) as Hv.
  destruct (pair_votes (a :: b :: r)) as [asc desc]. cbn [snd] in Hv. subst desc.
  destruct (a <=? last (a :: b :: r) a) eqn:Hl; [reflexivity|].
  exfalso. apply Z.leb_gt in Hl.
  destruct (non_decreasing_inv _ _ H) as [Hall _].
  assert (Hin : In (last (a :: b :: r) a) (b :: r)).
  { change (last (a :: b :: r) a) with (last (b :: r) a).
    destruct (exists_last (l := b :: r)) as [l' [x Hx]]; [discriminate|].
    rewrite Hx. rewrite last_last. apply in_or_app. right. left. reflexivity. }
  rewrite Forall_forall in Hall. specialize (Hall _ Hin). lia.
Qed.

(** ** Valid dates, as the repair reads them *)

Lemma valid_date_range t :
  valid_date t = true ->
  1 <= fst (fst t) <= 31 /\ 1 <= snd (fst t) <= 12 /\ 1900 <= snd t <= 2100.
Proof. destruct t as [[d m] y]. apply valid_dmy_range. Qed.

Section Days.

Variable gcm : text -> list text -> option text.
Variable td : bool -> text -> option (Z * Z * Z).

Lemma day_facts t :
  valid_date t = true ->
  is_valid_date (strftime t) = true
  /\ strip (strftime t) = strftime t
  /\ parse_custom_date gcm td (strftime t) = Some (strftime t)
  /\ split_ints (strftime t) = Some t
  /\ datetime_of (strftime t) = Some (day_number t).
Proof.
  intro H. pose proof (valid_date_range t H) as R. destruct t as [[d m] y].
  cbn [fst snd valid_date day_number] in *.
  repeat split.
  - rewrite date_valid by lia. exact H.
  - apply date_stripped; lia.
  - apply date_parsed; lia.
  - apply date_ints; lia.
  - apply date_number; lia.
Qed.

End Days.

Lemma day_valid t : valid_date t = true -> is_valid_date (strftime t) = true.
Proof. intro H. exact (proj1 (day_facts (fun _ _ => None) (fun _ _ => None) t H)). Qed.

Lemma day_strip t : valid_date t = true -> strip (strftime t) = strftime t.
Proof. intro H. apply (day_facts (fun _ _ => None) (fun _ _ => None) t H). Qed.

Lemma day_ints t : valid_date t = true -> split_ints (strftime t) = Some t.
Proof. intro H. apply (day_facts (fun _ _ => None) (fun _ _ => None) t H). Qed.

Lemma day_datetime t : valid_date t = true -> datetime_of (strftime t) = Some (day_number t).
Proof. intro H. apply (day_facts (fun _ _ => None) (fun _ _ => None) t H). Qed.

Lemma day_not_blank t : valid_date t = true -> cell_empty (CText (strftime t)) = false.
Proof.
  intro H. pose proof (day_valid t H) as Hv. unfold is_valid_date in Hv.
  cbn [cell_empty]. destruct (Nat.eqb (length (strip (strftime t))) 0); [discriminate|reflexivity].
Qed.

(** Of two valid dates, the later is not of an earlier year. *)
Lemma year_mono a b :
  valid_date a = true -> valid_date b = true -> day_number a <= day_number b ->
  snd a <= snd b.
Proof.
  intros Ha Hb Hab. pose proof (valid_date_range a Ha) as Ra.
  pose proof (valid_date_range b Hb) as Rb.
  destruct a as [[d m] y], b as [[d' m'] y']. cbn [fst snd day_number] in *.
  apply (ordinal_year d m y d' m' y'); lia.
Qed.

(** ** The columns of a dated ledger *)

Lemma plain_not_xn n : is_date_col n = false -> text_eqb xn n = false.
Proof.
  intro H. destruct (text_eqb xn n) eqn:E; [|reflexivity].
  apply text_eqb_eq in E. subst n. vm_compute in H. discriminate.
Qed.

Lemma plain_app pre post :
  plain_columns (pre ++ post) = true ->
  plain_columns pre = true /\ plain_columns post = true.
Proof. unfold plain_columns. rewrite forallb_app. apply andb_prop. Qed.

Lemma plain_cons n w r :
  plain_columns ((n, w) :: r) = true -> is_date_col n = false /\ plain_columns r = true.
Proof.
  unfold plain_columns. cbn [forallb fst]. intro H.
  apply andb_prop in H. destruct H as [H1 H2].
  apply negb_true_iff in H1. split; assumption.
Qed.

Lemma get_col_dated pre post v :
  plain_columns pre = true -> get_col (pre ++ (xn, v) :: post) xn = v.
Proof.
  induction pre as [|[n w] r IH]; intro H; cbn [app get_col].
  - rewrite text_eqb_refl. reflexivity.
  - destruct (plain_cons _ _ _ H) as [H1 H2].
    rewrite (plain_not_xn _ H1). exact (IH H2).
Qed.

Lemma set_col_dated pre post v w :
  plain_columns pre = true ->
  set_col (pre ++ (xn, v) :: post) xn w = pre ++ (xn, w) :: post.
Proof.
  induction pre as [|[n u] r IH]; intro H; cbn [app set_col].
  - rewrite text_eqb_refl. reflexivity.
  - destruct (plain_cons _ _ _ H) as [H1 H2].
    rewrite (plain_not_xn _ H1). rewrite (IH H2). reflexivity.
Qed.

Lemma has_col_dated pre post v : has_col (pre ++ (xn, v) :: post) xn = true.
Proof.
  unfold has_col, mem_text, column_names. rewrite map_app, existsb_app.
  cbn [map existsb fst]. rewrite text_eqb_refl. cbn [orb]. apply orb_true_r.
Qed.

Lemma date_col_dated pre post v :
  existsb is_date_col (column_names (pre ++ (xn, v) :: post)) = true.
Proof.
  unfold column_names. rewrite map_app, existsb_app. cbn [map existsb fst].
  change (is_date_col xn) with true. cbn [orb]. apply orb_true_r.
Qed.

Lemma find_none_all {A} (p : A -> bool) l :
  (forall x, In x l -> p x = false) -> find p l = None.
Proof.
  induction l as [|a r IH]; intro H; [reflexivity|].
  cbn [find]. rewrite (H a (or_introl eq_refl)).
  apply IH. intros x Hx. apply H. right. exact Hx.
Qed.

Lemma no_value_date_col pre post v :
  plain_columns (pre ++ post) = true ->
  find_value_date_col (pre ++ (xn, v) :: post) = None.
Proof.
  intro H. unfold find_value_date_col. apply find_none_all.
  intros n Hn. unfold column_names in Hn. apply in_map_iff in Hn.
  destruct Hn as ([n' w] & <- & Hin). cbn [fst].
  apply in_app_or in Hin.
  assert (Hplain : In (n', w) (pre ++ post) -> is_date_col n' = false).
  { intro Hc. unfold plain_columns in H. rewrite forallb_forall in H.
    specialize (H _ Hc). apply negb_true_iff in H. exact H. }
  destruct Hin as [Hin|[Hin|Hin]].
  - unfold is_date_col in Hplain. rewrite Hplain by (apply in_or_app; left; exact Hin).
    rewrite andb_false_r. reflexivity.
  - injection Hin as <- _. rewrite text_eqb_refl. apply andb_false_r.
  - unfold is_date_col in Hplain. rewrite Hplain by (apply in_or_app; right; exact Hin).
    rewrite andb_false_r. reflexivity.
Qed.

Lemma nrows_dated pre post v :
  rows_of (length v) (pre ++ post) = true -> nrows (pre ++ (xn, v) :: post) = length v.
Proof.
  destruct pre as [|[n w] r]; [reflexivity|].
  unfold rows_of. cbn [app forallb snd nrows]. intro H.
  apply andb_prop in H. destruct H as [H _]. apply Nat.eqb_eq in H. exact H.
Qed.

Lemma plain_map (f : list cell -> list cell) cols :
  plain_columns cols = true ->
  map (fun col => if is_date_col (fst col) then (fst col, f (snd col)) else col) cols = cols.
Proof.
  induction cols as [|[n w] r IH]; intro H; [reflexivity|].
  destruct (plain_cons _ _ _ H) as [H1 H2].
  cbn [map fst snd]. rewrite H1. rewrite (IH H2). reflexivity.
Qed.

Lemma list_by_index {A} (l : list A) d :
  map (fun i => nth i l d) (seq 0 (length l)) = l.
Proof.
  apply (nth_ext _ _ d d).
  - rewrite length_map, length_seq. reflexivity.
  - intros n Hn. rewrite length_map, length_seq in Hn.
    apply (nth_map_seq (fun i => nth i l d)). exact Hn.
Qed.

Lemma nth_map_at {A B} (f : A -> B) l i d d' :
  (i < length l)%nat -> nth i (map f l) d' = f (nth i l d).
Proof.
  intro H. rewrite (nth_indep _ d' (f d)) by (rewrite length_map; exact H).
  apply map_nth.
Qed.

Lemma calendar_nth ts i :
  valid_dates ts = true -> (i < length ts)%nat -> valid_date (nth i ts origin) = true.
Proof.
  intros H Hi. unfold valid_dates in H. rewrite forallb_forall in H.
  exact (H (nth i ts origin) (nth_In _ _ Hi)).
Qed.

Lemma sorted_dates ts i j :
  in_order ts = true -> (i <= j)%nat -> (j < length ts)%nat ->
  day_number (nth i ts origin) <= day_number (nth j ts origin).
Proof.
  intros H Hij Hj. unfold in_order in H.
  pose proof (sorted_nth _ H i j Hij ltac:(rewrite length_map; exact Hj)) as S.
  rewrite !(nth_map_at day_number ts _ origin 0) in S by lia. exact S.
Qed.

Lemma fold_fixed {A B} (f : A -> B -> A) l s :
  (forall x, In x l -> f s x = s) -> fold_left f l s = s.
Proof.
  induction l as [|a r IH]; intro H; [reflexivity|].
  cbn [fold_left]. rewrite (H a (or_introl eq_refl)).
  apply IH. intros x Hx. apply H. right. exact Hx.
Qed.

Lemma filter_none {A} (f : A -> bool) l :
  (forall x, In x l -> f x = false) -> filter f l = [].
Proof.
  induction l as [|a r IH]; intro H; [reflexivity|].
  cbn [filter]. rewrite (H a (or_introl eq_refl)).
  apply IH. intros x Hx. apply H. right. exact Hx.
Qed.

Lemma first_valid_skipn l :
  Forall (fun d => is_valid_date d = true) l ->
  forall k, first_valid (skipn k l) = nth_error l k.
Proof.
  unfold first_valid. induction 1 as [|d r Hd Hr IH]; intro k.
  - destruct k; reflexivity.
  - destruct k as [|k]; cbn [skipn nth_error find].
    + rewrite Hd. reflexivity.
    + apply IH.
Qed.

(** A date between the one before and the one after it is in order. *)
Lemma in_order_between z p q :
  valid_date z = true ->
  (forall x, p = Some x -> valid_date x = true /\ day_number x <= day_number z) ->
  (forall x, q = Some x -> valid_date x = true /\ day_number z <= day_number x) ->
  is_date_in_order (strftime z) (option_map strftime p) (option_map strftime q)
    Ascending = true.
Proof.
  intros Hz Hp Hq. unfold is_date_in_order.
  rewrite (day_valid z Hz), (day_datetime z Hz). cbn [is_ascending].
  assert (Ep : match option_map strftime p with
               | Some b => if is_valid_date b
                           then match datetime_of b with
                                | Some dt => Some (negb (day_number z <? dt))
                                | None => None
                                end
                           else Some true
               | None => Some true
               end = Some true).
  { destruct p as [x|]; cbn [option_map]; [|reflexivity].
    destruct (Hp x eq_refl) as [Hx Hle].
    rewrite (day_valid x Hx), (day_datetime x Hx).
    replace (day_number z <? day_number x) with false
      by (symmetry; apply Z.ltb_ge; exact Hle).
    reflexivity. }
  assert (Eq : match option_map strftime q with
               | Some b => if is_valid_date b
                           then match datetime_of b with
                                | Some dt => Some (negb (day_number z >? dt))
                                | None => None
                                end
                           else Some true
               | None => Some true
               end = Some true).
  { destruct q as [x|]; cbn [option_map]; [|reflexivity].
    destruct (Hq x eq_refl) as [Hx Hle].
    rewrite (day_valid x Hx), (day_datetime x Hx).
    replace (day_number z >? day_number x) with false
      by (symmetry; rewrite Z.gtb_ltb; apply Z.ltb_ge; exact Hle).
    reflexivity. }
  cbv zeta. rewrite Ep, Eq. reflexivity.
Qed.

(** ** The repair of a ledger in order *)

Section Fixed.

Variable get_close_matches : text -> list text -> option text.
Variable to_datetime : bool -> text -> option (Z * Z * Z).
Variable str_float : Q -> text.

Variables (pre post : frame) (ts : list date).

Hypothesis plain : plain_columns (pre ++ post) = true.
Hypothesis rows : rows_of (length ts) (pre ++ post) = true.
Hypothesis days : valid_dates ts = true.
Hypothesis sorted : in_order ts = true.

Local Abbreviation df := (dated_ledger pre post ts).
Local Abbreviation dates := (map strftime ts).
Local Abbreviation repair_row := (repair_row get_close_matches to_datetime str_float).
Local Abbreviation repair_loop := (repair_loop get_close_matches to_datetime str_float).
Local Abbreviation date_correction :=
  (date_correction get_close_matches to_datetime str_float).
Local Abbreviation parsed_dates := (parsed_dates get_close_matches to_datetime str_float).
Local Abbreviation parse_date_columns :=
  (parse_date_columns get_close_matches to_datetime str_float).
Local Abbreviation fix_year_row := (fix_year_row str_float).
Local Abbreviation fix_years := (fix_chronological_year_issues str_float).
Local Abbreviation process_all_dates_order :=
  (process_all_dates_order get_close_matches to_datetime str_float).

Lemma plain_pre : plain_columns pre = true.
Proof. exact (proj1 (plain_app _ _ plain)). Qed.

Lemma dates_column : get_col df xn = date_cells ts.
Proof. apply get_col_dated. exact plain_pre. Qed.

Lemma nrows_ledger : nrows df = length ts.
Proof.
  unfold dated_ledger. rewrite nrows_dated; unfold date_cells; rewrite length_map;
    [reflexivity | exact rows].
Qed.

Lemma with_dates_same : with_dates df dates = df.
Proof.
  unfold with_dates, dated_ledger. rewrite set_col_dated by exact plain_pre.
  unfold date_cells. rewrite map_map. reflexivity.
Qed.

Lemma nth_cell i :
  (i < length ts)%nat -> nth i (date_cells ts) CMissing = CText (strftime (nth i ts origin)).
Proof. intro H. unfold date_cells. apply (nth_map_at (fun z => CText (strftime z))). exact H. Qed.

Lemma nth_date i : (i < length ts)%nat -> date_at dates i = strftime (nth i ts origin).
Proof. intro H. unfold date_at. apply nth_map_at. exact H. Qed.

Lemma row_not_blank i : (i < length ts)%nat -> is_empty_row df i = false.
Proof.
  intro H. destruct (is_empty_row df i) eqn:E; [|reflexivity].
  apply (is_empty_row_cell _ xn) in E. rewrite dates_column, (nth_cell i H) in E.
  rewrite day_not_blank in E by (apply calendar_nth; assumption). discriminate.
Qed.

Lemma parse_columns_same : parse_date_columns df = df.
Proof.
  destruct (plain_app _ _ plain) as [Hpre Hpost].
  unfold Chronology.parse_date_columns, dated_ledger. rewrite map_app. cbn [map fst snd].
  rewrite (plain_map _ pre Hpre), (plain_map _ post Hpost).
  change (is_date_col xn) with true. cbv iota.
  do 3 f_equal. unfold date_cells. rewrite map_map. apply map_ext_in.
  intros z Hz. unfold Chronology.parse_cell, parse.
  assert (Hc : valid_date z = true).
  { destruct (In_nth _ _ origin Hz) as (i & Hi & <-). apply calendar_nth; assumption. }
  destruct (day_facts get_close_matches to_datetime z Hc) as (_ & _ & Hp & _).
  rewrite Hp. reflexivity.
Qed.

Lemma parsed_same : parsed_dates df = dates.
Proof.
  unfold Chronology.parsed_dates. rewrite nrows_ledger.
  transitivity (map (fun i => nth i dates []) (seq 0 (length ts))).
  - apply map_ext_in. intros i Hi. apply in_seq in Hi.
    assert (Hl : (i < length ts)%nat) by lia.
    rewrite (row_not_blank i Hl), dates_column, (nth_cell i Hl).
    cbn [cell_text]. fold (date_at dates i). rewrite (nth_date i Hl).
    pose proof (calendar_nth ts i days Hl) as Hc.
    destruct (day_facts get_close_matches to_datetime _ Hc) as (_ & Hs & Hp & _).
    rewrite Hs. unfold parse. rewrite Hp. reflexivity.
  - rewrite <- (length_map strftime ts). apply list_by_index.
Qed.

Lemma dates_valid : Forall (fun d => is_valid_date d = true) dates.
Proof.
  apply Forall_forall. intros d Hd. apply in_map_iff in Hd.
  destruct Hd as (z & <- & Hz). apply day_valid.
  destruct (In_nth _ _ origin Hz) as (i & Hi & <-). apply calendar_nth; assumption.
Qed.

Lemma prev_dates i :
  (i < length ts)%nat ->
  prev_valid dates i
  = option_map strftime (match i with O => None | S k => Some (nth k ts origin) end).
Proof.
  intro H. destruct i as [|k]; [reflexivity|].
  cbn [prev_valid option_map]. rewrite nth_date by lia.
  rewrite day_valid by (apply calendar_nth; [exact days | lia]). reflexivity.
Qed.

Lemma next_dates i : next_valid dates i = option_map strftime (nth_error ts (S i)).
Proof.
  unfold next_valid. rewrite (first_valid_skipn _ dates_valid).
  apply nth_error_map.
Qed.




Lemma nothing_remains : remaining_invalid df dates = [].
Proof.
  unfold remaining_invalid. rewrite nrows_ledger.
  apply filter_none. intros i Hi. apply in_seq in Hi.
  assert (Hl : (i < length ts)%nat) by lia.
  rewrite (nth_date i Hl), day_valid by (apply calendar_nth; assumption).
  cbn [negb]. rewrite andb_false_r. reflexivity.
Qed.


Lemma order_of_dates : get_date_order dates = Ascending.
Proof.
  unfold get_date_order. apply order_sorted.
  assert (G : forall l seen,
             in_order l = true -> valid_dates l = true ->
             non_decreasing
               (flat_map (fun v => match datetime_of v with Some d => [d] | None => [] end)
                  (unique_valid seen (map strftime l))) = true
             /\ Forall (fun x => In x (map day_number l))
                  (flat_map (fun v => match datetime_of v with Some d => [d] | None => [] end)
                     (unique_valid seen (map strftime l)))).
  { unfold in_order.
    induction l as [|a r IH]; intros seen Hs Hd; [split; [reflexivity|constructor]|].
    cbn [map] in Hs. destruct (non_decreasing_inv _ _ Hs) as [Hall Hr].
    unfold valid_dates in Hd. cbn [forallb] in Hd.
    apply andb_prop in Hd. destruct Hd as [Hc Hd].
    cbn [map unique_valid].
    destruct (is_valid_date (strftime a) && negb (mem_text (strftime a) seen)).
    - cbn [flat_map]. rewrite (day_datetime a Hc). cbn [app].
      destruct (IH (strftime a :: seen) Hr Hd) as [I1 I2]. split.
      + apply non_decreasing_cons; [|exact I1].
        rewrite Forall_forall in *. intros x Hx. apply Hall. apply I2. exact Hx.
      + constructor; [left; reflexivity|].
        eapply Forall_impl; [|exact I2]. intros x Hx. right. exact Hx.
    - destruct (IH seen Hr Hd) as [I1 I2]. split; [exact I1|].
      eapply Forall_impl; [|exact I2]. intros x Hx. right. exact Hx. }
  exact (proj1 (G ts [] sorted days)).
Qed.


Lemma no_value_dates : find_value_date_col df = None.
Proof. apply no_value_date_col. exact plain. Qed.

Lemma cell_texts : map date_cell_text (date_cells ts) = dates.
Proof. unfold date_cells. rewrite map_map. reflexivity. Qed.

Lemma fix_year_row_same o i :
  (i < length ts)%nat -> fix_year_row df None o (date_cells ts) i = date_cells ts.
Proof.
  intro H. unfold Chronology.fix_year_row. cbv zeta. rewrite cell_texts.
  pose proof (calendar_nth ts i days H) as Hc.
  rewrite (nth_date i H), (day_valid _ Hc), (day_ints _ Hc).
  destruct (nth i ts origin) as [[d m] y] eqn:Ec.
  cbn [value_date_text length Nat.eqb negb andb].
  destruct o; [|reflexivity].
  rewrite (prev_dates i H). destruct i as [|k]; [reflexivity|]. cbn [option_map].
  assert (Hk : (k < length ts)%nat) by lia.
  pose proof (calendar_nth ts k days Hk) as Hck.
  rewrite (day_ints _ Hck).
  destruct (nth k ts origin) as [[d' m'] y'] eqn:Ek.
  assert (Hy : y' <= y).
  { pose proof (sorted_dates ts k (S k) sorted (Nat.le_succ_diag_r k) H) as Hs.
    rewrite Ec, Ek in Hs. exact (year_mono _ _ Hck Hc Hs). }
  replace (y <? y') with false by (symmetry; apply Z.ltb_ge; exact Hy).
  reflexivity.
Qed.

Lemma fix_years_same : fix_years df = df.
Proof.
  unfold Chronology.fix_chronological_year_issues.
  unfold dated_ledger at 1. rewrite has_col_dated. cbn [negb]. cbv zeta.
  fold df. rewrite dates_column.
  match goal with |- (if ?b then _ else _) = _ => destruct b end; [reflexivity|].
  rewrite no_value_dates. rewrite fold_fixed.
  - unfold dated_ledger. apply set_col_dated. exact plain_pre.
  - intros i Hi. apply in_seq in Hi. apply fix_year_row_same.
    unfold date_cells in Hi. rewrite length_map in Hi. lia.
Qed.


End Fixed.

End AscendingLedgers.

Import AscendingLedgers.

(* ================================================================== *)
(** * Properties of the chronology repair *)
(* ================================================================== *)

Module ChronologyClaims.





End ChronologyClaims.

(* ================================================================== *)
(** * Properties of the date parser *)
(* ================================================================== *)

Module ParserClaims.

(** A year of three digits is kept as it is written. *)
Lemma three_digit_year gcm td :
  parse_custom_date gcm td (T "15-JAN-202") = Some (T "15/01/202").
Proof. vm_compute. reflexivity. Qed.




End ParserClaims.

(* ================================================================== *)
(** * Properties of the rotation *)
(* ================================================================== *)

Module RotationClaims.

(** C7: for a descending ledger [rotate_if_descending] returns the rows in
    the reverse order and the direction ascending.  The columns keep
    their names and their number of rows, and row [i] of the result is
    row [n - 1 - i] of the ledger, cell by cell: row 0 is the former last
    row.  Whatever the direction given, the direction returned is
    ascending. *)
Theorem rotation_reverses_rows (df : frame) :
  well_formed df ->
  rotate_if_descending df Descending = (reverse_rows df, Ascending)
  /\ column_names (reverse_rows df) = column_names df
  /\ nrows (reverse_rows df) = nrows df
  /\ (forall i, (i < nrows df)%nat ->
                row_at (reverse_rows df) i = row_at df (nrows df - 1 - i))
  /\ (forall o, snd (rotate_if_descending df o) = Ascending).
Proof.
  intro Hwf. split; [reflexivity|]. split; [apply names_reverse|].
  split; [apply nrows_reverse|]. split.
  - intros i Hi. apply row_at_reverse; assumption.
  - intros [|]; reflexivity.
Qed.

Lemma rotation_reverses_rows_witness :
  row_at (fst (rotate_if_descending descending_ledger Descending)) 0
  = [CText (T "01/01/2024"); CText (T "a"); CNum 10].
Proof.
  assert (Hwf : well_formed descending_ledger) by (repeat constructor).
  destruct (rotation_reverses_rows descending_ledger Hwf) as (E & _ & _ & R & _).
  rewrite E. cbn [fst]. rewrite (R 0%nat) by (cbn; lia). reflexivity.
Defined.

End RotationClaims.

(* ================================================================== *)
(** * Properties of blank rows *)
(* ================================================================== *)

Module BlankRowClaims.

Lemma split_at {A} (l : list A) d : forall i,
  (i < length l)%nat -> l = firstn i l ++ nth i l d :: skipn (S i) l.
Proof.
  induction l as [|x r IH]; intros i Hi; [cbn in Hi; lia|].
  destruct i as [|i]; [reflexivity|]. cbn [firstn nth skipn app].
  f_equal. apply IH. cbn in Hi. lia.
Qed.

Lemma unique_valid_skip l1 l2 : forall seen,
  unique_valid seen (l1 ++ [] :: l2) = unique_valid seen (l1 ++ l2).
Proof.
  induction l1 as [|v r IH]; intro seen; [reflexivity|].
  cbn [app unique_valid]. destruct (is_valid_date v && negb (mem_text v seen));
    rewrite IH; reflexivity.
Qed.

(** The direction is inferred as if a row without a date were not
    there. *)
Lemma get_date_order_skip dates idx :
  date_at dates idx = [] -> (idx < length dates)%nat ->
  get_date_order dates = get_date_order (firstn idx dates ++ skipn (S idx) dates).
Proof.
  intros H Hi. unfold get_date_order.
  rewrite (split_at dates [] idx Hi) at 1. unfold date_at in H. rewrite H.
  rewrite unique_valid_skip. reflexivity.
Qed.

(** C9: a blank row of a ledger has no date after the parsing; the
    direction is inferred as if the row were not there; the repair loop
    and the verification pass do nothing at the row; the row is in no run
    of rows to be given dates; and the row is blank, its date empty, after
    [date_correction] and, at the place the rotation gives it, after
    [process_all_dates]. *)
Theorem blank_rows_are_left_out gcm td sf (df : frame) (idx : nat) :
  well_formed df -> (idx < nrows df)%nat -> is_empty_row df idx = true ->
  date_at (parsed_dates gcm td sf df) idx = []
  /\ get_date_order (parsed_dates gcm td sf df)
     = get_date_order (firstn idx (parsed_dates gcm td sf df)
                       ++ skipn (S idx) (parsed_dates gcm td sf df))
  /\ (forall v o st, repair_row gcm td sf df v o st idx = st)
  /\ (forall o dates, verify_row df o dates idx = dates)
  /\ (forall dates, ~ In idx (remaining_invalid df dates))
  /\ is_empty_row (fst (date_correction gcm td sf df)) idx = true
  /\ (has_col df xn = true ->
      date_at (map date_cell_text (get_col (fst (date_correction gcm td sf df)) xn)) idx = [])
  /\ is_empty_row (process_all_dates gcm td sf df)
       (position_after (snd (date_correction gcm td sf (parse_date_columns gcm td sf df)))
          (nrows df) idx) = true.
Proof.
  intros Hwf Hi Hb.
  pose proof (parsed_dates_blank gcm td sf df idx Hb) as Hp.
  destruct (date_correction_blank gcm td sf df idx Hb) as [Hc1 Hc2].
  repeat split.
  - exact Hp.
  - apply get_date_order_skip; [exact Hp|].
    unfold parsed_dates. rewrite length_map, length_seq. exact Hi.
  - intros v o [dates made]. unfold repair_row. rewrite Hb. reflexivity.
  - intros o dates. unfold verify_row. rewrite Hb. reflexivity.
  - intro dates. apply blank_not_remaining. exact Hb.
  - exact Hc1.
  - exact Hc2.
  - unfold process_all_dates. apply process_all_dates_blank; assumption.
Qed.

Lemma blank_rows_are_left_out_witness :
  date_at (parsed_dates no_close no_pd no_str blank_ledger) 1 = []
  /\ is_empty_row (fst (date_correction no_close no_pd no_str blank_ledger)) 1 = true.
Proof.
  assert (Hwf : well_formed blank_ledger) by (repeat constructor).
  assert (Hi : (1 < nrows blank_ledger)%nat) by (cbn; lia).
  destruct (blank_rows_are_left_out no_close no_pd no_str blank_ledger 1 Hwf Hi eq_refl)
    as (H1 & _ & _ & _ & _ & H2 & _).
  split; assumption.
Defined.

End BlankRowClaims.

(* ================================================================== *)
(** * The amount parsers on plain numbers *)
(* ================================================================== *)

Module PlainAmounts.

(** ** Characters kept by the cleaning steps *)

Lemma minus_lower : forall c, Bool.eqb (Ascii.eqb "-" (to_lower c)) (Ascii.eqb "-" c) = true.
Proof. apply ascii_forall. vm_compute. reflexivity. Qed.

Lemma mem_minus_lower s : mem_char "-" (lower s) = mem_char "-" s.
Proof.
  unfold mem_char, lower. induction s as [|c s IH]; [reflexivity|].
  cbn [map existsb]. rewrite IH. f_equal. apply eqb_prop. apply minus_lower.
Qed.

Lemma mem_char_app c a b : mem_char c (a ++ b) = mem_char c a || mem_char c b.
Proof. apply existsb_app. Qed.

Lemma mem_char_rev c s : mem_char c (rev s) = mem_char c s.
Proof.
  induction s as [|x s IH]; [reflexivity|].
  cbn [rev]. rewrite mem_char_app, IH. unfold mem_char. cbn [existsb].
  rewrite orb_false_r. apply orb_comm.
Qed.

Lemma mem_char_lstrip c s : is_space c = false -> mem_char c (lstrip s) = mem_char c s.
Proof.
  intro Hc. induction s as [|x s IH]; [reflexivity|].
  cbn [lstrip]. destruct (is_space x) eqn:Ex; [|reflexivity].
  rewrite IH. unfold mem_char. cbn [existsb].
  destruct (Ascii.eqb c x) eqn:E; [|reflexivity].
  apply Ascii.eqb_eq in E. congruence.
Qed.

Lemma mem_char_strip c s : is_space c = false -> mem_char c (strip s) = mem_char c s.
Proof.
  intro Hc. unfold strip, rstrip.
  rewrite mem_char_rev, (mem_char_lstrip _ _ Hc), mem_char_rev. apply mem_char_lstrip. exact Hc.
Qed.

(** ** The run of digits and dots handed to [float] *)

Lemma span_numeric s : numeric (fst (span is_num_char s)).
Proof.
  induction s as [|c s IH]; [constructor|].
  cbn [span]. destruct (is_num_char c) eqn:E; [|constructor].
  destruct (span is_num_char s) as [a b]. constructor; assumption.
Qed.

Lemma first_run_numeric s : forall raw, first_run s = Some raw -> numeric raw.
Proof.
  induction s as [|c s IH]; intro raw; [discriminate|].
  change (first_run (c :: s))
    with (if is_num_char c then Some (fst (span is_num_char (c :: s))) else first_run s).
  destruct (is_num_char c).
  - intro H. injection H as <-. exact (span_numeric (c :: s)).
  - apply IH.
Qed.

Lemma split_on_forall (P : ascii -> Prop) sep s :
  Forall P s -> Forall (Forall P) (split_on sep s).
Proof.
  induction 1 as [|c s Hc Hs IH]; [repeat constructor|].
  cbn [split_on]. destruct (Ascii.eqb c sep).
  - constructor; [constructor | exact IH].
  - destruct (split_on sep s) as [|p ps]; [repeat constructor; exact Hc|].
    inversion IH; subst. constructor; [constructor; assumption | assumption].
Qed.

Lemma numeric_join parts : Forall numeric parts -> numeric (join parts).
Proof.
  induction 1 as [|p r Hp _ IH]; [constructor|].
  unfold join. cbn [concat]. apply Forall_app. split; assumption.
Qed.

Lemma numeric_pieces n s : numeric s -> numeric (firstn n s) /\ numeric (skipn n s).
Proof.
  intro H. rewrite <- (firstn_skipn n s) in H. apply Forall_app in H. exact H.
Qed.

Lemma numeric_dot s : numeric s -> numeric ("."%char :: s).
Proof. intro H. constructor; [reflexivity | exact H]. Qed.

Lemma numeric_regroup raw : numeric raw -> numeric (regroup_dots raw).
Proof.
  intro H. pose proof (split_on_forall _ "." raw H) as Hp.
  unfold regroup_dots. destruct (Nat.ltb 2 (length (split_on "." raw))).
  - destruct (Nat.eqb (length (last (split_on "." raw) [])) 3).
    + apply numeric_join. exact Hp.
    + apply Forall_app. split.
      * apply numeric_join. apply (Forall_removelast numeric). exact Hp.
      * apply numeric_dot. apply (Forall_last numeric); [exact Hp | constructor].
  - destruct (split_on "." raw) as [|p0 [|p1 [|? ?]]]; try exact H.
    destruct (Nat.ltb 2 (length p1)); [|exact H].
    inversion Hp as [|? ? H0 Hp']; subst. inversion Hp' as [|? ? H1 _]; subst.
    assert (Hd : numeric (p0 ++ p1)) by (apply Forall_app; split; assumption).
    apply Forall_app. split.
    + apply (numeric_pieces _ _ Hd).
    + apply numeric_dot. apply (numeric_pieces _ _ Hd).
Qed.

(** ** Digits, a dot, digits *)

Section Decimal.

Variables a b : text.
Hypothesis digits_a : all_digits a = true.
Hypothesis digits_b : all_digits b = true.
Hypothesis some_digit : a ++ b <> [].

Let token := a ++ "."%char :: b.













End Decimal.

(** ** Digits alone *)

Section Whole.

Variable a : text.
Hypothesis digits_a : all_digits a = true.
Hypothesis some_digit : a <> [].






End Whole.

End PlainAmounts.

Import PlainAmounts.

Module AmountProperties.





(** X3.  The sign of [extract_amount] comes from the minus sign alone: a
    token with a minus sign anywhere in it never gives a positive amount,
    a token without one never gives a negative amount. *)
Theorem extract_amount_sign (value : text) (v : Q) :
  extract_amount value = Some v ->
  if mem_char "-" value then (v <= 0)%Q else (0 <= v)%Q.
Proof.
  unfold extract_amount.
  rewrite (mem_char_strip "-") by reflexivity. rewrite mem_minus_lower.
  destruct (first_run _) as [raw|] eqn:Er; [|discriminate].
  destruct (float_of_text (regroup_dots raw)) as [amount|] eqn:Ef; [|discriminate].
  intro H. injection H as <-.
  assert (Hpos : (0 <= amount)%Q).
  { apply (float_of_text_nonneg _ _ Ef). apply not_minus_first.
    apply numeric_regroup. apply (first_run_numeric _ _ Er). }
  destruct (mem_char "-" value); [|exact Hpos].
  apply (Qopp_le_compat 0) in Hpos. exact Hpos.
Qed.

Lemma extract_amount_sign_witness :
  extract_amount (T "12.50-") = Some (- (1250 # 100))%Q /\ (- (1250 # 100) <= 0)%Q.
Proof.
  split; [reflexivity|].
  exact (extract_amount_sign (T "12.50-") (- (1250 # 100))%Q eq_refl).
Defined.

End AmountProperties.

(* ================================================================== *)
(** * The verifier: columns and verdicts *)
(* ================================================================== *)

Module VerdictFacts.

(** ** Columns of a frame *)

Lemma has_set_col (df : frame) name v other :
  has_col (set_col df name v) other = has_col df other || text_eqb other name.
Proof.
  unfold has_col, column_names, mem_text.
  induction df as [|[n w] r IH]; cbn [set_col].
  - cbn [map existsb fst]. rewrite orb_false_r. reflexivity.
  - destruct (text_eqb name n) eqn:E; cbn [map existsb fst].
    + apply text_eqb_eq in E. subst n. clear IH.
      destruct (text_eqb other name); destruct (existsb _ _); reflexivity.
    + rewrite IH. apply orb_assoc.
Qed.

Lemma has_col_in (df : frame) name : has_col df name = true -> In name (column_names df).
Proof.
  unfold has_col, mem_text. intro H. apply existsb_exists in H.
  destruct H as (x & Hx & E). apply text_eqb_eq in E. subst x. exact Hx.
Qed.

Lemma not_found key (df : frame) name :
  find_col_containing key df = None -> contains key (lower name) = true ->
  has_col df name = false.
Proof.
  intros Hf Hc. destruct (has_col df name) eqn:E; [|reflexivity].
  apply has_col_in in E. unfold find_col_containing in Hf.
  pose proof (find_none _ _ Hf name E) as F. cbv beta in F. congruence.
Qed.

Lemma find_set_col key (df : frame) name v :
  find_col_containing key df = None -> contains key (lower name) = false ->
  find_col_containing key (set_col df name v) = None.
Proof.
  unfold find_col_containing, column_names. intros Hf Hc.
  induction df as [|[n w] r IH]; cbn [set_col map find fst].
  - rewrite Hc. reflexivity.
  - cbn [map find fst] in Hf.
    destruct (contains key (lower n)) eqn:En; [discriminate|].
    destruct (text_eqb name n); cbn [map find fst]; rewrite En; [exact Hf|].
    apply IH. exact Hf.
Qed.

Section Frames.

Variable py_float : text -> option Q.

Local Abbreviation verify := (calculate_difference_and_verify py_float).

(** The frame after the verifier has added its two columns. *)
Lemma amount_column_missing (df : frame) key (plain corrected : text) :
  find_col_containing key df = None ->
  contains key (lower plain) = true -> contains key (lower corrected) = true ->
  contains key (T "difference") = false -> contains key (T "balance_adjusted") = false ->
  forall v w,
    (if has_col (set_col (set_col df (T "Difference") v) (T "Balance_Adjusted") w) corrected
     then Some corrected
     else if has_col (set_col (set_col df (T "Difference") v) (T "Balance_Adjusted") w) plain
          then Some plain
          else find_col_containing key
                 (set_col (set_col df (T "Difference") v) (T "Balance_Adjusted") w))
    = None.
Proof.
  intros Hf Hp Hc Hd Hb v w.
  assert (Hf' : find_col_containing key
                  (set_col (set_col df (T "Difference") v) (T "Balance_Adjusted") w) = None).
  { apply find_set_col; [apply find_set_col|]; assumption. }
  rewrite (not_found key _ corrected Hf' Hc), (not_found key _ plain Hf' Hp). exact Hf'.
Qed.

Lemma debit_name_missing (df : frame) v w :
  find_col_containing (T "debit") df = None ->
  debit_name (set_col (set_col df (T "Difference") v) (T "Balance_Adjusted") w) = None.
Proof.
  intro Hf. unfold debit_name.
  pose proof (amount_column_missing df (T "debit") (T "Debits") (T "Debits_Corrected") Hf
                eq_refl eq_refl eq_refl eq_refl v w) as H.
  destruct (has_col _ (T "Debits_Corrected")); [discriminate|].
  destruct (has_col _ (T "Debits")); [discriminate|]. exact H.
Qed.

Lemma credit_name_missing (df : frame) v w :
  find_col_containing (T "credit") df = None ->
  credit_name (set_col (set_col df (T "Difference") v) (T "Balance_Adjusted") w) = None.
Proof.
  intro Hf. unfold credit_name.
  pose proof (amount_column_missing df (T "credit") (T "Credits") (T "Credits_Corrected") Hf
                eq_refl eq_refl eq_refl eq_refl v w) as H.
  destruct (has_col _ (T "Credits_Corrected")); [discriminate|].
  destruct (has_col _ (T "Credits")); [discriminate|]. exact H.
Qed.

(** ** Differences out of range *)




End Frames.

End VerdictFacts.

Import VerdictFacts.

Module LedgerProperties.



(** X5.  A ledger of one row, or of none, is never adjusted: the verifier
    reports [adjusted = false] and [all_correct = true] and leaves the
    balance, rounded to two decimals, in [Balance_Adjusted]. *)
Theorem short_ledger_is_not_adjusted (py_float : text -> option Q)
    (dates cheques narration debits credits balance : list cell) :
  (length dates <= 1)%nat ->
  exists v,
    calculate_difference_and_verify py_float
      (cleaned_frame dates cheques narration debits credits balance) = Some v
    /\ adjusted v = false /\ all_correct v = true
    /\ get_col (df_diff v) (T "Balance_Adjusted") = rounded py_float balance.
Proof.
  intro Hn.
  destruct (verify_keeps py_float dates cheques narration debits credits balance)
    as (v & Hv & Ha & Hc & Hb & _).
  { assert (E : Nat.ltb 1 (length dates) = false) by (apply Nat.ltb_ge; exact Hn).
    rewrite E. apply andb_false_r. }
  exists v. repeat split; try assumption.
  rewrite Hc. destruct (length dates) as [|[|m]]; [reflexivity | reflexivity | lia].
Qed.

Lemma short_ledger_is_not_adjusted_witness :
  exists v,
    calculate_difference_and_verify float_of_text
      (cleaned_frame [CText (T "01/01/2024")] [CMissing] [CText (T "opening")]
         [CMissing] [CNum 50] [CNum (123456 # 1000)]) = Some v
    /\ adjusted v = false /\ all_correct v = true
    /\ get_col (df_diff v) (T "Balance_Adjusted") = [num_cell 12346].
Proof.
  apply (short_ledger_is_not_adjusted float_of_text). simpl. lia.
Defined.



(** X7.  The verifier adds the columns [Difference] and [Balance_Adjusted]
    after the six columns of the ledger and writes nowhere else but in
    [Debits] and [Credits], which it rounds in place: the dates, the cheque
    numbers, the narration and the column [Balance] come back as given. *)
Theorem verifier_keeps_the_ledger (py_float : text -> option Q)
    (dates cheques narration debits credits balance : list cell) :
  exists v,
    calculate_difference_and_verify py_float
      (cleaned_frame dates cheques narration debits credits balance) = Some v
    /\ column_names (df_diff v)
       = [T "XN Date"; T "Cheque No"; T "Narration"; T "Debits"; T "Credits"; T "Balance";
          T "Difference"; T "Balance_Adjusted"]
    /\ get_col (df_diff v) (T "XN Date") = dates
    /\ get_col (df_diff v) (T "Cheque No") = cheques
    /\ get_col (df_diff v) (T "Narration") = narration
    /\ get_col (df_diff v) (T "Balance") = balance
    /\ get_col (df_diff v) (T "Debits") = rounded py_float debits
    /\ get_col (df_diff v) (T "Credits") = rounded py_float credits.
Proof.
  rewrite verify_cleaned. unfold verify_columns.
  destruct (all_differences_in_range _ && Nat.ltb 1 (length dates));
    (eexists; split; [reflexivity|]); cbn [df_diff]; repeat split; reflexivity.
Qed.

(** X8.  Without a column [Balance_Corrected] or [Balance] the verifier
    raises; with one of them but no column whose name contains "debit", or
    none whose name contains "credit", it returns both flags [false] and a
    [Difference] column of zeros. *)
Theorem missing_columns (py_float : text -> option Q) (df : frame) :
  (has_col df (T "Balance_Corrected") = false -> has_col df (T "Balance") = false ->
   calculate_difference_and_verify py_float df = None)
  /\ (has_col df (T "Balance_Corrected") = true \/ has_col df (T "Balance") = true ->
      find_col_containing (T "debit") df = None
      \/ find_col_containing (T "credit") df = None ->
      exists v,
        calculate_difference_and_verify py_float df = Some v
        /\ all_correct v = false /\ adjusted v = false
        /\ get_col (df_diff v) (T "Difference") = repeat (CNum 0) (nrows df)).
Proof.
  split.
  - intros H1 H2. unfold calculate_difference_and_verify.
    rewrite !has_set_col, H1, H2. reflexivity.
  - intros Hb Hm. unfold calculate_difference_and_verify.
    rewrite !has_set_col.
    set (df1 := set_col df (T "Difference") (repeat (CNum 0) (nrows df))).
    assert (Hres : forall b,
              exists v,
                match debit_name (set_col df1 (T "Balance_Adjusted") (get_col df1 b)),
                      credit_name (set_col df1 (T "Balance_Adjusted") (get_col df1 b))
                with
                | Some debit_col, Some credit_col =>
                    let df2 := round_col py_float
                                 (set_col df1 (T "Balance_Adjusted") (get_col df1 b))
                                 debit_col in
                    let df3 := round_col py_float df2 credit_col in
                    let df4 := round_col py_float df3 (T "Balance_Adjusted") in
                    Some (verify_columns py_float df4 (nrows df)
                            (get_col df4 debit_col) (get_col df4 credit_col))
                | _, _ =>
                    Some {| df_diff := set_col df1 (T "Balance_Adjusted") (get_col df1 b);
                            all_correct := false; adjusted := false |}
                end = Some v
                /\ all_correct v = false /\ adjusted v = false
                /\ get_col (df_diff v) (T "Difference") = repeat (CNum 0) (nrows df)).
    { intro b.
      assert (Hd : get_col (set_col df1 (T "Balance_Adjusted") (get_col df1 b))
                     (T "Difference") = repeat (CNum 0) (nrows df)).
      { rewrite get_set_other by reflexivity. apply get_set_same. }
      destruct Hm as [Hm | Hm].
      - unfold df1 in *. rewrite (debit_name_missing _ _ _ Hm).
        eexists. split; [reflexivity|]. repeat split. exact Hd.
      - unfold df1 in *. rewrite (credit_name_missing _ _ _ Hm).
        destruct (debit_name _); (eexists; split; [reflexivity|]);
          repeat split; exact Hd. }
    destruct (has_col df (T "Balance_Corrected")) eqn:E1; cbn [orb].
    + apply Hres.
    + destruct Hb as [Hb | Hb]; [discriminate|]. rewrite Hb. cbn [orb]. apply Hres.
Qed.

Lemma missing_columns_witness :
  calculate_difference_and_verify float_of_text [(T "Narration", [CText (T "rent")])] = None
  /\ exists v,
       calculate_difference_and_verify float_of_text
         [(T "Balance", [CNum 10; CNum 20]); (T "Credits", [CNum 0; CNum 10])] = Some v
       /\ all_correct v = false /\ adjusted v = false
       /\ get_col (df_diff v) (T "Difference") = [CNum 0; CNum 0].
Proof.
  split.
  - apply (proj1 (missing_columns float_of_text [(T "Narration", [CText (T "rent")])]));
      reflexivity.
  - apply (proj2 (missing_columns float_of_text
                    [(T "Balance", [CNum 10; CNum 20]); (T "Credits", [CNum 0; CNum 10])])).
    + right. reflexivity.
    + left. reflexivity.
Defined.

End LedgerProperties.

(* ================================================================== *)
(** * The date parser on its own results *)
(* ================================================================== *)

Module ParsedTexts.

(** ** Day, month and year of a text DD/MM/Y...Y *)

Lemma pair_digits a b : is_digit a = true -> is_digit b = true -> all_digits [a; b] = true.
Proof. intros Ha Hb. unfold all_digits. cbn [forallb]. rewrite Ha, Hb. reflexivity. Qed.

Lemma shape_ints d1 d2 m1 m2 year :
  is_digit d1 = true -> is_digit d2 = true -> is_digit m1 = true -> is_digit m2 = true ->
  all_digits year = true -> year <> [] ->
  split_ints (d1 :: d2 :: "/"%char :: m1 :: m2 :: "/"%char :: year)
  = Some (digits_value [d1; d2], digits_value [m1; m2], digits_value year).
Proof.
  intros H1 H2 H3 H4 Hy Hne. unfold split_ints.
  pose proof (pair_digits _ _ H1 H2) as D12. pose proof (pair_digits _ _ H3 H4) as D34.
  change (d1 :: d2 :: "/"%char :: m1 :: m2 :: "/"%char :: year)
    with ([d1; d2] ++ "/"%char :: [m1; m2] ++ "/"%char :: year).
  rewrite split_on_app by (apply digits_no_char; [exact D12 | reflexivity]).
  rewrite split_on_app by (apply digits_no_char; [exact D34 | reflexivity]).
  rewrite split_on_none by (apply digits_no_char; [exact Hy | reflexivity]).
  rewrite (py_int_digits _ D12), (py_int_digits _ D34) by discriminate.
  rewrite (py_int_digits _ Hy Hne). reflexivity.
Qed.

Lemma shape_date_text d1 d2 m1 m2 year :
  is_digit d1 = true -> is_digit d2 = true -> is_digit m1 = true -> is_digit m2 = true ->
  all_digits year = true ->
  date_text (d1 :: d2 :: "/"%char :: m1 :: m2 :: "/"%char :: year).
Proof.
  intros H1 H2 H3 H4 Hy. unfold date_text, date_char.
  repeat (constructor; [first [reflexivity | apply orb_true_iff; left; assumption]|]).
  apply all_digits_Forall in Hy. eapply Forall_impl; [|exact Hy].
  intros c Hc. cbv beta in Hc. rewrite Hc. reflexivity.
Qed.

(** What [is_valid_date] has checked of a text it accepts. *)
Lemma valid_ints s day month year :
  is_valid_date s = true -> split_ints (strip s) = Some (day, month, year) ->
  valid_dmy day month year = true.
Proof.
  unfold is_valid_date, valid_dmy. intros H E. rewrite E in H.
  destruct (Nat.eqb (length (strip s)) 0); [discriminate|].
  destruct (text_eqb (lower s) (T "nan") || text_eqb s (T "None")); [discriminate|].
  exact H.
Qed.

Lemma three_digits_value a b c :
  is_digit a = true -> is_digit b = true -> is_digit c = true ->
  digits_value [a; b; c] < 1000.
Proof.
  intros Ha Hb Hc. unfold digits_value. cbn [fold_left].
  pose proof (digit_value_range a Ha). pose proof (digit_value_range b Hb).
  pose proof (digit_value_range c Hc). lia.
Qed.

Lemma zero_pair_value a b :
  Ascii.eqb a "0" && Ascii.eqb b "0" = true -> digits_value [a; b] = 0.
Proof.
  intro H. apply andb_prop in H. destruct H as [Ea Eb].
  apply Ascii.eqb_eq in Ea, Eb. subst. reflexivity.
Qed.

(** ** Texts with a day or a month 00 *)

Section Zero.

Variables c1 c2 c3 c4 c5 c6 c7 c8 : ascii.

Lemma zero_day :
  Ascii.eqb c1 "0" && Ascii.eqb c2 "0" = true ->
  has_zero_pair (dmy_text c1 c2 c3 c4 c5 c6 c7 c8) = true.
Proof.
  intro H. unfold has_zero_pair, dmy_text. cbn [has_zero_pair_from zero_pair_here].
  rewrite H. reflexivity.
Qed.

Lemma zero_month :
  Ascii.eqb c3 "0" && Ascii.eqb c4 "0" = true ->
  has_zero_pair (dmy_text c1 c2 c3 c4 c5 c6 c7 c8) = true.
Proof.
  intro H. unfold has_zero_pair, dmy_text. cbn [has_zero_pair_from zero_pair_here].
  rewrite H. change (is_digit "/") with false. cbn [negb andb].
  rewrite !orb_true_r. reflexivity.
Qed.

End Zero.

(** ** Month numbers *)

Lemma month_numbers_all :
  forallb (fun v => mem_text v month_numbers) (map snd extended_month_map) = true.
Proof. vm_compute. reflexivity. Qed.

Lemma upper_lower : forall c, Ascii.eqb (to_upper (to_lower c)) (to_upper c) = true.
Proof. by_chars. Qed.

Lemma upper_upper : forall c, Ascii.eqb (to_upper (to_upper c)) (to_upper c) = true.
Proof. by_chars. Qed.

Lemma upper_of_lower s : upper (lower s) = upper s.
Proof.
  unfold upper, lower. rewrite map_map. apply map_ext. intro c.
  apply Ascii.eqb_eq. apply upper_lower.
Qed.

Lemma upper_of_upper s : upper (upper s) = upper s.
Proof.
  unfold upper. rewrite map_map. apply map_ext. intro c.
  apply Ascii.eqb_eq. apply upper_upper.
Qed.

Section Months.

Variable get_close_matches : text -> list text -> option text.

Lemma normalize_month_value token v :
  normalize_month get_close_matches token = Some v -> In v (map snd extended_month_map).
Proof.
  unfold normalize_month. cbv zeta. intro H.
  destruct (Nat.eqb (length token) 0); [discriminate|].
  destruct (dict_get extended_month_map (strip (upper token))) eqn:E1.
  { injection H as <-. apply (dict_get_in _ _ _ E1). }
  match type of H with
  | match ?c with _ => _ end = _ => destruct c eqn:E2
  end.
  { injection H as <-. destruct (Nat.eqb _ 0); [discriminate|].
    apply (dict_get_in _ _ _ E2). }
  match type of H with
  | match ?c with _ => _ end = _ => destruct c eqn:E3
  end.
  { injection H as <-. destruct (Nat.leb 4 _); [|discriminate].
    apply (dict_get_in _ _ _ E3). }
  match type of H with
  | match ?c with _ => _ end = _ => destruct c eqn:E4
  end.
  { injection H as <-. destruct (Nat.leb 3 _); [|discriminate].
    apply (dict_get_in _ _ _ E4). }
  destruct (get_close_matches _ _) as [m|]; [apply (dict_get_in _ _ _ H)|].
  destruct (find _ extended_month_map) as [[k w]|] eqn:Ef; [|discriminate].
  injection H as <-. apply find_some in Ef. apply in_map_iff. exists (k, w).
  split; [reflexivity | apply Ef].
Qed.

Lemma normalize_month_upper token :
  normalize_month get_close_matches (upper token) = normalize_month get_close_matches token.
Proof.
  unfold normalize_month. cbv zeta. rewrite upper_of_upper.
  unfold upper at 1. rewrite length_map. reflexivity.
Qed.

Lemma normalize_month_lower token :
  normalize_month get_close_matches (lower token) = normalize_month get_close_matches token.
Proof.
  unfold normalize_month. cbv zeta. rewrite upper_of_lower.
  unfold lower at 1. rewrite length_map. reflexivity.
Qed.

End Months.

End ParsedTexts.

Import ParsedTexts.

Module ParserProperties.

(** X9.  A text DD/MM/YYYY of eight digits is returned by the parser as it
    is, whatever the digits: the parser checks no calendar.  The one
    exception is a day or a month written 00, for which it returns
    nothing. *)
Theorem written_dates_are_kept gcm td (c1 c2 c3 c4 c5 c6 c7 c8 : ascii) :
  is_digit c1 = true -> is_digit c2 = true -> is_digit c3 = true -> is_digit c4 = true ->
  is_digit c5 = true -> is_digit c6 = true -> is_digit c7 = true -> is_digit c8 = true ->
  parse_custom_date gcm td (dmy_text c1 c2 c3 c4 c5 c6 c7 c8)
  = if (Ascii.eqb c1 "0" && Ascii.eqb c2 "0") || (Ascii.eqb c3 "0" && Ascii.eqb c4 "0")
    then None
    else Some (dmy_text c1 c2 c3 c4 c5 c6 c7 c8).
Proof.
  intros H1 H2 H3 H4 H5 H6 H7 H8.
  pose proof (dmy_date_text c1 c2 c3 c4 c5 c6 c7 c8 H1 H2 H3 H4 H5 H6 H7 H8) as Hd.
  destruct (Ascii.eqb c1 "0" && Ascii.eqb c2 "0") eqn:Ed; cbn [orb].
  - unfold parse_custom_date. cbv zeta. rewrite (date_strip _ Hd).
    rewrite (zero_day _ _ _ _ _ _ _ _ Ed). reflexivity.
  - destruct (Ascii.eqb c3 "0" && Ascii.eqb c4 "0") eqn:Em.
    + unfold parse_custom_date. cbv zeta. rewrite (date_strip _ Hd).
      rewrite (zero_month _ _ _ _ _ _ _ _ Em). reflexivity.
    + apply parse_dmy; assumption.
Qed.

Lemma written_dates_are_kept_witness :
  parse_custom_date no_close no_pd (T "31/02/2024") = Some (T "31/02/2024")
  /\ is_valid_date (T "31/02/2024") = false.
Proof.
  split; [|reflexivity].
  exact (written_dates_are_kept no_close no_pd "3" "1" "0" "2" "2" "0" "2" "4"
           eq_refl eq_refl eq_refl eq_refl eq_refl eq_refl eq_refl eq_refl).
Defined.

(** X10.  The parser is idempotent on the dates it produces: a result that
    [is_valid_date] accepts, parsed again, comes back unchanged.  The time
    stamps of [pd.to_datetime] are taken to have a day and a month of at
    most two digits and a year of four. *)
Theorem parse_is_idempotent gcm td (x y : text) :
  (forall dayfirst t day month year,
     td dayfirst t = Some (day, month, year) ->
     0 <= day < 100 /\ 0 <= month < 100 /\ 1000 <= year < 10000) ->
  parse_custom_date gcm td x = Some y ->
  is_valid_date y = true ->
  parse_custom_date gcm td y = Some y.
Proof.
  intros Htd Hx Hv.
  pose proof (good_parse gcm td Htd x) as G. rewrite Hx in G. cbn [good] in G.
  destruct G as [G | G]; [apply bare_year_parsed; exact G|].
  unfold date_shape, dmy_shape in G.
  destruct y as [|d1 [|d2 [|s1 [|m1 [|m2 [|s2 year]]]]]]; try discriminate G.
  apply andb_prop in G; destruct G as [G Hl].
  apply andb_prop in G; destruct G as [G Hy].
  apply andb_prop in G; destruct G as [G S2].
  apply andb_prop in G; destruct G as [G M2].
  apply andb_prop in G; destruct G as [G M1].
  apply andb_prop in G; destruct G as [G S1].
  apply andb_prop in G; destruct G as [D1 D2].
  apply Ascii.eqb_eq in S1, S2. subst s1 s2.
  assert (Hne : year <> []) by (destruct year; [discriminate Hl | discriminate]).
  pose proof (shape_date_text d1 d2 m1 m2 year D1 D2 M1 M2 Hy) as Hdt.
  pose proof (valid_ints _ (digits_value [d1; d2]) (digits_value [m1; m2])
                (digits_value year) Hv) as Hr.
  rewrite (date_strip _ Hdt), (shape_ints d1 d2 m1 m2 year D1 D2 M1 M2 Hy Hne) in Hr.
  specialize (Hr eq_refl). apply valid_dmy_range in Hr.
  destruct Hr as (Rd & Rm & Ry).
  assert (Zd : Ascii.eqb d1 "0" && Ascii.eqb d2 "0" = false).
  { destruct (Ascii.eqb d1 "0" && Ascii.eqb d2 "0") eqn:E; [|reflexivity].
    rewrite (zero_pair_value _ _ E) in Rd. lia. }
  assert (Zm : Ascii.eqb m1 "0" && Ascii.eqb m2 "0" = false).
  { destruct (Ascii.eqb m1 "0" && Ascii.eqb m2 "0") eqn:E; [|reflexivity].
    rewrite (zero_pair_value _ _ E) in Rm. lia. }
  apply all_digits_Forall in Hy.
  destruct year as [|c5 [|c6 [|c7 [|c8 [|c9 r]]]]]; try discriminate Hl.
  - inversion Hy as [|? ? H5 Hy1]; subst. inversion Hy1 as [|? ? H6 Hy2]; subst.
    inversion Hy2 as [|? ? H7 _]; subst.
    pose proof (three_digits_value c5 c6 c7 H5 H6 H7). lia.
  - inversion Hy as [|? ? H5 Hy1]; subst. inversion Hy1 as [|? ? H6 Hy2]; subst.
    inversion Hy2 as [|? ? H7 Hy3]; subst. inversion Hy3 as [|? ? H8 _]; subst.
    apply (parse_dmy d1 d2 m1 m2 c5 c6 c7 c8); assumption.
Qed.

Lemma parse_is_idempotent_witness :
  parse_custom_date no_close no_pd (T "5-3-2024") = Some (T "05/03/2024")
  /\ parse_custom_date no_close no_pd (T "05/03/2024") = Some (T "05/03/2024").
Proof.
  split; [reflexivity|].
  apply (parse_is_idempotent no_close no_pd (T "5-3-2024") (T "05/03/2024")).
  - intros dayfirst t day month year H. discriminate H.
  - reflexivity.
  - reflexivity.
Defined.

(** X11.  Whatever the token and whatever [get_close_matches] proposes,
    [normalize_month] returns nothing or one of the twelve month numbers
    ["01"] to ["12"]. *)
Theorem month_numbers_only gcm (token v : text) :
  normalize_month gcm token = Some v -> In v month_numbers.
Proof.
  intro H. apply normalize_month_value in H.
  pose proof month_numbers_all as F. rewrite forallb_forall in F.
  specialize (F v H). unfold mem_text in F. apply existsb_exists in F.
  destruct F as (w & Hw & E). apply text_eqb_eq in E. subst w. exact Hw.
Qed.

Lemma month_numbers_only_witness :
  normalize_month no_close (T "Sept") = Some (T "09") /\ In (T "09") month_numbers.
Proof.
  split; [reflexivity|].
  exact (month_numbers_only no_close (T "Sept") (T "09") eq_refl).
Defined.

(** X12.  [normalize_month] does not tell upper case from lower case: a
    token, the token in upper case and the token in lower case have the
    same month. *)
Theorem month_names_ignore_case gcm (token : text) :
  normalize_month gcm (upper token) = normalize_month gcm token
  /\ normalize_month gcm (lower token) = normalize_month gcm token.
Proof.
  split; [apply normalize_month_upper | apply normalize_month_lower].
Qed.

End ParserProperties.

(* ================================================================== *)
(** * Ledgers whose dates go down *)
(* ================================================================== *)

Module FallingLedgers.

(** ** The order test in the two directions *)

Lemma in_order_dual d p n :
  is_date_in_order d p n Descending = is_date_in_order d n p Ascending.
Proof.
  unfold is_date_in_order. cbn [is_ascending].
  destruct (is_valid_date d); [|reflexivity].
  destruct (datetime_of d) as [c|]; [|reflexivity].
  destruct p as [a|], n as [b|];
    try destruct (is_valid_date a); try destruct (is_valid_date b);
    try destruct (datetime_of a); try destruct (datetime_of b);
    repeat match goal with
           | |- context [Z.ltb ?x ?y] => destruct (Z.ltb x y)
           | |- context [Z.gtb ?x ?y] => destruct (Z.gtb x y)
           end; reflexivity.
Qed.

(** ** Decreasing lists of days *)

Lemma decreasing_inv a l :
  decreasing (a :: l) = true -> Forall (fun x => x < a) l /\ decreasing l = true.
Proof.
  revert a. induction l as [|b r IH]; intros a H; [split; [constructor|reflexivity]|].
  cbn [decreasing] in H. apply andb_prop in H. destruct H as [Hab Hr].
  apply Z.ltb_lt in Hab. split; [|exact Hr].
  constructor; [exact Hab|].
  destruct (IH b Hr) as [Hall _].
  eapply Forall_impl; [|exact Hall]. intros x Hx. cbv beta in Hx. lia.
Qed.

Lemma decreasing_nth l :
  decreasing l = true ->
  forall i j, (i <= j)%nat -> (j < length l)%nat -> nth j l 0 <= nth i l 0.
Proof.
  induction l as [|a r IH]; intros H i j Hij Hj; [cbn in Hj; lia|].
  destruct (decreasing_inv _ _ H) as [Hall Hr].
  cbn [length] in Hj.
  destruct i as [|i], j as [|j]; cbn [nth]; try lia.
  - rewrite Forall_forall in Hall.
    assert (Hin : In (nth j r 0) r) by (apply nth_In; lia).
    specialize (Hall _ Hin). cbv beta in Hall. lia.
  - apply IH; [exact Hr | lia | lia].
Qed.

Lemma non_decreasing_snoc l a :
  non_decreasing l = true -> Forall (fun x => x <= a) l -> non_decreasing (l ++ [a]) = true.
Proof.
  induction l as [|b r IH]; intros H Ha; [reflexivity|].
  inversion Ha as [|? ? Hb Hr']; subst.
  destruct (non_decreasing_inv _ _ H) as [Hall Hr].
  cbn [app]. apply non_decreasing_cons.
  - apply Forall_app. split; [exact Hall | constructor; [exact Hb | constructor]].
  - apply IH; assumption.
Qed.

Lemma decreasing_rev l : decreasing l = true -> non_decreasing (rev l) = true.
Proof.
  induction l as [|a r IH]; intro H; [reflexivity|].
  destruct (decreasing_inv _ _ H) as [Hall Hr].
  cbn [rev]. apply non_decreasing_snoc; [apply IH; exact Hr|].
  apply Forall_rev. eapply Forall_impl; [|exact Hall].
  intros x Hx. cbv beta in Hx. lia.
Qed.

Lemma pair_votes_decreasing l : decreasing l = true -> fst (pair_votes l) = O.
Proof.
  induction l as [|a r IH]; intro H; [reflexivity|].
  destruct r as [|b r']; [reflexivity|].
  cbn [decreasing] in H. apply andb_prop in H. destruct H as [Hab Hr].
  change (pair_votes (a :: b :: r'))
    with (let '(asc, desc) := pair_votes (b :: r') in
          if a <=? b then (S asc, desc) else (asc, S desc)).
  specialize (IH Hr). destruct (pair_votes (b :: r')) as [asc desc].
  apply Z.ltb_lt in Hab.
  replace (a <=? b) with false by (symmetry; apply Z.leb_gt; exact Hab).
  exact IH.
Qed.

Lemma order_decreasing l :
  decreasing l = true -> (2 <= length l)%nat -> order_of_datetimes l = Descending.
Proof.
  intros H Hl. unfold order_of_datetimes.
  destruct l as [|a [|b r]]; [cbn in Hl; lia | cbn in Hl; lia |].
  pose proof (pair_votes_decreasing _ H) as Hv.
  destruct (pair_votes (a :: b :: r)) as [asc desc]. cbn [fst] in Hv. subst asc.
  destruct (decreasing_inv _ _ H) as [Hall _].
  assert (Hin : In (last (a :: b :: r) a) (b :: r)).
  { change (last (a :: b :: r) a) with (last (b :: r) a).
    destruct (exists_last (l := b :: r)) as [l' [x Hx]]; [discriminate|].
    rewrite Hx. rewrite last_last. apply in_or_app. right. left. reflexivity. }
  rewrite Forall_forall in Hall. specialize (Hall _ Hin). cbv beta in Hall.
  replace (a <=? last (a :: b :: r) a) with false by (symmetry; apply Z.leb_gt; exact Hall).
  reflexivity.
Qed.

(** ** Dates that go down *)

Lemma falling_reversed ts : falling ts = true -> in_order (rev ts) = true.
Proof.
  unfold falling, in_order. intro H. rewrite map_rev. apply decreasing_rev. exact H.
Qed.

Lemma falling_dates ts i j :
  falling ts = true -> (i <= j)%nat -> (j < length ts)%nat ->
  day_number (nth j ts origin) <= day_number (nth i ts origin).
Proof.
  intros H Hij Hj. unfold falling in H.
  pose proof (decreasing_nth _ H i j Hij ltac:(rewrite length_map; exact Hj)) as S.
  rewrite !(nth_map_at day_number ts _ origin 0) in S by lia. exact S.
Qed.

Lemma valid_cons a r :
  valid_dates (a :: r) = true -> valid_date a = true /\ valid_dates r = true.
Proof. unfold valid_dates. cbn [forallb]. apply andb_prop. Qed.

Lemma valid_rev ts : valid_dates ts = true -> valid_dates (rev ts) = true.
Proof.
  unfold valid_dates. intro H. rewrite forallb_forall in *.
  intros x Hx. apply H. apply in_rev. exact Hx.
Qed.

(** Two valid dates written the same are the same date. *)
Lemma same_text a b :
  valid_date a = true -> valid_date b = true -> strftime a = strftime b -> a = b.
Proof.
  intros Ha Hb E. pose proof (day_ints a Ha) as Ia. pose proof (day_ints b Hb) as Ib.
  rewrite E in Ia. rewrite Ia in Ib. injection Ib as ->. reflexivity.
Qed.

(** Every row of falling dates has a text of its own, so all of them are
    counted by [get_date_order]. *)
Lemma unique_falling l :
  forall seen,
    valid_dates l = true -> falling l = true ->
    (forall t, In t l -> mem_text (strftime t) seen = false) ->
    flat_map (fun v => match datetime_of v with Some d => [d] | None => [] end)
      (unique_valid seen (map strftime l))
    = map day_number l.
Proof.
  induction l as [|a r IH]; intros seen Hd Hf Hs; [reflexivity|].
  destruct (valid_cons _ _ Hd) as [Ha Hr].
  unfold falling in Hf. cbn [map] in Hf.
  destruct (decreasing_inv _ _ Hf) as [Hall Hf'].
  cbn [map unique_valid].
  rewrite (day_valid a Ha), (Hs a (or_introl eq_refl)). cbn [negb andb flat_map].
  rewrite (day_datetime a Ha). cbn [app]. f_equal.
  apply IH; [exact Hr | exact Hf' |].
  intros t Ht. unfold mem_text. cbn [existsb].
  fold (mem_text (strftime t) seen). rewrite (Hs t (or_intror Ht)), orb_false_r.
  apply text_eqb_neq. intro E.
  assert (Hv : valid_date t = true).
  { unfold valid_dates in Hr. rewrite forallb_forall in Hr. apply Hr. exact Ht. }
  apply (same_text t a Hv Ha) in E. subst t.
  rewrite Forall_forall in Hall.
  specialize (Hall (day_number a) (in_map day_number _ _ Ht)). cbv beta in Hall. lia.
Qed.

(** ** Rows reversed *)

Lemma plain_reverse cols : plain_columns (reverse_rows cols) = plain_columns cols.
Proof.
  unfold plain_columns, reverse_rows. induction cols as [|[n w] r IH]; [reflexivity|].
  cbn [map forallb fst]. rewrite IH. reflexivity.
Qed.

Lemma rows_reverse n cols : rows_of n (reverse_rows cols) = rows_of n cols.
Proof.
  unfold rows_of, reverse_rows. induction cols as [|[m w] r IH]; [reflexivity|].
  cbn [map forallb snd]. rewrite length_rev, IH. reflexivity.
Qed.

Lemma reverse_app a b : reverse_rows (a ++ b) = reverse_rows a ++ reverse_rows b.
Proof. unfold reverse_rows. apply map_app. Qed.

Lemma reverse_dated pre post ts :
  reverse_rows (dated_ledger pre post ts)
  = dated_ledger (reverse_rows pre) (reverse_rows post) (rev ts).
Proof.
  unfold dated_ledger. rewrite reverse_app. f_equal.
  unfold reverse_rows at 1. cbn [map fst snd]. f_equal. f_equal.
  unfold date_cells. symmetry. apply map_rev.
Qed.

(** ** The repair of a ledger whose dates go down *)

Section Falling.

Variable get_close_matches : text -> list text -> option text.
Variable to_datetime : bool -> text -> option (Z * Z * Z).
Variable str_float : Q -> text.

Variables (pre post : frame) (ts : list date).

Hypothesis plain : plain_columns (pre ++ post) = true.
Hypothesis rows : rows_of (length ts) (pre ++ post) = true.
Hypothesis days : valid_dates ts = true.
Hypothesis going_down : falling ts = true.
Hypothesis two_rows : (2 <= length ts)%nat.

Local Abbreviation df := (dated_ledger pre post ts).
Local Abbreviation dates := (map strftime ts).
Local Abbreviation repair_row := (repair_row get_close_matches to_datetime str_float).
Local Abbreviation repair_loop := (repair_loop get_close_matches to_datetime str_float).
Local Abbreviation date_correction :=
  (date_correction get_close_matches to_datetime str_float).
Local Abbreviation process_all_dates_order :=
  (process_all_dates_order get_close_matches to_datetime str_float).

Lemma falling_in_order i :
  (i < length ts)%nat ->
  is_date_in_order (date_at dates i) (prev_valid dates i) (next_valid dates i) Descending
  = true.
Proof.
  intro H. rewrite (nth_date ts i H), (prev_dates ts days i H), (next_dates ts days).
  rewrite in_order_dual. apply in_order_between.
  - apply calendar_nth; assumption.
  - intros x Hx.
    assert (Hl : (S i < length ts)%nat).
    { apply nth_error_Some. rewrite Hx. discriminate. }
    apply (nth_error_nth _ _ origin) in Hx. subst x.
    split; [apply calendar_nth; assumption | apply falling_dates; [exact going_down | lia | lia]].
  - intros x Hx. destruct i as [|k]; [discriminate|]. injection Hx as <-.
    split; [apply calendar_nth; [exact days | lia]
           | apply falling_dates; [exact going_down | lia | lia]].
Qed.

Lemma repair_row_falling v i :
  (i < length ts)%nat -> repair_row df v Descending (dates, false) i = (dates, false).
Proof.
  intro H. unfold Chronology.repair_row.
  destruct (is_empty_row df i); [reflexivity|]. cbv zeta.
  destruct (Nat.eqb (length (date_at dates i)) 0); [reflexivity|].
  rewrite (falling_in_order i H). cbn [negb]. rewrite andb_false_r. reflexivity.
Qed.

Lemma repair_loop_falling k v : repair_loop k v Descending df dates = (df, dates).
Proof.
  destruct k as [|k]; [reflexivity|]. cbn [Chronology.repair_loop].
  rewrite fold_fixed.
  - rewrite (with_dates_same pre post ts plain). reflexivity.
  - intros i Hi. apply in_seq in Hi. apply repair_row_falling.
    rewrite (nrows_ledger pre post ts rows) in Hi. lia.
Qed.

Lemma verify_row_falling i :
  (i < length ts)%nat -> verify_row df Descending dates i = dates.
Proof.
  intro H. unfold verify_row.
  destruct (is_empty_row df i); [reflexivity|]. cbv zeta.
  destruct (is_valid_date (date_at dates i)); [|reflexivity].
  rewrite (falling_in_order i H). reflexivity.
Qed.

Lemma order_of_falling : get_date_order dates = Descending.
Proof.
  unfold get_date_order. rewrite unique_falling; [| exact days | exact going_down |].
  - apply order_decreasing; [exact going_down | rewrite length_map; exact two_rows].
  - intros t _. reflexivity.
Qed.

(** [date_correction] changes nothing of such a ledger and finds its
    direction. *)
Lemma date_correction_falling : date_correction df = (df, Descending).
Proof.
  unfold Chronology.date_correction.
  unfold dated_ledger at 1. rewrite has_col_dated. cbn [negb]. cbv zeta.
  fold df. rewrite (parsed_same _ _ _ pre post ts plain rows days).
  rewrite (with_dates_same pre post ts plain), order_of_falling.
  rewrite repair_loop_falling. rewrite (nothing_remains pre post ts rows days).
  change (backtrack_groups []) with (@nil (list nat)). cbn [fold_left].
  rewrite (with_dates_same pre post ts plain).
  rewrite fold_fixed.
  - rewrite (with_dates_same pre post ts plain), order_of_falling. reflexivity.
  - intros i Hi. apply in_seq in Hi. apply verify_row_falling.
    rewrite (nrows_ledger pre post ts rows) in Hi. lia.
Qed.

Lemma plain_reversed : plain_columns (reverse_rows pre ++ reverse_rows post) = true.
Proof. rewrite <- reverse_app, plain_reverse. exact plain. Qed.

(** [process_all_dates] turns such a ledger upside down and changes
    nothing else. *)
Lemma process_falling : process_all_dates_order df = (reverse_rows df, Ascending).
Proof.
  unfold Chronology.process_all_dates_order.
  unfold dated_ledger at 1. rewrite date_col_dated. cbn [negb]. cbv zeta.
  fold df. rewrite (parse_columns_same _ _ _ pre post ts plain days).
  rewrite date_correction_falling. cbn [rotate_if_descending].
  rewrite reverse_dated.
  rewrite (fix_years_same str_float _ _ _ plain_reversed (valid_rev _ days)
             (falling_reversed _ going_down)).
  rewrite (no_value_dates _ _ _ plain_reversed). reflexivity.
Qed.

End Falling.

End FallingLedgers.

Import FallingLedgers.

Module ChronologyProperties.

(** X13.  A ledger of two rows or more whose [XN Date] column holds valid
    dates written DD/MM/YYYY, each before the one of the row above, and
    that has no other column with "date" in its name: [date_correction]
    changes none of its dates and reports the direction descending, and
    [process_all_dates] returns its rows in the opposite order, nothing
    else changed, with the direction ascending. *)
Theorem falling_ledger_is_reversed gcm td sf (pre post : frame) (ts : list date) :
  plain_columns (pre ++ post) = true ->
  rows_of (length ts) (pre ++ post) = true ->
  valid_dates ts = true ->
  falling ts = true ->
  (2 <= length ts)%nat ->
  date_correction gcm td sf (dated_ledger pre post ts) = (dated_ledger pre post ts, Descending)
  /\ process_all_dates_order gcm td sf (dated_ledger pre post ts)
     = (reverse_rows (dated_ledger pre post ts), Ascending).
Proof.
  intros Hp Hr Hd Hf Hn. split.
  - apply date_correction_falling; assumption.
  - apply process_falling; assumption.
Qed.

Lemma falling_ledger_is_reversed_witness :
  process_all_dates_order no_close no_pd no_str (dated_ledger [] falling_rest falling_days)
  = ([ (xn, [CText (T "01/01/2024"); CText (T "02/01/2024"); CText (T "03/01/2024")]);
       (T "Narration", [CText (T "a"); CText (T "b"); CText (T "c")]);
       (T "Balance", [CNum 10; CNum 20; CNum 30]) ], Ascending).
Proof.
  apply (falling_ledger_is_reversed no_close no_pd no_str [] falling_rest falling_days);
    try reflexivity.
  simpl. lia.
Defined.

(** X14.  The order test reads the same in both directions: a date is in
    descending order between the date above and the date below exactly
    when it is in ascending order between the date below and the date
    above. *)
Theorem order_test_is_symmetric (date_str : text) (prev_date next_date : option text) :
  is_date_in_order date_str prev_date next_date Descending
  = is_date_in_order date_str next_date prev_date Ascending.
Proof. apply in_order_dual. Qed.

(** X15.  The direction of a column of dates: ascending when the valid
    dates never go back, descending when there are two or more and each
    is before the one above. *)
Theorem direction_of_ordered_dates (ts : list date) :
  valid_dates ts = true ->
  (in_order ts = true -> get_date_order (map strftime ts) = Ascending)
  /\ (falling ts = true -> (2 <= length ts)%nat ->
      get_date_order (map strftime ts) = Descending).
Proof.
  intro Hd. split.
  - intro Hs. apply order_of_dates; assumption.
  - intros Hf Hn. apply order_of_falling; assumption.
Qed.

Lemma direction_of_ordered_dates_witness :
  get_date_order (map strftime ordered_days) = Ascending
  /\ get_date_order (map strftime falling_days) = Descending.
Proof.
  split.
  - apply (proj1 (direction_of_ordered_dates ordered_days eq_refl)). reflexivity.
  - apply (proj2 (direction_of_ordered_dates falling_days eq_refl)).
    + reflexivity.
    + simpl. lia.
Defined.

End ChronologyProperties.

(* ================================================================== *)
(** * What the date repair does to the frame *)
(* ================================================================== *)

Module FrameEffects.

(** ** Columns written twice, columns written once *)

Lemma set_col_twice (df : frame) name a b :
  set_col (set_col df name a) name b = set_col df name b.
Proof.
  induction df as [|[n w] r IH]; cbn [set_col].
  - rewrite text_eqb_refl. reflexivity.
  - destruct (text_eqb name n) eqn:E; cbn [set_col]; rewrite E; [reflexivity|].
    rewrite IH. reflexivity.
Qed.

Lemma with_dates_twice df a b : with_dates (with_dates df a) b = with_dates df b.
Proof. unfold with_dates. apply set_col_twice. Qed.

Lemma names_set_col (df : frame) name v :
  has_col df name = true -> column_names (set_col df name v) = column_names df.
Proof.
  unfold has_col, mem_text, column_names.
  induction df as [|[n w] r IH]; cbn [set_col map existsb fst]; [discriminate|].
  destruct (text_eqb name n) eqn:E; cbn [map fst orb]; [reflexivity|].
  intro H. rewrite (IH H). reflexivity.
Qed.

Lemma has_col_names (a b : frame) name :
  column_names a = column_names b -> has_col a name = has_col b name.
Proof. unfold has_col. intros ->. reflexivity. Qed.

Lemma value_date_names (a b : frame) :
  column_names a = column_names b -> find_value_date_col a = find_value_date_col b.
Proof. unfold find_value_date_col. intros ->. reflexivity. Qed.

Lemma get_col_length (df : frame) name :
  well_formed df -> has_col df name = true -> length (get_col df name) = nrows df.
Proof.
  unfold well_formed. generalize (nrows df). intros k Hwf.
  unfold has_col, mem_text, column_names.
  induction Hwf as [|[n w] r Hw _ IH]; cbn [map existsb fst get_col]; [discriminate|].
  destruct (text_eqb name n); cbn [orb]; [intros _; exact Hw | exact IH].
Qed.

Lemma names_drop (df : frame) name :
  column_names (drop_col df name)
  = filter (fun n => negb (text_eqb n name)) (column_names df).
Proof.
  unfold drop_col, column_names. induction df as [|[n w] r IH]; [reflexivity|].
  cbn [filter map fst]. destruct (negb (text_eqb n name)); cbn [map fst]; rewrite IH;
    reflexivity.
Qed.

(** Dropping a column of a frame that has another one keeps the rows. *)
Lemma drop_keeps_rows (df : frame) name other :
  well_formed df -> has_col df other = true -> text_eqb other name = false ->
  nrows (drop_col df name) = nrows df /\ well_formed (drop_col df name).
Proof.
  intros Hwf Hh Hne.
  assert (Hall : Forall (fun col : text * list cell => length (snd col) = nrows df)
                   (drop_col df name)).
  { unfold drop_col. apply Forall_forall. intros col Hin. apply filter_In in Hin.
    unfold well_formed in Hwf. rewrite Forall_forall in Hwf. apply Hwf. apply Hin. }
  assert (Hin : exists w, In (other, w) (drop_col df name)).
  { unfold has_col, mem_text, column_names in Hh. apply existsb_exists in Hh.
    destruct Hh as (n & Hn & E). apply text_eqb_eq in E. subst n.
    apply in_map_iff in Hn. destruct Hn as ([n w] & E & Hin). cbn [fst] in E. subst n.
    exists w. unfold drop_col. apply filter_In. split; [exact Hin|].
    cbn [fst]. rewrite Hne. reflexivity. }
  assert (Hn : nrows (drop_col df name) = nrows df).
  { destruct (drop_col df name) as [|[n w] r]; [destruct Hin as [? []]|].
    inversion Hall; subst. cbn [nrows]. assumption. }
  split; [exact Hn|]. unfold well_formed. rewrite Hn. exact Hall.
Qed.

Section Effects.

Variable get_close_matches : text -> list text -> option text.
Variable to_datetime : bool -> text -> option (Z * Z * Z).
Variable str_float : Q -> text.

Local Abbreviation repair_row := (repair_row get_close_matches to_datetime str_float).
Local Abbreviation repair_loop := (repair_loop get_close_matches to_datetime str_float).
Local Abbreviation repair_run := (repair_run get_close_matches to_datetime str_float).
Local Abbreviation date_correction :=
  (date_correction get_close_matches to_datetime str_float).
Local Abbreviation parsed_dates := (parsed_dates get_close_matches to_datetime str_float).
Local Abbreviation parse_date_columns :=
  (parse_date_columns get_close_matches to_datetime str_float).
Local Abbreviation fix_year_row := (fix_year_row str_float).
Local Abbreviation fix_years := (fix_chronological_year_issues str_float).
Local Abbreviation process_all_dates_order :=
  (process_all_dates_order get_close_matches to_datetime str_float).
Local Abbreviation process_all_dates :=
  (process_all_dates get_close_matches to_datetime str_float).

(** ** [date_correction] *)

Lemma repair_loop_frame k v o df0 df dates :
  (exists d, df = with_dates df0 d) ->
  exists d, fst (repair_loop k v o df dates) = with_dates df0 d.
Proof.
  revert df dates. induction k as [|k IH]; intros df dates Hd; cbn [Chronology.repair_loop].
  - exact Hd.
  - destruct (fold_left (repair_row df v o) (seq 0 (nrows df)) (dates, false))
      as [corrected made].
    assert (Hd' : exists d, with_dates df corrected = with_dates df0 d).
    { destruct Hd as [d ->]. exists corrected. apply with_dates_twice. }
    destruct made; [apply IH; exact Hd' | exact Hd'].
Qed.

(** The frame [date_correction] returns is the frame it was given with a
    new column of dates. *)
Lemma date_correction_frame df :
  has_col df xn = true ->
  exists dates,
    fst (date_correction df) = with_dates df dates /\ length dates = nrows df.
Proof.
  intro Hh. unfold Chronology.date_correction. rewrite Hh. cbn [negb]. cbv zeta.
  assert (Hl0 : length (parsed_dates df) = nrows df).
  { unfold Chronology.parsed_dates. rewrite length_map, length_seq. reflexivity. }
  destruct (repair_loop_frame 5 (find_value_date_col df) (get_date_order (parsed_dates df))
              df (with_dates df (parsed_dates df)) (parsed_dates df))
    as [d1 Hd1]; [exists (parsed_dates df); reflexivity|].
  pose proof (repair_loop_length get_close_matches to_datetime str_float 5
                (find_value_date_col df) (get_date_order (parsed_dates df))
                (with_dates df (parsed_dates df)) (parsed_dates df)) as Hl1.
  destruct (repair_loop 5 _ _ _ _) as [df1 dates1]. cbn [fst snd] in *. subst df1.
  set (dates2 := fold_left _ (backtrack_groups _) dates1).
  assert (Hl2 : length dates2 = nrows df) by (unfold dates2; rewrite runs_length; lia).
  set (dates3 := fold_left _ (seq 0 _) dates2).
  assert (Hl3 : length dates3 = nrows df) by (unfold dates3; rewrite verify_pass_length; lia).
  exists dates3. cbn [fst]. split; [|exact Hl3].
  rewrite !with_dates_twice. reflexivity.
Qed.

Lemma names_date_correction df :
  column_names (fst (date_correction df)) = column_names df.
Proof.
  destruct (has_col df xn) eqn:Hh.
  - destruct (date_correction_frame df Hh) as (dates & -> & _).
    unfold with_dates. apply names_set_col. exact Hh.
  - unfold Chronology.date_correction. rewrite Hh. reflexivity.
Qed.

(** ** The other steps of [process_all_dates] *)

Lemma names_parse df : column_names (parse_date_columns df) = column_names df.
Proof.
  unfold Chronology.parse_date_columns, column_names. rewrite map_map. apply map_ext.
  intros [n w]. cbn [fst]. destruct (is_date_col n); reflexivity.
Qed.

Lemma names_rotate df o : column_names (fst (rotate_if_descending df o)) = column_names df.
Proof. destruct o; cbn [rotate_if_descending fst]; [reflexivity | apply names_reverse]. Qed.

Lemma rows_rotate df o :
  well_formed df ->
  well_formed (fst (rotate_if_descending df o))
  /\ nrows (fst (rotate_if_descending df o)) = nrows df.
Proof.
  intro H. destruct o; cbn [rotate_if_descending fst].
  - split; [exact H | reflexivity].
  - split; [apply well_formed_reverse; exact H | apply nrows_reverse].
Qed.

Lemma fix_year_row_length df v o cells i :
  length (fix_year_row df v o cells i) = length cells.
Proof.
  unfold Chronology.fix_year_row. cbv zeta.
  repeat match goal with
         | |- length (if ?b then _ else _) = _ => destruct b
         | |- length (match ?x with Some _ => _ | None => _ end) = _ => destruct x
         | |- length (match ?x with Ascending => _ | Descending => _ end) = _ => destruct x
         | |- length (let '(_, _) := ?x in _) = _ => destruct x
         | |- length (cell_assign _ _ _) = _ => unfold cell_assign; apply length_assign
         end; reflexivity.
Qed.

Lemma fix_year_fold_length df v o rows cells :
  length (fold_left (fix_year_row df v o) rows cells) = length cells.
Proof.
  revert cells. induction rows as [|i rows IH]; intro cells; [reflexivity|].
  cbn [fold_left]. rewrite IH. apply fix_year_row_length.
Qed.

Lemma fix_years_shape df :
  well_formed df ->
  column_names (fix_years df) = column_names df
  /\ nrows (fix_years df) = nrows df /\ well_formed (fix_years df).
Proof.
  intro Hwf. unfold Chronology.fix_chronological_year_issues.
  destruct (has_col df xn) eqn:Hh; cbn [negb]; [|repeat split; assumption].
  cbv zeta. destruct (Nat.ltb _ 2); [repeat split; assumption|].
  assert (Hl : length (fold_left (fix_year_row df (find_value_date_col df)
                                    (order_of_datetimes
                                       (flat_map
                                          (fun c => if is_valid_date (date_cell_text c)
                                                    then match datetime_of (date_cell_text c) with
                                                         | Some d => [d]
                                                         | None => []
                                                         end
                                                    else [])
                                          (get_col df xn))))
                           (seq 0 (length (get_col df xn))) (get_col df xn))
               = nrows df).
  { rewrite fix_year_fold_length. apply get_col_length; assumption. }
  repeat split.
  - apply names_set_col. exact Hh.
  - apply nrows_set; assumption.
  - apply well_formed_set; assumption.
Qed.

(** ** The driver *)

Lemma process_shape df :
  well_formed df -> has_col df xn = true ->
  nrows (process_all_dates df) = nrows df
  /\ well_formed (process_all_dates df)
  /\ column_names (process_all_dates df)
     = match find_value_date_col df with
       | Some col => filter (fun n => negb (text_eqb n col)) (column_names df)
       | None => column_names df
       end.
Proof.
  intros Hwf Hh. unfold Chronology.process_all_dates, Chronology.process_all_dates_order.
  assert (Hd : existsb is_date_col (column_names df) = true).
  { apply existsb_exists. exists xn. split; [|reflexivity].
    unfold has_col, mem_text in Hh. apply existsb_exists in Hh.
    destruct Hh as (n & Hn & E). apply text_eqb_eq in E. subst n. exact Hn. }
  rewrite Hd. cbn [negb].
  pose proof (names_parse df) as N0.
  pose proof (parse_columns_well_formed get_close_matches to_datetime str_float df Hwf) as W0.
  pose proof (parse_columns_nrows get_close_matches to_datetime str_float df) as R0.
  pose proof (names_date_correction (parse_date_columns df)) as N1.
  destruct (date_correction_dated get_close_matches to_datetime str_float (nrows df)
              (parse_date_columns df) W0 R0) as [W1 R1].
  destruct (date_correction (parse_date_columns df)) as [df1 o1]. cbn [fst] in *.
  pose proof (names_rotate df1 o1) as N2.
  destruct (rows_rotate df1 o1 W1) as [W2 R2].
  destruct (rotate_if_descending df1 o1) as [df2 o2]. cbn [fst] in *.
  destruct (fix_years_shape df2 W2) as (N3 & R3 & W3).
  assert (N : column_names (fix_years df2) = column_names df) by congruence.
  assert (R : nrows (fix_years df2) = nrows df) by congruence.
  rewrite (value_date_names _ _ N).
  destruct (find_value_date_col df) as [col|] eqn:Ev; cbn [fst].
  - assert (Hne : text_eqb xn col = false).
    { unfold find_value_date_col in Ev. apply find_some in Ev. destruct Ev as [_ Ev].
      apply andb_prop in Ev. destruct Ev as [_ Ev]. apply negb_true_iff in Ev.
      apply text_eqb_neq. intro E. subst col. rewrite text_eqb_refl in Ev. discriminate. }
    assert (Hx : has_col (fix_years df2) xn = true).
    { rewrite (has_col_names _ df xn N). exact Hh. }
    destruct (drop_keeps_rows (fix_years df2) col xn W3 Hx Hne) as [Rd Wd].
    repeat split.
    + rewrite Rd. exact R.
    + exact Wd.
    + rewrite names_drop, N. reflexivity.
  - repeat split; assumption.
Qed.

End Effects.

End FrameEffects.

Import FrameEffects.

Module FrameProperties.

(** X16.  [date_correction] writes in the column [XN Date] and nowhere
    else: the frame it returns has the columns of the frame it was given,
    in the same order and with the same cells, but for [XN Date], which
    holds one text for each row. *)
Theorem date_correction_writes_dates_only gcm td sf (df : frame) :
  has_col df xn = true ->
  exists dates,
    length dates = nrows df
    /\ get_col (fst (date_correction gcm td sf df)) xn = map CText dates
    /\ column_names (fst (date_correction gcm td sf df)) = column_names df
    /\ forall name, text_eqb name xn = false ->
         get_col (fst (date_correction gcm td sf df)) name = get_col df name.
Proof.
  intro Hh. destruct (date_correction_frame gcm td sf df Hh) as (dates & E & Hl).
  exists dates. rewrite E. unfold with_dates. repeat split.
  - exact Hl.
  - apply get_set_same.
  - apply names_set_col. exact Hh.
  - intros name Hn. apply get_set_other. exact Hn.
Qed.

Lemma date_correction_writes_dates_only_witness :
  exists dates,
    length dates = 4%nat
    /\ get_col (fst (date_correction no_close no_pd no_str disordered_ledger)) xn
       = map CText dates
    /\ column_names (fst (date_correction no_close no_pd no_str disordered_ledger))
       = [xn; T "Narration"]
    /\ forall name, text_eqb name xn = false ->
         get_col (fst (date_correction no_close no_pd no_str disordered_ledger)) name
         = get_col disordered_ledger name.
Proof.
  apply (date_correction_writes_dates_only no_close no_pd no_str disordered_ledger).
  reflexivity.
Defined.

(** X17.  [process_all_dates] keeps the shape of a frame that has a column
    [XN Date]: the same number of rows, every column as long as the frame,
    and the same columns in the same order but for the value-date column,
    which is dropped. *)
Theorem process_all_dates_keeps_shape gcm td sf (df : frame) :
  well_formed df -> has_col df xn = true ->
  nrows (process_all_dates gcm td sf df) = nrows df
  /\ well_formed (process_all_dates gcm td sf df)
  /\ column_names (process_all_dates gcm td sf df)
     = match find_value_date_col df with
       | Some col => filter (fun n => negb (text_eqb n col)) (column_names df)
       | None => column_names df
       end.
Proof. apply process_shape. Qed.

Lemma process_all_dates_keeps_shape_witness :
  nrows (process_all_dates no_close no_pd no_str valued_ledger) = 2%nat
  /\ well_formed (process_all_dates no_close no_pd no_str valued_ledger)
  /\ column_names (process_all_dates no_close no_pd no_str valued_ledger)
     = [xn; T "Narration"].
Proof.
  apply (process_all_dates_keeps_shape no_close no_pd no_str valued_ledger).
  - repeat constructor.
  - reflexivity.
Defined.

End FrameProperties.

(* ================================================================== *)
(** * Markers, components and neighbours *)
(* ================================================================== *)

Module HelperFacts.

(** ** Upper case, lower case and blanks *)

Lemma lower_no_upper : forall c, negb (is_upper (to_lower c)) = true.
Proof. by_chars. Qed.

Lemma space_upper : forall c, Bool.eqb (is_space (to_upper c)) (is_space c) = true.
Proof. by_chars. Qed.

Lemma space_lower : forall c, Bool.eqb (is_space (to_lower c)) (is_space c) = true.
Proof. by_chars. Qed.

(** A text in lower case is no text with a capital letter. *)
Lemma lower_differs s t : existsb is_upper t = true -> text_eqb (lower s) t = false.
Proof.
  intro H. apply text_eqb_neq. intro E. subst t.
  apply existsb_exists in H. destruct H as (c & Hc & Hu).
  unfold lower in Hc. apply in_map_iff in Hc. destruct Hc as (x & <- & _).
  pose proof (lower_no_upper x) as F. rewrite Hu in F. discriminate F.
Qed.

Lemma lstrip_map (f : ascii -> ascii) s :
  (forall c, is_space (f c) = is_space c) -> lstrip (map f s) = map f (lstrip s).
Proof.
  intro H. induction s as [|c s IH]; [reflexivity|].
  cbn [map lstrip]. rewrite H. destruct (is_space c); [exact IH | reflexivity].
Qed.

Lemma strip_map (f : ascii -> ascii) s :
  (forall c, is_space (f c) = is_space c) -> strip (map f s) = map f (strip s).
Proof.
  intro H. unfold strip, rstrip.
  rewrite (lstrip_map f s H), <- map_rev, (lstrip_map f _ H), map_rev. reflexivity.
Qed.

Lemma strip_upper s : strip (upper s) = upper (strip s).
Proof.
  apply strip_map. intro c. apply eqb_prop. apply space_upper.
Qed.

Lemma strip_lower s : strip (lower s) = lower (strip s).
Proof.
  apply strip_map. intro c. apply eqb_prop. apply space_lower.
Qed.

(** ** The dictionary of the markers *)

Lemma mapping_entries :
  mapping
  = [ (T "credit", T "CR"); (T "cr", T "CR"); (T "cr.", T "CR"); (T "c", T "CR");
      (T "(Cr)", T "CR"); (T "(Cr", T "CR"); (T "Cr)", T "DR");
      (T "debit", T "DR"); (T "dr", T "DR"); (T "dr.", T "DR"); (T "d", T "DR");
      (T "(Dr)", T "Dr"); (T "(Dr", T "DR") ].
Proof. reflexivity. Qed.

Lemma drcr_key_lower val : exists s, drcr_key val = lower s.
Proof. unfold drcr_key. eexists. reflexivity. Qed.

Lemma drcr_key_of_upper val : drcr_key (upper val) = drcr_key val.
Proof. unfold drcr_key. cbv zeta. rewrite strip_upper, upper_of_upper. reflexivity. Qed.

Lemma drcr_key_of_lower val : drcr_key (lower val) = drcr_key val.
Proof. unfold drcr_key. cbv zeta. rewrite strip_lower, upper_of_lower. reflexivity. Qed.

(** ** The nearest valid dates *)

Section Nearest.

Variable str_float : Q -> text.
Variables (df : frame) (date_col : text).

Local Abbreviation text_at := (date_text_at str_float df date_col).

Lemma nearest_above_spec i :
  match nearest_above str_float df date_col i with
  | Some (d, j) =>
      (j < i)%nat /\ d = text_at j /\ is_valid_date d = true
      /\ forall k, (j < k < i)%nat -> is_valid_date (text_at k) = false
  | None => forall k, (k < i)%nat -> is_valid_date (text_at k) = false
  end.
Proof.
  induction i as [|i IH]; cbn [nearest_above].
  - intros k Hk. lia.
  - cbv zeta. destruct (is_valid_date (text_at i)) eqn:E.
    + repeat split; [lia | exact E | intros k Hk; lia].
    + destruct (nearest_above str_float df date_col i) as [[d j]|].
      * destruct IH as (Hj & Hd & Hv & Hb). repeat split; [lia | exact Hd | exact Hv |].
        intros k Hk. destruct (Nat.eq_dec k i) as [->|Hne]; [exact E | apply Hb; lia].
      * intros k Hk. destruct (Nat.eq_dec k i) as [->|Hne]; [exact E | apply IH; lia].
Qed.

Lemma nearest_below_spec count : forall start,
  match nearest_below str_float df date_col start count with
  | Some (d, j) =>
      (start <= j < start + count)%nat /\ d = text_at j /\ is_valid_date d = true
      /\ forall k, (start <= k < j)%nat -> is_valid_date (text_at k) = false
  | None => forall k, (start <= k < start + count)%nat -> is_valid_date (text_at k) = false
  end.
Proof.
  induction count as [|count IH]; intro start; cbn [nearest_below].
  - intros k Hk. lia.
  - cbv zeta. destruct (is_valid_date (text_at start)) eqn:E.
    + repeat split; [lia | lia | exact E | intros k Hk; lia].
    + specialize (IH (S start)).
      destruct (nearest_below str_float df date_col (S start) count) as [[d j]|].
      * destruct IH as (Hj & Hd & Hv & Hb). repeat split; [lia | lia | exact Hd | exact Hv |].
        intros k Hk. destruct (Nat.eq_dec k start) as [->|Hne]; [exact E | apply Hb; lia].
      * intros k Hk. destruct (Nat.eq_dec k start) as [->|Hne]; [exact E | apply IH; lia].
Qed.

End Nearest.

(** ** The components of a date *)

Lemma bare_year_invalid y : all_digits y = true -> is_valid_date y = false.
Proof.
  intro H. unfold is_valid_date.
  rewrite (date_strip y (digits_date_text y H)).
  destruct (Nat.eqb (length y) 0); [reflexivity|].
  destruct (text_eqb (lower y) (T "nan") || text_eqb y (T "None")); [reflexivity|].
  unfold split_ints. rewrite split_on_none by (apply digits_no_char; [exact H | reflexivity]).
  reflexivity.
Qed.

End HelperFacts.

Import HelperFacts.

Module HelperProperties.

(** X18.  [normalize_drcr_value] returns ["CR"] for the cleaned texts
    credit, cr, cr. and c, ["DR"] for debit, dr, dr. and d, and the empty
    text for every other value: the looked-up text is in lower case, so
    the entries of the dictionary that have a capital letter, the one
    with the value ["Dr"] among them, are never found. *)
Theorem drcr_marker_table (val : text) :
  normalize_drcr_value val
  = if mem_text (drcr_key val) [T "credit"; T "cr"; T "cr."; T "c"] then T "CR"
    else if mem_text (drcr_key val) [T "debit"; T "dr"; T "dr."; T "d"] then T "DR"
    else T "".
Proof.
  unfold normalize_drcr_value. rewrite mapping_entries.
  destruct (drcr_key_lower val) as [s ->].
  cbn [dict_get mem_text existsb].
  rewrite !(lower_differs s (T "(Cr)")), !(lower_differs s (T "(Cr")),
    !(lower_differs s (T "Cr)")), !(lower_differs s (T "(Dr)")),
    !(lower_differs s (T "(Dr")) by reflexivity.
  repeat match goal with
         | |- context [text_eqb (lower s) ?t] =>
             destruct (text_eqb (lower s) t); cbn [orb]; try reflexivity
         end.
Qed.

(** X19.  [normalize_drcr_value] does not tell upper case from lower
    case. *)
Theorem drcr_ignores_case (val : text) :
  normalize_drcr_value (upper val) = normalize_drcr_value val
  /\ normalize_drcr_value (lower val) = normalize_drcr_value val.
Proof.
  unfold normalize_drcr_value. rewrite drcr_key_of_upper, drcr_key_of_lower.
  split; reflexivity.
Qed.

(** X20.  [find_nearest_valid_date] returns the nearest valid date: above
    a row, the date and the number of the last row before it whose date
    [is_valid_date] accepts; below, those of the first such row after it;
    no row between has a valid date, and nothing is returned only when no
    row on that side has one.  [get_valid_date_context] holds the two
    results. *)
Theorem nearest_valid_dates sf (df : frame) (date_col : text) (i : nat) :
  (i <= nrows df)%nat ->
  match find_nearest_valid_date sf df i true date_col with
  | Some (d, j) =>
      (j < i)%nat /\ d = date_text_at sf df date_col j /\ is_valid_date d = true
      /\ forall k, (j < k < i)%nat -> is_valid_date (date_text_at sf df date_col k) = false
  | None => forall k, (k < i)%nat -> is_valid_date (date_text_at sf df date_col k) = false
  end
  /\ match find_nearest_valid_date sf df i false date_col with
     | Some (d, j) =>
         (i < j < nrows df)%nat /\ d = date_text_at sf df date_col j
         /\ is_valid_date d = true
         /\ forall k, (i < k < j)%nat -> is_valid_date (date_text_at sf df date_col k) = false
     | None =>
         forall k, (i < k < nrows df)%nat ->
                   is_valid_date (date_text_at sf df date_col k) = false
     end
  /\ get_valid_date_context sf df i date_col
     = {| prev_date := option_map fst (find_nearest_valid_date sf df i true date_col);
          prev_idx := option_map snd (find_nearest_valid_date sf df i true date_col);
          next_date := option_map fst (find_nearest_valid_date sf df i false date_col);
          next_idx := option_map snd (find_nearest_valid_date sf df i false date_col) |}.
Proof.
  intro Hi. unfold find_nearest_valid_date, get_valid_date_context.
  assert (E : Nat.ltb (nrows df) i = false) by (apply Nat.ltb_ge; exact Hi).
  rewrite E. split; [apply nearest_above_spec|]. split; [|reflexivity].
  pose proof (nearest_below_spec sf df date_col (nrows df - S i) (S i)) as H.
  destruct (nearest_below sf df date_col (S i) (nrows df - S i)) as [[d j]|].
  - destruct H as (Hj & Hd & Hv & Hb). repeat split; [lia | lia | exact Hd | exact Hv |].
    intros k Hk. apply Hb. lia.
  - intros k Hk. apply H. lia.
Qed.

Lemma nearest_valid_dates_witness :
  find_nearest_valid_date no_str blank_ledger 1 true xn = Some (T "01/01/2024", 0%nat)
  /\ find_nearest_valid_date no_str blank_ledger 1 false xn = Some (T "03/01/2024", 2%nat)
  /\ get_valid_date_context no_str blank_ledger 1 xn
     = {| prev_date := Some (T "01/01/2024"); prev_idx := Some 0%nat;
          next_date := Some (T "03/01/2024"); next_idx := Some 2%nat |}.
Proof.
  assert (H : (1 <= nrows blank_ledger)%nat) by (simpl; lia).
  split; [reflexivity|]. split; [reflexivity|].
  exact (proj2 (proj2 (nearest_valid_dates no_str blank_ledger xn 1 H))).
Defined.



(** X22.  [extract_date_components] reads back what [strftime] wrote: the
    components of the text DD/MM/YYYY of a valid date are its day, its
    month and its year; the components of a bare year of four digits are
    that year alone. *)
Theorem date_components_read_back gcm :
  (forall t, valid_date t = true ->
     extract_date_components gcm (strftime t)
     = (Some (fst (fst t)), Some (snd (fst t)), Some (snd t)))
  /\ (forall y, year_shape y = true ->
        extract_date_components gcm y = (None, None, Some (digits_value y))).
Proof.
  split.
  - intros t Ht. unfold extract_date_components.
    pose proof (day_valid t Ht) as Hv.
    assert (Hn : Nat.eqb (length (strftime t)) 0 = false).
    { pose proof Hv as Hv'. unfold is_valid_date in Hv'. rewrite (day_strip t Ht) in Hv'.
      destruct (Nat.eqb (length (strftime t)) 0); [discriminate|reflexivity]. }
    rewrite Hn. cbv zeta. rewrite (day_strip t Ht), Hv, (day_ints t Ht).
    destruct t as [[d m] y]. reflexivity.
  - intros y Hy. unfold year_shape in Hy. apply andb_prop in Hy. destruct Hy as [Hd Hl].
    unfold extract_date_components.
    assert (Hne : y <> []) by (intro E; subst y; discriminate Hl).
    assert (Hn : Nat.eqb (length y) 0 = false).
    { apply Nat.eqb_eq in Hl. rewrite Hl. reflexivity. }
    rewrite Hn. cbv zeta. rewrite (date_strip y (digits_date_text y Hd)).
    rewrite (bare_year_invalid y Hd), Hd, Hl. cbn [andb].
    rewrite (py_int_digits y Hd Hne). reflexivity.
Qed.

Lemma date_components_read_back_witness :
  extract_date_components no_close (T "29/02/2024") = (Some 29, Some 2, Some 2024)
  /\ extract_date_components no_close (T "2024") = (None, None, Some 2024).
Proof.
  split.
  - exact (proj1 (date_components_read_back no_close) (29, 2, 2024) eq_refl).
  - exact (proj2 (date_components_read_back no_close) (T "2024") eq_refl).
Defined.

End HelperProperties.

(* ================================================================== *)
(** * Tokens without a digit *)
(* ================================================================== *)

Module DigitFacts.

(** ** Where the characters of a cleaned text come from *)



























(** ** The three parsers *)





End DigitFacts.

Import DigitFacts.

Module DigitProperties.



End DigitProperties.
